(** * Data_App_Stock_Analysis: the derivation pipeline, embedded and verified

    The repository is a set of Dash applications over yfinance.  The parts
    with logic are
    - [fetch_financials] of Stock_Research_Analysis.py (statement
      normalisation, number formatting, the KPI table),
    - [calculate_rsi] and [update_table_and_dropdown] of proto.py,
    - [get_stock_data] of watchlist_cardview_v1.py.

    Numbers.  Python floats are embedded as rationals extended with the
    IEEE special values (type [fl]); the special values follow IEEE (x/0 is
    an infinity for x <> 0, 0/0 is NaN, finite/infinity is 0).  The
    operations [add], [sub], [mul] and [div] are exact, so the rounding
    error of the indicator, of the percentage changes and of the price
    change is not represented: what is proved of them are signs, ranges,
    positions, shapes and identities of the exact quantities, and no digit
    that depends on a rounding.  Where the code prints the digits of a
    product, in the KPI table, the product is rounded to the nearest double
    ([b64], [fmul]).  The type has one zero; where the code shows the sign
    of a zero, in the percentage cells, the cell records it ([CNegZero]).

    Texts.  A Python [str] is embedded as its UTF-8 encoding.  pandas
    Series are lists, a DataFrame is the ordered list of its labelled
    columns, a dict from yfinance is a [gmap string pyval]. *)

From Stdlib Require Import ZArith QArith Qround Qabs Lqa String Ascii DecimalString.
From stdpp Require Import base option list gmap strings.

Open Scope string_scope.

(** ** Floats *)

Module Float.

Local Open Scope Q_scope.

Inductive fl : Type :=
| Fin (q : Q)
| PInf
| NInf
| NaN.

Definition Qlt_bool (a b : Q) : bool := negb (Qle_bool b a).

Definition is_nan (x : fl) : bool :=
  match x with NaN => true | _ => false end.

Definition is_finite (x : fl) : bool :=
  match x with Fin _ => true | _ => false end.

Definition is_zero (x : fl) : bool :=
  match x with Fin q => Qeq_bool q 0 | _ => false end.

(** [x > 0] and [x < 0] as Python evaluates them: comparisons with NaN are
    false. *)
Definition gt0 (x : fl) : bool :=
  match x with Fin q => Qlt_bool 0 q | PInf => true | _ => false end.

Definition lt0 (x : fl) : bool :=
  match x with Fin q => Qlt_bool q 0 | NInf => true | _ => false end.

Definition neg (x : fl) : fl :=
  match x with
  | Fin q => Fin (- q)
  | PInf => NInf
  | NInf => PInf
  | NaN => NaN
  end.

Definition abs (x : fl) : fl :=
  match x with
  | Fin q => Fin (Qabs q)
  | PInf | NInf => PInf
  | NaN => NaN
  end.

Definition add (x y : fl) : fl :=
  match x, y with
  | NaN, _ | _, NaN => NaN
  | Fin a, Fin b => Fin (a + b)
  | PInf, NInf | NInf, PInf => NaN
  | PInf, _ | _, PInf => PInf
  | NInf, _ | _, NInf => NInf
  end.

Definition sub (x y : fl) : fl := add x (neg y).

Definition mul (x y : fl) : fl :=
  match x, y with
  | NaN, _ | _, NaN => NaN
  | Fin a, Fin b => Fin (a * b)
  | Fin a, i | i, Fin a =>
      if Qeq_bool a 0 then NaN
      else if Qlt_bool 0 a then i else neg i
  | PInf, PInf | NInf, NInf => PInf
  | PInf, NInf | NInf, PInf => NInf
  end.

(** numpy division: no exception, a division by zero gives an infinity
    (NaN for 0/0). *)
Definition div (x y : fl) : fl :=
  match x, y with
  | NaN, _ | _, NaN => NaN
  | Fin a, Fin b =>
      if Qeq_bool b 0 then
        if Qeq_bool a 0 then NaN
        else if Qlt_bool 0 a then PInf else NInf
      else Fin (a / b)
  | Fin _, (PInf | NInf) => Fin 0
  | (PInf | NInf), (PInf | NInf) => NaN
  | i, Fin b => if Qlt_bool b 0 then neg i else i
  end.

(** Round half to even, the rounding of [numpy.round], of [round] and of
    the [.0f] format. *)
Definition round_half_even (q : Q) : Z :=
  let f := Qfloor q in
  let r := q - inject_Z f in
  if Qlt_bool r (1 # 2) then f
  else if Qlt_bool (1 # 2) r then (f + 1)%Z
  else if Z.even f then f else (f + 1)%Z.

(** [2 ** e] *)
Definition pow2 (e : Z) : Q :=
  match e with
  | Z0 => 1
  | Zpos p => inject_Z (2 ^ Zpos p)
  | Zneg p => 1 # (2 ^ p)
  end.

(** The integer part of the binary logarithm of a positive rational. *)
Definition ilog2 (a : Q) : Z :=
  let e := (Z.log2 (Qnum a) - Z.log2 (Zpos (Qden a)))%Z in
  if Qle_bool (pow2 e) a then e else (e - 1)%Z.

(** The double nearest to a rational, ties to the even significand: 53
    bits above 2^-1022, multiples of 2^-1074 below (gradual underflow), an
    infinity from 2^1024 on.  It is the rounding of every arithmetic
    operation on binary64 floats and of the conversion of an integer. *)
Definition b64 (q : Q) : fl :=
  if Qeq_bool q 0 then Fin 0
  else
    let a := Qabs q in
    let e := Z.max (ilog2 a - 52) (- 1074) in
    let m := round_half_even (a * pow2 (- e)) in
    if (2 ^ 1024 <=? m * 2 ^ e)%Z
    then (if Qlt_bool q 0 then NInf else PInf)
    else
      let r := inject_Z m * pow2 e in
      Fin (Qred (if Qlt_bool q 0 then - r else r)).

(** The least integer magnitude that rounds to 2^1024. *)
Definition int_overflow : Z := (2 ^ 1024 - 2 ^ 970)%Z.

Definition round64 (x : fl) : fl :=
  match x with Fin q => b64 q | _ => x end.

(** [x * y] on two floats, rounded as the machine rounds it. *)
Definition fmul (x y : fl) : fl := round64 (mul x y).

(** [Series.round(0)] *)
Definition round0 (x : fl) : fl :=
  match x with Fin q => Fin (inject_Z (round_half_even q)) | _ => x end.

(** [round(x, 2)] *)
Definition round2 (x : fl) : fl :=
  match x with
  | Fin q => Fin (inject_Z (round_half_even (q * 100)) / 100)
  | _ => x
  end.

(** [Series.fillna(0)] on one element *)
Definition fillna0 (x : fl) : fl :=
  match x with NaN => Fin 0 | _ => x end.

(** [Series.replace(0, float('inf'))] on one element *)
Definition replace0inf (x : fl) : fl :=
  if is_zero x then PInf else x.

(** [int(x)] on a finite float: truncation toward zero. *)
Definition trunc (q : Q) : Z := Z.quot (Qnum q) (Zpos (Qden q)).

(** Truthiness of a float: only zero is falsy (NaN is truthy). *)
Definition truthy (x : fl) : bool := negb (is_zero x).

(** The value of a float, up to the representation of the rational. *)
Definition has_value (x : fl) (q : Q) : Prop :=
  match x with Fin a => a == q | _ => False end.

End Float.

Import Float.

(** ** Rendering numbers as text *)

Module Text.

Local Open Scope Q_scope.

Definition comma : ascii := ","%char.

(** [str(n)] for a natural number and for an integer. *)
Definition str_of_N (n : N) : string := NilZero.string_of_uint (N.to_uint n).
Definition str_of_Z (z : Z) : string := NilZero.string_of_int (Z.to_int z).

(** The [,] format option: the digits are grouped in threes from the
    right.  [commas_rev] works on the digits least significant first. *)
Fixpoint commas_rev (ds : list ascii) : list ascii :=
  match ds with
  | a :: b :: c :: ((_ :: _) as rest) => a :: b :: c :: comma :: commas_rev rest
  | _ => ds
  end.

Definition comma_group (s : string) : string :=
  string_of_list_ascii (reverse (commas_rev (reverse (list_ascii_of_string s)))).

(** [f"{n:,}"] for a non-negative integer [n]. *)
Definition fmt_comma (n : N) : string := comma_group (str_of_N n).

(** [f"{x:.0f}"]: no decimals, half to even, the sign of [x] kept. *)
Definition fmt_0f (x : fl) : string :=
  match x with
  | Fin q =>
      (if Qlt_bool q 0 then "-" else "") ++
      str_of_N (Z.to_N (round_half_even (Qabs q)))
  | PInf => "inf"
  | NInf => "-inf"
  | NaN => "nan"
  end.

(** [f"{x:+.0f}"]: as above with an explicit sign (for the float -0.0,
    which is not in [fl], the text is "-0"). *)
Definition fmt_plus_0f (x : fl) : string :=
  match x with
  | Fin q =>
      (if Qlt_bool q 0 then "-" else "+") ++
      str_of_N (Z.to_N (round_half_even (Qabs q)))
  | PInf => "+inf"
  | NInf => "-inf"
  | NaN => "+nan"
  end.

End Text.

Import Text.

(** ** Exceptions *)

Definition exn : Type := string.

Definition result (A : Type) : Type := exn + A.

Definition ret {A} (x : A) : result A := inr x.
Definition raise {A} (e : exn) : result A := inl e.

Definition bind {A B} (m : result A) (k : A -> result B) : result B :=
  match m with inl e => inl e | inr x => k x end.

Notation "'let*' x := m 'in' k" := (bind m (fun x => k))
  (at level 10, x name, m at level 100, k at level 200).

Fixpoint mapM {A B} (f : A -> result B) (l : list A) : result (list B) :=
  match l with
  | [] => ret []
  | x :: l' =>
      let* y := f x in
      let* ys := mapM f l' in
      ret (y :: ys)
  end.

Fixpoint foldM {A B} (f : A -> B -> result A) (l : list B) (a : A) : result A :=
  match l with
  | [] => ret a
  | x :: l' => let* a' := f a x in foldM f l' a'
  end.

(** [range(lo, hi)] *)
Definition range (lo hi : nat) : list nat := seq lo (hi - lo).

(** ** The statement normaliser (Stock_Research_Analysis.py, fetch_financials) *)

Module Statement.

(** Column labels.  After [reset_index] the first column is the string
    ["index"]; the period columns are labelled by Timestamps; the loop adds
    columns labelled by the string [f"{col}-%"], here [LPct col]. *)
Inductive label : Type :=
| LName (s : string)
| LPeriod (t : Z)
| LPct (l : label).

#[global] Instance label_eq_dec : EqDecision label.
Proof. solve_decision. Defined.

(** A cell holds a number, a text, or a coloured [html.Span].  The float
    -0.0, which [fl] does not have, is a cell of its own. *)
Inductive cell : Type :=
| CNum (x : fl)
| CNegZero
| CStr (s : string)
| CSpan (text : string) (color : string).

Definition series : Type := list cell.
Definition DataFrame : Type := list (label * series).

(** What yfinance delivers: line items (the index) and one column of
    numbers per period end, newest first, with one cell per line item; an
    absent cell is NaN. *)
Record RawStatement : Type := {
  line_items : list string;
  periods : list (Z * list (option Q))
}.

Definition columns (df : DataFrame) : list label := map fst df.

(** [df[l]] *)
Fixpoint df_get (df : DataFrame) (l : label) : option series :=
  match df with
  | [] => None
  | (l', s) :: df' => if decide (l = l') then Some s else df_get df' l
  end.

(** [df[l] = s]: an existing column is replaced in place, a new one is
    appended on the right. *)
Fixpoint df_set (df : DataFrame) (l : label) (s : series) : DataFrame :=
  match df with
  | [] => [(l, s)]
  | (l', s') :: df' =>
      if decide (l = l') then (l, s) :: df' else (l', s') :: df_set df' l s
  end.

(** [df[l] = f(df[l])] *)
Definition df_update (f : series -> result series) (df : DataFrame) (l : label)
  : result DataFrame :=
  match df_get df l with
  | Some s => let* s' := f s in ret (df_set df l s')
  | None => raise "KeyError"
  end.

Definition raw_cell (o : option Q) : cell :=
  CNum (match o with Some q => Fin q | None => NaN end).

(** [pd.DataFrame(statement).reset_index()] *)
Definition reset_index (raw : RawStatement) : DataFrame :=
  (LName "index", map CStr (line_items raw))
    :: map (fun p => (LPeriod p.1, map raw_cell p.2)) (periods raw).

(** [df.fillna(0, inplace=True)] *)
Definition cell_fillna0 (c : cell) : cell :=
  match c with CNum x => CNum (fillna0 x) | _ => c end.

Definition df_fillna0 (df : DataFrame) : DataFrame :=
  map (fun c => (c.1, map cell_fillna0 c.2)) df.

(** [pd.to_numeric(_, errors='coerce')] *)
Definition to_numeric (c : cell) : cell :=
  match c with CNum _ | CNegZero => c | _ => CNum NaN end.

Definition num_of (c : cell) : fl :=
  match c with CNum x => x | CNegZero => Fin 0 | _ => NaN end.

(** The value of one cell of
    [((cur - prev) / abs(prev).replace(0, inf) * 100).fillna(0).round(0)],
    in exact arithmetic: where the exact quotient is within a rounding
    error of a half, the whole number of the code can be the neighbour of
    this one (315 against 200 is 57.5 exactly and 57.499999999999993 in
    binary64). *)
Definition pct_change (cur prev : fl) : fl :=
  round0 (fillna0 (mul (div (sub cur prev) (replace0inf (abs prev))) (Fin 100))).

(** The sign of a zero.  The divisor is positive, so the quotient, the
    product and the rounding keep the sign of [cur - prev]: a result that
    is zero is the float -0.0 when [cur - prev] is negative.  The zero
    that [fillna] writes is positive. *)
Definition pct_negative_zero (cur prev : fl) : bool :=
  let q := mul (div (sub cur prev) (replace0inf (abs prev))) (Fin 100) in
  negb (is_nan q) && is_zero (round0 q) && lt0 (sub cur prev).

Definition pct_cell (cur prev : fl) : cell :=
  if pct_negative_zero cur prev then CNegZero else CNum (pct_change cur prev).

Fixpoint zip_with_fl (f : fl -> fl -> cell) (a b : series) : series :=
  match a, b with
  | x :: a', y :: b' => f (num_of x) (num_of y) :: zip_with_fl f a' b'
  | _, _ => []
  end.

Definition pct_series (cur prev : series) : series :=
  zip_with_fl pct_cell cur prev.

(** The body of the loop [for i in range(1, len(numeric_columns) - 1)].
    The column lookups sit inside the [try], so a missing column leaves the
    frame unchanged; the indexing of [numeric_columns] is outside of it. *)
Definition pct_step (numeric_columns : list label) (df : DataFrame) (i : nat)
  : result DataFrame :=
  match numeric_columns !! i, numeric_columns !! (i + 1) with
  | Some current_col, Some previous_col =>
      match df_get df current_col, df_get df previous_col with
      | Some cur, Some prev =>
          ret (df_set df (LPct current_col) (pct_series cur prev))
      | _, _ => ret df
      end
  | _, _ => raise "IndexError"
  end.

(** [format_number] *)
Definition format_number (value : cell) : result cell :=
  match value with
  | CNum (Fin q) =>
      let value := trunc q in
      if (value <? 0)%Z
      then ret (CStr ("(" ++ fmt_comma (Z.to_N (Z.abs value)) ++ ")"))
      else ret (CStr (fmt_comma (Z.to_N value)))
  | CNum NaN => raise "ValueError"
  | CNum _ => raise "OverflowError"
  | CNegZero => ret (CStr "0")
  | _ => ret value
  end.

(** The lambda of the colour formatting. *)
Definition pct_span (x : cell) : cell :=
  match x with
  | CNum v =>
      if is_nan v then CStr "0 %"
      else CSpan (fmt_plus_0f v ++ " %")
                 (if gt0 v then "green" else if lt0 v then "red" else "white")
  | CNegZero => CSpan "-0 %" "white"
  | _ => CStr "0 %"
  end.

(** [df.filter(like='%').columns]: the labels whose text contains [%].
    A Timestamp is printed with digits, dashes, colons and blanks only. *)
Fixpoint has_percent (s : string) : bool :=
  match s with
  | EmptyString => false
  | String c s' => if Ascii.eqb c "%" then true else has_percent s'
  end.

Definition like_percent (l : label) : bool :=
  match l with
  | LName s => has_percent s
  | LPeriod _ => false
  | LPct _ => true
  end.

(** [df.iloc[::-1]] *)
Definition df_reverse (df : DataFrame) : DataFrame :=
  map (fun c => (c.1, reverse c.2)) df.

(** The processing of one statement that is not [None]. *)
Definition normalize (raw : RawStatement) : result DataFrame :=
  let df := df_fillna0 (reset_index raw) in
  let numeric_columns := tail (columns df) in
  let* df := foldM (df_update (fun s => ret (map to_numeric s))) numeric_columns df in
  let* df := foldM (pct_step numeric_columns)
                   (range 1 (length numeric_columns - 1)) df in
  let* df := foldM (df_update (mapM format_number)) numeric_columns df in
  let* df := foldM (df_update (fun s => ret (map pct_span s)))
                   (filter (fun l => like_percent l = true) (columns df)) df in
  ret (df_reverse df).

(** [financials[period][statement]] after the loop. *)
Definition normalize_statement (raw : option RawStatement) : result DataFrame :=
  match raw with
  | Some r => normalize r
  | None => ret []
  end.

(** The columns that hold values: all but the index column. *)
Definition value_columns (df : DataFrame) : list label := tail (columns df).

End Statement.

Import Statement.

(** ** The indicator engine (proto.py, calculate_rsi) *)

Module Indicator.

Local Open Scope Q_scope.

(** [Series.diff()]: the first position has no predecessor. *)
Definition diff (data : list fl) : list fl :=
  match data with
  | [] => []
  | _ :: rest => NaN :: zip_with sub rest data
  end.

(** [s.where(cond, 0)]: the value is kept where the condition holds. *)
Definition where_or0 (cond : fl -> bool) (s : list fl) : list fl :=
  map (fun d => if cond d then d else Fin 0) s.

Definition sum (l : list fl) : fl := foldr add (Fin 0) l.

(** The window that ends at position [i]: the last [window] elements of
    [s[0..i]]. *)
Definition window_at (window : nat) (s : list fl) (i : nat) : list fl :=
  drop (i + 1 - window) (take (i + 1) s).

(** The mean of one window; [min_periods] is the window size, and NaN
    elements are not observations, nor are infinite ones: [rolling] makes
    them NaN before it aggregates. *)
Definition window_mean (window : nat) (win : list fl) : fl :=
  let obs := filter (fun x => is_finite x = true) win in
  let nobs := length obs in
  if decide (window <= nobs /\ 0 < nobs)%nat
  then div (sum obs) (Fin (inject_Z (Z.of_nat nobs)))
  else NaN.

(** [s.rolling(window=window).mean()] *)
Definition rolling_mean (window : nat) (s : list fl) : list fl :=
  imap (fun i _ => window_mean window (window_at window s i)) s.

Definition calculate_rsi (data : list fl) (window : nat) : list fl :=
  let delta := diff data in
  let gain := rolling_mean window (where_or0 gt0 delta) in
  let loss := rolling_mean window (map neg (where_or0 lt0 delta)) in
  let rs := zip_with div gain loss in
  map (fun r => sub (Fin 100) (div (Fin 100) (add (Fin 1) r))) rs.

(** The default value of the parameter. *)
Definition default_window : nat := 14.

End Indicator.

Import Indicator.

(** ** Python values and the external collaborators *)

(** The values found in [stock.info]. *)
Inductive pyval : Type :=
| PNone
| PInt (z : Z)
| PFloat (x : fl)
| PStr (s : string).

Abbreviation info_map := (gmap string pyval).

(** [d.get(k, default)] *)
Definition get_or (d : info_map) (k : string) (default : pyval) : pyval :=
  match d !! k with Some v => v | None => default end.

(** [d.get(k)] *)
Definition get (d : info_map) (k : string) : pyval := get_or d k PNone.

Definition is_none (v : pyval) : bool :=
  match v with PNone => true | _ => false end.

(** Truthiness. *)
Definition py_truthy (v : pyval) : bool :=
  match v with
  | PNone => false
  | PInt z => negb (z =? 0)%Z
  | PFloat x => truthy x
  | PStr s => negb (String.eqb s "")
  end.

(** One sample of a price history. *)
Record Bar : Type := {
  b_time : Z;
  b_open : fl;
  b_high : fl;
  b_low : fl;
  b_close : fl;
  b_volume : Z
}.

Definition History : Type := list Bar.

Inductive cadence : Type := Annual | Quarterly.
Inductive statement_kind : Type := ProfitAndLoss | BalanceSheet | CashFlow.

(** yfinance.  Every access may raise. *)
Record Source : Type := {
  yf_info : string -> result (option info_map);
  yf_history : string -> string -> string -> result History;
  yf_statement : string -> cadence -> statement_kind -> result (option RawStatement)
}.

(** What Python does with floats and strings that the embedding leaves
    open: the shortest [repr] of a float, the [,] format of a float, the
    parsers behind [float(s)] and [int(s)], and [strftime]. *)
Record Runtime : Type := {
  float_repr : fl -> string;
  float_comma : fl -> string;
  float_of_str : string -> result fl;
  int_of_str : string -> result Z;
  strftime : string -> Z -> string
}.

Section Python.

Context (rt : Runtime).

(** [str(v)], the conversion of an f-string field. *)
Definition py_str (v : pyval) : string :=
  match v with
  | PNone => "None"
  | PInt z => str_of_Z z
  | PFloat x => float_repr rt x
  | PStr s => s
  end.

(** The conversion of an integer to a float, which [float] and the [f]
    format make: the nearest double, and OverflowError from 2^1024 - 2^970
    on. *)
Definition float_of_int (z : Z) : result fl :=
  if (int_overflow <=? Z.abs z)%Z then raise "OverflowError"
  else ret (b64 (inject_Z z)).

(** [float(v)] *)
Definition py_float (v : pyval) : result fl :=
  match v with
  | PNone => raise "TypeError"
  | PInt z => float_of_int z
  | PFloat x => ret x
  | PStr s => float_of_str rt s
  end.

(** [int(v)] *)
Definition py_int (v : pyval) : result Z :=
  match v with
  | PNone => raise "TypeError"
  | PInt z => ret z
  | PFloat (Fin q) => ret (trunc q)
  | PFloat NaN => raise "ValueError"
  | PFloat _ => raise "OverflowError"
  | PStr s => int_of_str rt s
  end.

(** [round(v, 2)] *)
Definition py_round2 (v : pyval) : result pyval :=
  match v with
  | PInt z => ret (PInt z)
  | PFloat x => ret (PFloat (round2 x))
  | _ => raise "TypeError"
  end.

(** [f"{v:,}"] *)
Definition py_fmt_comma (v : pyval) : result string :=
  match v with
  | PInt z =>
      ret ((if (z <? 0)%Z then "-" else "") ++ fmt_comma (Z.to_N (Z.abs z)))
  | PFloat x => ret (float_comma rt x)
  | PNone => raise "TypeError"
  | PStr _ => raise "ValueError"
  end.

(** [f"{v * 100:.0f}"]: the product of a float is a float product, that of
    an integer is exact; a string times 100 is a string, which has no [f]
    format. *)
Definition py_fmt_pct (v : pyval) : result string :=
  match v with
  | PInt z => let* x := float_of_int (z * 100) in ret (fmt_0f x)
  | PFloat x => ret (fmt_0f (fmul x (Fin 100)))
  | PNone => raise "TypeError"
  | PStr _ => raise "ValueError"
  end.

(** [f"{v:.0f}"] *)
Definition py_fmt_0f (v : pyval) : result string :=
  match v with
  | PInt z => let* x := float_of_int z in ret (fmt_0f x)
  | PFloat x => ret (fmt_0f x)
  | PNone => raise "TypeError"
  | PStr _ => raise "ValueError"
  end.

End Python.

(** ** The KPI table (Stock_Research_Analysis.py, kpi_data) *)

Module KPI.

Section WithRuntime.

Context (rt : Runtime).

Definition Metric : list string :=
  [ "Return on Equity"; "Debt to Equity"; "Current Ratio"; "Gross Margins";
    "Operating Margins"; "Profit Margins"; "EBITDA Margins"; "Quick Ratio";
    "Payout Ratio"; "Beta" ].

(** [f"{info.get(k, 0) * 100:.0f} %" if info.get(k) is not None else "N/A"] *)
Definition percent_value (stock_info : info_map) (k : string) : result string :=
  if is_none (get stock_info k) then ret "N/A"
  else let* s := py_fmt_pct (get_or stock_info k (PInt 0)) in ret (s ++ " %").

(** [f"{int(info.get(k, 0))}" if info.get(k) is not None else "N/A"] *)
Definition int_value (stock_info : info_map) (k : string) : result string :=
  if is_none (get stock_info k) then ret "N/A"
  else let* z := py_int rt (get_or stock_info k (PInt 0)) in ret (str_of_Z z).

(** [f"{info.get(k, 0):.0f}" if info.get(k) is not None else "N/A"] *)
Definition rounded_value (stock_info : info_map) (k : string) : result string :=
  if is_none (get stock_info k) then ret "N/A"
  else py_fmt_0f (get_or stock_info k (PInt 0)).

(** The list under ["Value"], built left to right. *)
Definition Value (stock_info : info_map) : result (list string) :=
  let* v0 := percent_value stock_info "returnOnEquity" in
  let* v1 := int_value stock_info "debtToEquity" in
  let* v2 := int_value stock_info "currentRatio" in
  let* v3 := percent_value stock_info "grossMargins" in
  let* v4 := percent_value stock_info "operatingMargins" in
  let* v5 := percent_value stock_info "profitMargins" in
  let* v6 := percent_value stock_info "ebitdaMargins" in
  let* v7 := int_value stock_info "quickRatio" in
  let* v8 := percent_value stock_info "payoutRatio" in
  let* v9 := rounded_value stock_info "beta" in
  ret [v0; v1; v2; v3; v4; v5; v6; v7; v8; v9].

(** [kpi_df]: the rows (metric, value). *)
Definition kpi_df (stock_info : info_map) : result (list (string * string)) :=
  let* vs := Value stock_info in ret (zip Metric vs).

End WithRuntime.

End KPI.

(** ** fetch_financials as a whole *)

Module Research.

Section WithSource.

Context (src : Source) (rt : Runtime).

Definition statements : list (cadence * statement_kind) :=
  [ (Annual, ProfitAndLoss); (Annual, BalanceSheet); (Annual, CashFlow);
    (Quarterly, ProfitAndLoss); (Quarterly, BalanceSheet); (Quarterly, CashFlow) ].

(** The body of the outer [try]. *)
Definition fetch_body (ticker : string)
  : result (list (cadence * statement_kind * DataFrame) * info_map
            * list (string * string)) :=
  let* raws := mapM (fun ck => let* r := yf_statement src ticker ck.1 ck.2 in
                               ret (ck, r)) statements in
  let* financials := mapM (fun ckr => let* df := normalize_statement ckr.2 in
                                      ret (ckr.1, df)) raws in
  let* info0 := yf_info src ticker in
  let stock_info := match info0 with Some d => d | None => ∅ end in
  let* kpi_df := KPI.kpi_df rt stock_info in
  ret (financials, stock_info, kpi_df).

(** [except Exception as e: return None, {"error": str(e)}, None] *)
Definition fetch_financials (ticker : string)
  : option (list (cadence * statement_kind * DataFrame)) * info_map
    * option (list (string * string)) :=
  match fetch_body ticker with
  | inr (financials, stock_info, kpi_df) =>
      (Some financials, stock_info, Some kpi_df)
  | inl e => (None, {[ "error" := PStr e ]}, None)
  end.

End WithSource.

End Research.

(** ** Watchlist rows *)

(** A row is a Python dict: keys in insertion order.  Two fields of the
    card rows hold lists. *)
Inductive rowval : Type :=
| VVal (v : pyval)
| VFloats (l : list fl)
| VStrs (l : list string).

Definition row : Type := list (string * rowval).

Fixpoint row_get (r : row) (k : string) : option rowval :=
  match r with
  | [] => None
  | (k', v) :: r' => if String.eqb k k' then Some v else row_get r' k
  end.

(** [k in r] *)
Definition row_has (r : row) (k : string) : bool :=
  match row_get r k with Some _ => true | None => false end.

(** [info.get(...)] on what [stock.info] returned; [None] has no [get]. *)
Definition the_info (info : option info_map) : result info_map :=
  match info with
  | Some d => ret d
  | None => raise "AttributeError"
  end.

(** ** The card watchlist (watchlist_cardview_v1.py, get_stock_data) *)

Module Cardview.

Section WithSource.

Context (src : Source) (rt : Runtime).

(** The body of the [try]. *)
Definition fetch_row (ticker : string) : result row :=
  let* info0 := yf_info src ticker in
  let* historical := yf_history src ticker "1m" "1d" in
  let close_prices := map b_close historical in
  let dates := map (fun b => strftime rt "%H:%M:%S" (b_time b)) historical in
  let* info := the_info info0 in
  let current_price := get info "currentPrice" in
  let previous_close := get info "previousClose" in
  let* price_change :=
    if negb (is_none current_price) && negb (is_none previous_close)
    then
      let* a := py_float rt current_price in
      let* b := py_float rt previous_close in
      ret (PFloat (sub a b))
    else ret (PStr "N/A") in
  let na := PStr "N/A" in
  let range_of lo hi :=
    py_str rt (get_or info lo na) ++ " - " ++ py_str rt (get_or info hi na) in
  ret [ ("Ticker", VVal (PStr ticker));
        ("Current Price", VVal (if py_truthy current_price then current_price else na));
        ("Price Change", VVal price_change);
        ("Close", VVal (if py_truthy previous_close then previous_close else na));
        ("Open", VVal (get_or info "open" na));
        ("Day Range", VVal (PStr (range_of "dayLow" "dayHigh")));
        ("52W Range", VVal (PStr (range_of "fiftyTwoWeekLow" "fiftyTwoWeekHigh")));
        ("Volume Traded", VVal (get_or info "volume" na));
        ("Market Cap", VVal (get_or info "marketCap" na));
        ("Beta", VVal (get_or info "beta" na));
        ("Analyst Range", VVal (PStr (range_of "targetLowPrice" "targetHighPrice")));
        ("Close Prices", VFloats close_prices);
        ("Dates", VStrs dates) ].

(** The row appended by the [except] clause. *)
Definition error_row (ticker : string) (e : exn) : row :=
  [ ("Ticker", VVal (PStr ticker)); ("Error", VVal (PStr e)) ].

(** One turn of the loop: [try ... except Exception as e]. *)
Definition stock_row (ticker : string) : row :=
  match fetch_row ticker with
  | inr r => r
  | inl e => error_row ticker e
  end.

Definition get_stock_data (tickers : list string) : list row :=
  fold_left (fun data ticker => (data ++ [stock_row ticker])%list) tickers [].

End WithSource.

End Cardview.

(** ** The RSI watchlist (proto.py, update_table_and_dropdown) *)

Module Proto.

(** [str.split(",")] *)
Fixpoint split_comma (s : string) : list string :=
  match s with
  | EmptyString => [EmptyString]
  | String c s' =>
      if Ascii.eqb c "," then EmptyString :: split_comma s'
      else match split_comma s' with
           | cur :: rest => String c cur :: rest
           | [] => [String c EmptyString]
           end
  end.

(** The characters for which [str.isspace] holds, in UTF-8: U+0009 to
    U+000D, U+001C to U+0020, U+0085, U+00A0, U+1680, U+2000 to U+200A,
    U+2028, U+2029, U+202F, U+205F and U+3000. *)
Definition spaces : list (list ascii) :=
  map (map ascii_of_nat)
    [ [9]; [10]; [11]; [12]; [13]; [28]; [29]; [30]; [31]; [32];
      [194; 133]; [194; 160]; [225; 154; 128];
      [226; 128; 128]; [226; 128; 129]; [226; 128; 130]; [226; 128; 131];
      [226; 128; 132]; [226; 128; 133]; [226; 128; 134]; [226; 128; 135];
      [226; 128; 136]; [226; 128; 137]; [226; 128; 138];
      [226; 128; 168]; [226; 128; 169]; [226; 128; 175];
      [226; 129; 159]; [227; 128; 128] ]%list%nat.

(** The text after the prefix [w], when the text starts with [w]. *)
Fixpoint drop_prefix (w l : list ascii) : option (list ascii) :=
  match w, l with
  | nil, _ => Some l
  | cons a w', cons b l' => if Ascii.eqb a b then drop_prefix w' l' else None
  | cons _ _, nil => None
  end.

Fixpoint first_match (ws : list (list ascii)) (l : list ascii)
  : option (list ascii) :=
  match ws with
  | nil => None
  | cons w ws' =>
      match drop_prefix w l with
      | Some r => Some r
      | None => first_match ws' l
      end
  end.

(** The loop that skips the leading characters of [ws]; every turn
    consumes a byte at least, so the length of the text is fuel enough. *)
Fixpoint lstrip_with (ws : list (list ascii)) (fuel : nat) (l : list ascii)
  : list ascii :=
  match fuel with
  | O => l
  | S n =>
      match first_match ws l with
      | Some r => lstrip_with ws n r
      | None => l
      end
  end.

Definition lstrip_chars (l : list ascii) : list ascii :=
  lstrip_with spaces (length l) l.

(** At the end of the text the encodings are met last byte first. *)
Definition rstrip_chars (l : list ascii) : list ascii :=
  reverse (lstrip_with (map reverse spaces) (length l) (reverse l)).

(** [str.strip()] *)
Definition strip (s : string) : string :=
  string_of_list_ascii (rstrip_chars (lstrip_chars (list_ascii_of_string s))).

Section WithSource.

Context (src : Source) (rt : Runtime).

(** [history[col][-1] if not history.empty else 0] *)
Definition last_or_zero (col : list fl) : result pyval :=
  match col with
  | [] => ret (PInt 0)
  | _ => match last col with
         | Some x => ret (PFloat x)
         | None => raise "IndexError"
         end
  end.

(** [calculate_rsi(history['Close']).iloc[-1] if not history.empty else None] *)
Definition latest_rsi (closes : list fl) : result (option fl) :=
  match closes with
  | [] => ret None
  | _ => match last (calculate_rsi closes default_window) with
         | Some x => ret (Some x)
         | None => raise "IndexError"
         end
  end.

(** [round(rsi, 2) if rsi else "N/A"] *)
Definition rsi_field (rsi : option fl) : pyval :=
  match rsi with
  | Some x => if truthy x then PFloat (round2 x) else PStr "N/A"
  | None => PStr "N/A"
  end.

(** The body of the loop, up to [data.append]. *)
Definition table_row (ticker : string) : result row :=
  let* info0 := yf_info src ticker in
  let* history := yf_history src ticker "1d" "1mo" in
  let* close_price := last_or_zero (map b_close history) in
  let* open_price := last_or_zero (map b_open history) in
  let* info := the_info info0 in
  let beta := get_or info "beta" (PStr "N/A") in
  let* rsi := latest_rsi (map b_close history) in
  let zero := PInt 0 in
  let range_of lo hi :=
    py_str rt (get_or info lo zero) ++ " - " ++ py_str rt (get_or info hi zero) in
  let* current := py_round2 (get_or info "currentPrice" zero) in
  let* c := py_round2 close_price in
  let* o := py_round2 open_price in
  let* volume := py_fmt_comma rt (get_or info "volume" zero) in
  ret [ ("Ticker", VVal (PStr ticker));
        ("Company Name", VVal (get_or info "shortName" (PStr ticker)));
        ("Current Price", VVal current);
        ("Day Range", VVal (PStr (range_of "dayLow" "dayHigh")));
        ("52W Range", VVal (PStr (range_of "fiftyTwoWeekLow" "fiftyTwoWeekHigh")));
        ("Close - Open", VVal (PStr (py_str rt c ++ " - " ++ py_str rt o)));
        ("Beta", VVal beta);
        ("Trading Volume", VVal (PStr volume));
        ("RSI", VVal (rsi_field rsi)) ].

Definition table_columns : list string :=
  [ "Ticker"; "Company Name"; "Current Price"; "Day Range"; "52W Range";
    "Close - Open"; "Beta"; "Trading Volume"; "RSI" ].

(** The loop has no [try]: the first exception ends the callback. *)
Definition table_rows (tickers : list string) : result (list row) :=
  foldM (fun data ticker => let* r := table_row ticker in ret (data ++ [r])%list)
        tickers [].

(** The callback returns the rows, the column descriptions and the options
    of the ticker dropdown. *)
Definition update_table_and_dropdown (n_clicks : option nat) (tickers : option string)
  : result (list row * list (string * string) * list (string * string)) :=
  match tickers with
  | None | Some EmptyString => ret ([], [], [])
  | Some text =>
      let tickers := map strip (split_comma text) in
      let* data := table_rows tickers in
      ret (data, map (fun col => (col, col)) table_columns,
           map (fun t => (t, t)) tickers)
  end.

End WithSource.

End Proto.


(** ** The cards of the card watchlist (watchlist_cardview_v1.py,
       create_stock_cards and update_cards) *)

Module Cards.

Local Open Scope Q_scope.

(** Two decimal digits, with a leading zero. *)
Definition two_digits (n : N) : string :=
  (if (n <? 10)%N then "0" else "") ++ str_of_N n.

(** [f"{x:+.2f}"]: two decimals, half to even, an explicit sign. *)
Definition fmt_plus_2f (x : fl) : string :=
  match x with
  | Fin q =>
      let n := Z.to_N (round_half_even (Qabs q * 100)) in
      (if Qlt_bool q 0 then "-" else "+")
        ++ str_of_N (n / 100) ++ "." ++ two_digits (n mod 100)
  | PInf => "+inf"
  | NInf => "-inf"
  | NaN => "+nan"
  end.

(** What a card shows. *)
Record card : Type := {
  card_ticker : rowval;
  card_price : string;
  card_trend_color : string;
  card_open : rowval;
  card_day_range : rowval;
  card_52w_range : rowval;
  card_analyst_range : rowval;
  card_dates : rowval;
  card_close_prices : rowval;
  card_volume : string;
  card_market_cap : string;
  card_beta : rowval
}.

(** The children of the [stock-cards] container: a red [html.Div] with a
    text, or a card. *)
Inductive element : Type :=
| ErrorDiv (text : string)
| Card (c : card).

Section WithSource.

Context (src : Source) (rt : Runtime).

(** [str.upper], and [str] of a list value. *)
Context (upper : string -> string) (list_str : rowval -> string).

(** [stock[k]] *)
Definition item (stock : row) (k : string) : result rowval :=
  match row_get stock k with
  | Some v => ret v
  | None => raise "KeyError"
  end.

(** [f"{v}"] *)
Definition rowval_str (v : rowval) : string :=
  match v with
  | VVal p => py_str rt p
  | _ => list_str v
  end.

(** [v != "N/A"] *)
Definition is_not_NA (v : rowval) : bool :=
  match v with
  | VVal (PStr s) => negb (String.eqb s "N/A")
  | _ => true
  end.

(** [v >= 0] *)
Definition ge_zero (v : rowval) : result bool :=
  match v with
  | VVal (PInt z) => ret (0 <=? z)%Z
  | VVal (PFloat (Fin q)) => ret (Qle_bool 0 q)
  | VVal (PFloat PInf) => ret true
  | VVal (PFloat _) => ret false
  | _ => raise "TypeError"
  end.

(** [f"{v:+.2f}"] *)
Definition rowval_plus_2f (v : rowval) : result string :=
  match v with
  | VVal (PInt z) => ret (fmt_plus_2f (Fin (inject_Z z)))
  | VVal (PFloat x) => ret (fmt_plus_2f x)
  | VVal (PStr _) => raise "ValueError"
  | _ => raise "TypeError"
  end.

(** [f"{v:,}"] *)
Definition rowval_comma (v : rowval) : result string :=
  match v with
  | VVal p => py_fmt_comma rt p
  | _ => raise "TypeError"
  end.

(** The card of a row without the key ["Error"]. *)
Definition stock_card (stock : row) : result card :=
  let* change := item stock "Price Change" in
  let* up := if is_not_NA change then ge_zero change else ret false in
  let trend_color := if up then "#2a9d8f" else "#e63946" in
  let* dates := item stock "Dates" in
  let* close_prices := item stock "Close Prices" in
  let* ticker := item stock "Ticker" in
  let* current := item stock "Current Price" in
  let* price :=
    if is_not_NA change
    then let* delta := rowval_plus_2f change in
         ret ("$" ++ rowval_str current ++ " (" ++ delta ++ ")")
    else ret ("$" ++ rowval_str current ++ " (N/A)") in
  let* open := item stock "Open" in
  let* day_range := item stock "Day Range" in
  let* w52_range := item stock "52W Range" in
  let* analyst_range := item stock "Analyst Range" in
  let* volume0 := item stock "Volume Traded" in
  let* volume := rowval_comma volume0 in
  let* cap0 := item stock "Market Cap" in
  let* cap := rowval_comma cap0 in
  let* beta := item stock "Beta" in
  ret {| card_ticker := ticker; card_price := price;
         card_trend_color := trend_color; card_open := open;
         card_day_range := day_range; card_52w_range := w52_range;
         card_analyst_range := analyst_range; card_dates := dates;
         card_close_prices := close_prices; card_volume := volume;
         card_market_cap := "$" ++ cap; card_beta := beta |}.

(** One turn of the loop of [create_stock_cards]. *)
Definition stock_element (stock : row) : result element :=
  if row_has stock "Error"
  then
    let* ticker := item stock "Ticker" in
    let* error := item stock "Error" in
    ret (ErrorDiv ("Error fetching data for " ++ rowval_str ticker ++ ": "
                     ++ rowval_str error))
  else
    let* c := stock_card stock in ret (Card c).

Definition create_stock_cards (data : list row) : result (list element) :=
  mapM stock_element data.

(** The callback: the whole body is in one [try]. *)
Definition update_cards (n_clicks n_intervals : nat) (ticker_input : option string)
  : list element :=
  match ticker_input with
  | None | Some EmptyString => []
  | Some text =>
      let tickers := map (fun t => upper (Proto.strip t)) (Proto.split_comma text) in
      let data := Cardview.get_stock_data src rt tickers in
      match create_stock_cards data with
      | inr cards => cards
      | inl e => [ErrorDiv ("Error: " ++ e)]
      end
  end.

End WithSource.

End Cards.

(** ** The page of Stock_Research_Analysis.py (generate_financial_table,
       generate_tabs, generate_stock_info, update_output) *)

Module Dashboard.

(** What the callback puts on the page. *)
#[warnings="-register-all"]
Inductive view : Type :=
| Message (text className : string)
| StatementTable (df : DataFrame)
| KpiTable (rows : list (string * string))
| InfoTable (rows : list (string * pyval))
| Tabs (tabs : list (string * view)).

(** [df.empty]: no column or no row. *)
Definition df_empty (df : DataFrame) : bool :=
  match df with
  | [] => true
  | (_, []) :: _ => true
  | _ => false
  end.

Definition no_data : view :=
  Message "No data available for this section." "text-center text-danger".

(** [generate_financial_table] on the frame of a statement and on the
    frame of the KPIs (two columns, one row per metric). *)
Definition generate_financial_table (df : DataFrame) : view :=
  if df_empty df then no_data else StatementTable df.

Definition generate_kpi_table (rows : list (string * string)) : view :=
  match rows with
  | [] => no_data
  | _ => KpiTable rows
  end.

Definition cadence_eqb (a b : cadence) : bool :=
  match a, b with
  | Annual, Annual | Quarterly, Quarterly => true
  | _, _ => false
  end.

Definition kind_eqb (a b : statement_kind) : bool :=
  match a, b with
  | ProfitAndLoss, ProfitAndLoss | BalanceSheet, BalanceSheet
  | CashFlow, CashFlow => true
  | _, _ => false
  end.

(** [data[period][statement]] *)
Fixpoint statement_of (data : list (cadence * statement_kind * DataFrame))
    (period : cadence) (kind : statement_kind) : result DataFrame :=
  match data with
  | [] => raise "KeyError"
  | (c, k, df) :: data' =>
      if cadence_eqb c period && kind_eqb k kind then ret df
      else statement_of data' period kind
  end.

Section WithSource.

Context (src : Source) (rt : Runtime).

(** [str.upper] *)
Context (upper : string -> string).

(** The period comes from a dropdown that can be cleared, and the frames
    are [None] when the fetch failed. *)
Definition generate_tabs
    (data : option (list (cadence * statement_kind * DataFrame)))
    (period : option cadence) (kpi_df : option (list (string * string)))
  : result view :=
  let* kpi := match kpi_df with
              | Some rows => ret (generate_kpi_table rows)
              | None => raise "AttributeError"
              end in
  let* data := match data with Some d => ret d | None => raise "TypeError" end in
  let* period := match period with Some p => ret p | None => raise "KeyError" end in
  let* pl := statement_of data period ProfitAndLoss in
  let* bs := statement_of data period BalanceSheet in
  let* cf := statement_of data period CashFlow in
  ret (Tabs [ ("Financial KPIs", kpi);
              ("Profit & Loss", generate_financial_table pl);
              ("Balance Sheet", generate_financial_table bs);
              ("Cash Flow", generate_financial_table cf) ]).

Definition generate_stock_info (info : info_map) : result view :=
  let na := PStr "N/A" in
  let* market_cap :=
    if py_truthy (get info "marketCap")
    then let* s := py_fmt_comma rt (get_or info "marketCap" (PInt 0)) in
         ret (PStr ("$" ++ s))
    else ret na in
  ret (InfoTable
         [ ("Name", get_or info "longName" na);
           ("Symbol", get_or info "symbol" na);
           ("Sector", get_or info "sector" na);
           ("Industry", get_or info "industry" na);
           ("Market Cap", market_cap);
           ("52 Week High", get_or info "fiftyTwoWeekHigh" na);
           ("52 Week Low", get_or info "fiftyTwoWeekLow" na);
           ("Dividend Yield", get_or info "dividendYield" na);
           ("PE Ratio", get_or info "trailingPE" na);
           ("EPS", get_or info "trailingEps" na) ]).

(** [bool(d)] of a dict. *)
Definition dict_truthy (d : info_map) : bool :=
  negb (bool_decide (d = ∅)).

Definition update_output (n_clicks : option nat) (ticker : option string)
    (period : option cadence) : result view :=
  match ticker with
  | None | Some EmptyString =>
      ret (Message "Please enter a valid stock ticker." "text-danger text-center")
  | Some ticker =>
      let '(financials, stock_info, kpi_df) :=
        Research.fetch_financials src rt (upper ticker) in
      match (if dict_truthy stock_info then stock_info !! "error" else None) with
      | Some e =>
          ret (Message ("Error fetching data: " ++ py_str rt e)
                       "text-danger text-center")
      | None =>
          let* info := generate_stock_info stock_info in
          let* statements := generate_tabs financials period kpi_df in
          ret (Tabs [ ("Info", info); ("Financial Statements", statements) ])
      end
  end.

End WithSource.

End Dashboard.

(** ** The charts of proto.py (update_charts) *)

Module Charts.

Inductive trace : Type :=
| Scatter (x : list Z) (y : list fl) (color : string)
| Candlestick (x : list Z) (open high low close : list fl)
| Bar (x : list Z) (y : list Z) (marker_color : list string).

Record figure : Type := {
  fig_traces : list trace;
  fig_title : string
}.

(** [go.Figure()] *)
Definition empty_figure : figure := {| fig_traces := []; fig_title := "" |}.

(** [x >= y] on floats: false when one of them is NaN. *)
Definition fl_ge (x y : fl) : bool :=
  match x, y with
  | NaN, _ | _, NaN => false
  | Fin a, Fin b => Qle_bool b a
  | PInf, _ => true
  | _, NInf => true
  | _, _ => false
  end.

(** [not s] for an input that is a text or [None]. *)
Definition missing (s : option string) : bool :=
  match s with
  | None | Some EmptyString => true
  | _ => false
  end.

Section WithSource.

Context (src : Source).

Definition update_charts
    (selected_ticker selected_interval selected_duration chart_type : option string)
  : result (figure * figure) :=
  match selected_ticker, selected_interval, selected_duration, chart_type with
  | Some ticker, Some interval, Some duration, Some chart =>
      if missing selected_ticker || missing selected_interval
         || missing selected_duration || missing chart_type
      then ret (empty_figure, empty_figure)
      else
        let* history := yf_history src ticker interval duration in
        let index := map b_time history in
        let price :=
          if String.eqb chart "line"
          then [Scatter index (map b_close history) "#89CFF0"]
          else if String.eqb chart "candlestick"
          then [Candlestick index (map b_open history) (map b_high history)
                            (map b_low history) (map b_close history)]
          else [] in
        let colors :=
          map (fun b => if fl_ge (b_close b) (b_open b) then "green" else "red")
              history in
        let fig_main :=
          {| fig_traces := (price ++ [Bar index (map b_volume history) colors])%list;
             fig_title := ticker ++ " Trends (" ++ interval ++ " Interval, "
                            ++ duration ++ " Duration)" |} in
        let fig_indicator :=
          {| fig_traces :=
               [Scatter index (calculate_rsi (map b_close history) default_window)
                        "orange"];
             fig_title := "Indicator Trends (RSI)" |} in
        ret (fig_main, fig_indicator)
  | _, _, _, _ => ret (empty_figure, empty_figure)
  end.

End WithSource.

End Charts.

(** * Vocabulary of the specification

    The notions the statements below are phrased in, the closed forms the
    code is compared with, and the data of the closed examples. *)

Section Vocabulary.

Local Open Scope Q_scope.
Local Open Scope list_scope.

(** ** Texts of numbers *)

Definition is_digit (c : ascii) : Prop :=
  In c (list_ascii_of_string "0123456789").

Definition not_comma (c : ascii) : Prop := c <> comma.

#[local] Instance not_comma_dec (c : ascii) : Decision (not_comma c) :=
  decide (c <> comma).

(** The text with its commas dropped. *)
Definition strip_commas (s : string) : string :=
  string_of_list_ascii (filter not_comma (list_ascii_of_string s)).

(** What "comma-grouped" means for the text [s] of the number [n]: without
    its commas [s] is the decimal numeral of [n]; counted from the right,
    the commas are at the positions 3, 7, 11, ... and nowhere else; the
    text starts with a digit and holds no minus sign. *)
Definition comma_grouped (s : string) (n : N) : Prop :=
  strip_commas s = str_of_N n
  /\ (forall k c, reverse (list_ascii_of_string s) !! k = Some c ->
                  (c = comma <-> (k mod 4 = 3)%nat))
  /\ head (list_ascii_of_string s) <> Some comma
  /\ ~ In "-"%char (list_ascii_of_string s).

(** ** The KPI table *)




(** The value is absent: the key is missing or maps to [None]. *)
Definition absent (info : info_map) (k : string) : Prop := get info k = PNone.




Definition times_100 (v : pyval) : fl :=
  match v with
  | PInt z => b64 (inject_Z (z * 100))
  | PFloat x => fmul x (Fin 100)
  | _ => NaN
  end.


(** The double nearest to 0.155, which is below it, as gross margins. *)
Definition margin_below_half : info_map :=
  {[ "grossMargins" := PFloat (Fin (5584463537939415 # 36028797018963968)) ]}.


(** ** Statements *)

(** The cell computed from two finite cells: a whole number, zero when
    the previous value is zero. *)
Definition pct_value (cur prev : Q) : Z :=
  if Qeq_bool prev 0 then 0%Z
  else round_half_even ((cur - prev) / Qabs prev * 100).

(** The rendering the spec asks for: an explicit sign, the numeral of the
    magnitude and " %", with the colour of the value: white for zero,
    green for a positive and red for a negative value. *)
Definition pct_text (negative : bool) (n : N) : string :=
  (if negative then "-" else "+") ++ str_of_N n ++ " %".

Definition pct_color (negative : bool) (n : N) : string :=
  if (n =? 0)%N then "white" else if negative then "red" else "green".


(** An absent cell counts as zero. *)
Definition filled (o : option Q) : Q :=
  match o with Some q => q | None => 0 end.

(** The text [format_number] gives for a finite number. *)
Definition formatted (q : Q) : cell :=
  let t := trunc q in
  CStr (if (t <? 0)%Z then ("(" ++ fmt_comma (Z.to_N (Z.abs t)) ++ ")")%string
        else fmt_comma (Z.to_N t)).

Definition period_numbers (p : Z * list (option Q)) : series :=
  map (fun o => CNum (Fin (filled o))) p.2.

Definition period_column (p : Z * list (option Q)) : label * series :=
  (LPeriod p.1, map (fun o => formatted (filled o)) p.2).

(** The change column of the pair (current, previous), before and after
    the colour formatting. *)
Definition change_numbers (cp : (Z * list (option Q)) * (Z * list (option Q)))
  : label * series :=
  (LPct (LPeriod cp.1.1),
   zip_with (fun c p => pct_cell (Fin (filled c)) (Fin (filled p)))
            cp.1.2 cp.2.2).

Definition change_column (cp : (Z * list (option Q)) * (Z * list (option Q)))
  : label * series :=
  (LPct (LPeriod cp.1.1),
   zip_with (fun c p => pct_span (pct_cell (Fin (filled c)) (Fin (filled p))))
            cp.1.2 cp.2.2).

(** The pairs (l[i], l[i+1]). *)
Definition adjacent {A} (l : list A) : list (A * A) := zip l (tail l).

(** The frame before the final reversal of the rows: the index, the
    formatted period columns in their order, and one change column for
    each adjacent pair of the periods after the newest one. *)
Definition assembled (raw : RawStatement) : DataFrame :=
  (LName "index", map CStr (line_items raw))
    :: map period_column (periods raw)
    ++ map change_column (adjacent (tail (periods raw))).

(** The frame after [fillna] and [to_numeric]. *)
Definition numbers_column (p : Z * list (option Q)) : label * series :=
  (LPeriod p.1, period_numbers p).

Definition index_column (raw : RawStatement) : label * series :=
  (LName "index", map CStr (line_items raw)).

Definition format_cell (c : cell) : cell :=
  match format_number c with inr c' => c' | inl _ => c end.

(** A statement with two periods, 150 against 100 and 50 against 100. *)
Definition two_periods : RawStatement :=
  {| line_items := ["Total Revenue"; "Net Income"]%string;
     periods := [ (2023%Z, [Some (150 # 1); Some (50 # 1)]);
                  (2022%Z, [Some (100 # 1); Some (100 # 1)]) ] |}.

Definition three_periods : RawStatement :=
  {| line_items := ["Total Revenue"; "Net Income"]%string;
     periods := [ (2023%Z, [Some (150 # 1); Some (50 # 1)]);
                  (2022%Z, [Some (100 # 1); Some (100 # 1)]);
                  (2021%Z, [Some (80 # 1); None]) ] |}.

(** ** The indicator *)

(** The series of the code, for a series of finite closes. *)
Definition deltas (qs : list Q) : list Q :=
  zip_with (fun a b => a + - b) (tail qs) qs.

Definition gains (qs : list Q) : list Q :=
  match qs with
  | [] => []
  | _ => 0 :: map (fun d => if Qlt_bool 0 d then d else 0) (deltas qs)
  end.

Definition losses (qs : list Q) : list Q :=
  match qs with
  | [] => []
  | _ => - 0 :: map (fun d => if Qlt_bool d 0 then - d else - 0) (deltas qs)
  end.

Definition Qsum (l : list Q) : Q := foldr Qplus 0 l.

Definition window (w : nat) (xs : list Q) (i : nat) : list Q :=
  drop (i + 1 - w) (take (i + 1) xs).

Definition Qmean (l : list Q) : Q := Qsum l / inject_Z (Z.of_nat (length l)).

(** The oscillator from the two means. *)
Definition rsi_value (g l : Q) : fl :=
  sub (Fin 100) (div (Fin 100) (add (Fin 1) (div (Fin g) (Fin l)))).

(** No two consecutive closes differ among those the window at [i] uses. *)
Definition flat_window (qs : list Q) (w i : nat) : Prop :=
  forall j a b,
    (i + 1 - w <= S j <= i)%nat ->
    qs !! j = Some a -> qs !! S j = Some b -> a == b.

Definition strictly_increasing (qs : list Q) : Prop :=
  forall j a b, qs !! j = Some a -> qs !! S j = Some b -> a < b.

Definition strictly_decreasing (qs : list Q) : Prop :=
  forall j a b, qs !! j = Some a -> qs !! S j = Some b -> b < a.

(** Sixteen rising closes, 1 to 16. *)
Definition rising_closes : list Q :=
  map (fun n => inject_Z (Z.of_nat n)) (seq 1 16).

(** ** Collaborators of the closed examples *)

(** A runtime for the closed examples: the two float formats are those
    of Python on floats with whole values, the only ones the examples
    print; no text is taken for a number. *)
Definition sample_runtime : Runtime :=
  {| float_repr := fun x => (fmt_0f x ++ ".0")%string;
     float_comma := fun x =>
       match x with
       | Fin q =>
           ((if Qlt_bool q 0 then "-" else "")
              ++ fmt_comma (Z.to_N (Z.abs (trunc q))) ++ ".0")%string
       | _ => fmt_0f x
       end;
     float_of_str := fun _ => raise "ValueError";
     int_of_str := fun _ => raise "ValueError";
     strftime := fun _ _ => "09:30:00"%string |}.

Definition sample_bar (close : Z) : Bar :=
  {| b_time := 0; b_open := Fin (inject_Z close); b_high := Fin (inject_Z close);
     b_low := Fin (inject_Z close); b_close := Fin (inject_Z close);
     b_volume := 1000 |}.

(** Fifteen falling closes, 20 down to 6. *)
Definition falling_history : History :=
  map sample_bar [20; 19; 18; 17; 16; 15; 14; 13; 12; 11; 10; 9; 8; 7; 6]%Z.

Definition sample_info : info_map :=
  {[ "currentPrice" := PFloat (Fin (6 # 1)); "volume" := PInt 1234567 ]}.

(** A source that answers for every ticker but ["BAD"]. *)
Definition one_bad_source : Source :=
  {| yf_info := fun t => if String.eqb t "BAD" then raise "HTTPError"
                         else ret (Some sample_info);
     yf_history := fun _ _ _ => ret falling_history;
     yf_statement := fun _ _ _ => ret None |}.

End Vocabulary.

(** * Vocabulary, continued *)

Section MoreVocabulary.

Local Open Scope Q_scope.
Local Open Scope list_scope.

(** The statement with its absent cells replaced by zeros. *)
Definition fill_raw (raw : RawStatement) : RawStatement :=
  {| line_items := line_items raw;
     periods := map (fun p => (p.1, map (fun o => Some (filled o)) p.2))
                    (periods raw) |}.

(** Every period column has one cell per line item. *)
Definition rectangular (raw : RawStatement) : Prop :=
  Forall (fun p => length p.2 = length (line_items raw)) (periods raw).

(** Fifteen falling closes, 20 down to 6. *)
Definition falling_closes : list Q :=
  map (fun n => inject_Z (20 - Z.of_nat n)) (seq 0 15).

(** A value of the indicator is undefined or lies between 0 and 100. *)
Definition in_rsi_range (x : fl) : Prop :=
  x = NaN \/ exists q, x = Fin q /\ 0 <= q <= 100.

(** [",".join(l)] *)
Fixpoint join_comma (l : list string) : string :=
  match l with
  | [] => ""
  | [x] => x
  | x :: rest => (x ++ "," ++ join_comma rest)%string
  end.

Fixpoint count_commas (s : string) : nat :=
  match s with
  | EmptyString => 0
  | String c s' => ((if Ascii.eqb c "," then 1 else 0) + count_commas s')%nat
  end.

Fixpoint has_comma (s : string) : bool :=
  match s with
  | EmptyString => false
  | String c s' => Ascii.eqb c "," || has_comma s'
  end.

(** A run of white space: a concatenation of white-space characters. *)
Definition white (l : list ascii) : Prop :=
  exists ws, Forall (fun w => w ∈ Proto.spaces) ws /\ l = concat ws.

Definition starts_with_space (l : list ascii) : Prop :=
  exists w r, w ∈ Proto.spaces /\ l = w ++ r.

Definition ends_with_space (l : list ascii) : Prop :=
  exists w r, w ∈ Proto.spaces /\ l = r ++ w.

(** The tickers the callbacks work on. *)
Definition tickers_of (text : string) : list string :=
  map Proto.strip (Proto.split_comma text).

(** Every trace has one value per point of its x axis. *)
Definition trace_aligned (t : Charts.trace) : Prop :=
  match t with
  | Charts.Scatter x y _ => length y = length x
  | Charts.Candlestick x o h l c =>
      length o = length x /\ length h = length x
      /\ length l = length x /\ length c = length x
  | Charts.Bar x y colors => length y = length x /\ length colors = length x
  end.

(** A history of five bars, and a source that answers with it. *)
Definition short_history : History :=
  map sample_bar [20; 21; 19; 22; 23]%Z.

Definition short_source : Source :=
  {| yf_info := fun _ => ret (Some sample_info);
     yf_history := fun _ _ _ => ret short_history;
     yf_statement := fun _ _ _ => ret None |}.

(** The two figures of that history as a line chart. *)
Definition short_main_figure : Charts.figure :=
  {| Charts.fig_traces :=
       [ Charts.Scatter [0; 0; 0; 0; 0]%Z
           (map Fin [20 # 1; 21 # 1; 19 # 1; 22 # 1; 23 # 1]) "#89CFF0";
         Charts.Bar [0; 0; 0; 0; 0]%Z [1000; 1000; 1000; 1000; 1000]%Z
           ["green"; "green"; "green"; "green"; "green"]%string ];
     Charts.fig_title := "AAA Trends (1d Interval, 1mo Duration)" |}.

Definition short_indicator_figure : Charts.figure :=
  {| Charts.fig_traces :=
       [ Charts.Scatter [0; 0; 0; 0; 0]%Z [NaN; NaN; NaN; NaN; NaN] "orange" ];
     Charts.fig_title := "Indicator Trends (RSI)" |}.

(** A value that the [,] format refuses: [None] or a text. *)
Definition not_a_number (v : pyval) : Prop :=
  match v with
  | PNone | PStr _ => True
  | _ => False
  end.

(** A source whose attribute map has a price and a previous close but no
    volume. *)
Definition no_volume_source : Source :=
  {| yf_info := fun _ =>
       ret (Some ({[ "currentPrice" := PFloat (Fin (6 # 1));
                     "previousClose" := PFloat (Fin (8 # 1)) ]} : info_map));
     yf_history := fun _ _ _ => ret short_history;
     yf_statement := fun _ _ _ => ret None |}.

(** A source that reports a current price of 0. *)
Definition zero_price_info : info_map :=
  {[ "currentPrice" := PFloat (Fin 0);
     "previousClose" := PFloat (Fin (8 # 1)) ]}.

Definition zero_price_source : Source :=
  {| yf_info := fun _ => ret (Some zero_price_info);
     yf_history := fun _ _ _ => ret short_history;
     yf_statement := fun _ _ _ => ret None |}.

(** A stand-in for [str.upper] and for [str] of a list. *)
Definition sample_upper (s : string) : string := s.
Definition sample_list_str (v : rowval) : string := "[...]".

(** A source with complete attribute maps for every ticker but ["BAD"]. *)
Definition complete_info : info_map :=
  {[ "currentPrice" := PFloat (Fin (6 # 1));
     "previousClose" := PFloat (Fin (8 # 1));
     "volume" := PInt 1234567;
     "marketCap" := PInt 2500000 ]}.

Definition complete_source : Source :=
  {| yf_info := fun t => if String.eqb t "BAD" then raise "HTTPError"
                         else ret (Some complete_info);
     yf_history := fun _ _ _ => ret short_history;
     yf_statement := fun _ c _ =>
       match c with
       | Annual => ret None
       | Quarterly => ret (Some three_periods)
       end |}.

Definition cards_or_nil (r : result (list Cards.element)) : list Cards.element :=
  match r with inr cards => cards | inl _ => [] end.

(** The keys whose value is formatted with [* 100] or with [.0f]. *)
Definition float_formatted_keys : list string :=
  [ "returnOnEquity"; "grossMargins"; "operatingMargins"; "profitMargins";
    "ebitdaMargins"; "payoutRatio"; "beta" ]%string.

Definition kind_label (k : statement_kind) : string :=
  match k with
  | ProfitAndLoss => "Profit & Loss"
  | BalanceSheet => "Balance Sheet"
  | CashFlow => "Cash Flow"
  end.

(** The tab with a given label. *)
Fixpoint tab_of (tabs : list (string * Dashboard.view)) (label : string)
  : option Dashboard.view :=
  match tabs with
  | [] => None
  | (l, v) :: tabs' => if String.eqb l label then Some v else tab_of tabs' label
  end.

(** The tab of a statement on the page. *)
Definition statement_tab (page : Dashboard.view) (k : statement_kind)
  : option Dashboard.view :=
  match page with
  | Dashboard.Tabs tabs =>
      match tab_of tabs "Financial Statements" with
      | Some (Dashboard.Tabs inner) => tab_of inner (kind_label k)
      | _ => None
      end
  | _ => None
  end.

Definition is_message (page : Dashboard.view) : Prop :=
  match page with Dashboard.Message _ _ => True | _ => False end.

(** An attribute map with a text where a ratio is expected. *)
Definition text_ratio_info : info_map :=
  {[ "grossMargins" := PStr "n/a"; "marketCap" := PInt 2500000 ]}.

Definition text_ratio_source : Source :=
  {| yf_info := fun _ => ret (Some text_ratio_info);
     yf_history := fun _ _ _ => ret short_history;
     yf_statement := fun _ _ _ => ret (Some three_periods) |}.

(** The page a callback returned, or a message with the exception. *)
Definition page_of (r : result Dashboard.view) : Dashboard.view :=
  match r with inr v => v | inl e => Dashboard.Message e "" end.

End MoreVocabulary.

(** * Verification *)

(** ** Facts about the rendering of integers *)

Section TextFacts.

Lemma is_digit_not_comma c : is_digit c -> not_comma c.
Proof.
  unfold is_digit, not_comma, comma. simpl.
  intros H ->. repeat (destruct H as [H | H]; [discriminate H |]). exact H.
Qed.

Lemma is_digit_not_minus c : is_digit c -> c <> "-"%char.
Proof.
  unfold is_digit. simpl.
  intros H ->. repeat (destruct H as [H | H]; [discriminate H |]). exact H.
Qed.

Lemma string_of_uint_digits (d : Decimal.uint) :
  Forall is_digit (list_ascii_of_string (NilEmpty.string_of_uint d)).
Proof.
  induction d; simpl; constructor; auto; unfold is_digit; simpl; tauto.
Qed.

Lemma str_of_N_digits (n : N) :
  Forall is_digit (list_ascii_of_string (str_of_N n)).
Proof.
  unfold str_of_N, NilZero.string_of_uint.
  destruct (N.to_uint n) as [|u|u|u|u|u|u|u|u|u|u];
    try apply string_of_uint_digits.
  simpl. constructor; [unfold is_digit; simpl; tauto | constructor].
Qed.

Lemma filter_all {A} (P : A -> Prop) `{forall x, Decision (P x)} (l : list A) :
  Forall P l -> filter P l = l.
Proof.
  induction 1 as [|x l Hx _ IH]; [reflexivity |].
  rewrite filter_cons_True by exact Hx. by rewrite IH.
Qed.

(** Induction in steps of three digits, the recursion of [commas_rev]. *)
Lemma commas_rev_ind (P : list ascii -> Prop) :
  P [] -> (forall a, P [a]) -> (forall a b, P [a; b]) ->
  (forall a b c, P [a; b; c]) ->
  (forall a b c d rest, P (d :: rest) -> P (a :: b :: c :: d :: rest)) ->
  forall l, P l.
Proof.
  intros H0 H1 H2 H3 H4 l.
  remember (length l) as n eqn:Hn. revert l Hn.
  induction n as [n IH] using lt_wf_ind. intros l Hn.
  destruct l as [|a [|b [|c [|d rest]]]]; auto.
  apply H4. apply (IH (length (d :: rest))); [subst n; simpl; lia | reflexivity].
Qed.

Lemma commas_rev_step a b c d rest :
  commas_rev (a :: b :: c :: d :: rest)
  = a :: b :: c :: comma :: commas_rev (d :: rest).
Proof. reflexivity. Qed.

(** Dropping the commas gives the digits back. *)
Lemma commas_rev_strip ds :
  Forall not_comma ds -> filter not_comma (commas_rev ds) = ds.
Proof.
  induction ds as [| a | a b | a b c | a b c d rest IH] using commas_rev_ind;
    intros HF.
  1-4: simpl commas_rev; apply filter_all; exact HF.
  - rewrite commas_rev_step.
    inversion_clear HF as [|? ? Ha HF1]. inversion_clear HF1 as [|? ? Hb HF2].
    inversion_clear HF2 as [|? ? Hc HF3].
    rewrite 3!filter_cons_True by assumption.
    rewrite filter_cons_False by (intros Hn; apply Hn; reflexivity).
    by rewrite IH.
Qed.

(** Counting from the right, the commas sit exactly at the positions
    3, 7, 11, ... *)
Lemma commas_rev_lookup ds :
  Forall not_comma ds ->
  forall k c, commas_rev ds !! k = Some c -> (c = comma <-> k mod 4 = 3).
Proof.
  induction ds as [| a | a b | a b c | a b c d rest IH] using commas_rev_ind;
    intros HF k x Hk.
  - discriminate.
  - destruct k as [|k]; [|discriminate]. simpl in Hk. inversion Hk; subst.
    inversion_clear HF. split; [contradiction | discriminate].
  - inversion_clear HF as [|? ? Ha HF1]. inversion_clear HF1 as [|? ? Hb _].
    destruct k as [|[|k]]; simpl in Hk; inversion Hk; subst;
      (split; [contradiction | discriminate]).
  - inversion_clear HF as [|? ? Ha HF1]. inversion_clear HF1 as [|? ? Hb HF2].
    inversion_clear HF2 as [|? ? Hc _].
    destruct k as [|[|[|k]]]; simpl in Hk; inversion Hk; subst;
      (split; [contradiction | discriminate]).
  - inversion_clear HF as [|? ? Ha HF1]. inversion_clear HF1 as [|? ? Hb HF2].
    inversion_clear HF2 as [|? ? Hc HF3].
    rewrite commas_rev_step in Hk.
    destruct k as [|[|[|[|k]]]]; simpl in Hk.
    1-3: inversion Hk; subst; (split; [contradiction | discriminate]).
    + inversion Hk; subst. split; reflexivity.
    + specialize (IH HF3 k x Hk). rewrite IH.
      replace (S (S (S (S k)))) with (k + 1 * 4) by lia.
      rewrite Nat.Div0.mod_add. reflexivity.
Qed.

(** The most significant position holds a digit. *)
Lemma commas_rev_last ds :
  Forall not_comma ds -> last (commas_rev ds) <> Some comma.
Proof.
  induction ds as [| a | a b | a b c | a b c d rest IH] using commas_rev_ind;
    intros HF.
  - discriminate.
  - inversion_clear HF. simpl. unfold not_comma in *. congruence.
  - inversion_clear HF as [|? ? Ha HF1]. inversion_clear HF1 as [|? ? Hb _].
    simpl. unfold not_comma in *. congruence.
  - inversion_clear HF as [|? ? Ha HF1]. inversion_clear HF1 as [|? ? Hb HF2].
    inversion_clear HF2 as [|? ? Hc _].
    simpl. unfold not_comma in *. congruence.
  - inversion_clear HF as [|? ? Ha HF1]. inversion_clear HF1 as [|? ? Hb HF2].
    inversion_clear HF2 as [|? ? Hc HF3].
    rewrite commas_rev_step.
    specialize (IH HF3).
    destruct (commas_rev (d :: rest)) as [|y ys] eqn:E.
    + simpl in E. destruct rest as [|? [|? [|? ?]]]; discriminate E.
    + exact IH.
Qed.

Lemma commas_rev_digits ds c :
  Forall is_digit ds -> In c (commas_rev ds) -> is_digit c \/ c = comma.
Proof.
  induction ds as [| a | a b | a b c' | a b c' d rest IH] using commas_rev_ind;
    intros HF Hin.
  1-4: left; simpl in Hin; rewrite Forall_forall in HF; apply HF;
       apply list_elem_of_In; exact Hin.
  - rewrite commas_rev_step in Hin.
    inversion_clear HF as [|? ? Ha HF1]. inversion_clear HF1 as [|? ? Hb HF2].
    inversion_clear HF2 as [|? ? Hc HF3].
    destruct Hin as [<- | [<- | [<- | [<- | Hin]]]]; auto.
Qed.

End TextFacts.

(** ** Facts about truncation and rounding *)

Section NumberFacts.

Local Open Scope Q_scope.

Lemma Qlt_bool_iff a b : Qlt_bool a b = true <-> a < b.
Proof.
  unfold Qlt_bool. rewrite negb_true_iff, <- not_true_iff_false, Qle_bool_iff.
  split; [apply Qnot_le_lt | apply Qlt_not_le].
Qed.

Lemma Qlt_bool_false a b : Qlt_bool a b = false <-> b <= a.
Proof.
  unfold Qlt_bool. rewrite negb_false_iff. apply Qle_bool_iff.
Qed.

(** [int(x)] drops the fractional part: the result is the integer of the
    same sign whose magnitude is the largest one not above [|x|]. *)
Lemma trunc_spec (q : Q) :
  inject_Z (Z.abs (trunc q)) <= Qabs q
  /\ Qabs q < inject_Z (Z.abs (trunc q)) + 1
  /\ (0 <= q -> (0 <= trunc q)%Z)
  /\ (q <= 0 -> (trunc q <= 0)%Z).
Proof.
  destruct q as [n d]. unfold trunc, Qabs, Qle, Qlt. simpl.
  rewrite !Z.mul_1_r.
  assert (Hd : (0 < Z.pos d)%Z) by lia.
  rewrite <- Z.quot_abs by lia.
  replace (Z.abs (Z.pos d)) with (Z.pos d) by lia.
  rewrite Z.quot_div_nonneg by lia.
  pose proof (Z.mul_div_le (Z.abs n) (Z.pos d) Hd) as H1.
  pose proof (Z.mul_succ_div_gt (Z.abs n) (Z.pos d) Hd) as H2.
  repeat split.
  - lia.
  - lia.
  - intros Hn. apply Z.quot_pos; lia.
  - intros Hn. assert (0 <= - n ÷ Z.pos d)%Z by (apply Z.quot_pos; lia).
    rewrite Z.quot_opp_l in H by lia. lia.
Qed.

Lemma trunc_inject_Z (z : Z) : trunc (inject_Z z) = z.
Proof. unfold trunc. simpl. apply Z.quot_1_r. Qed.

(** Rounding goes to a nearest integer. *)
Lemma round_half_even_nearest (q : Q) :
  Qabs (q - inject_Z (round_half_even q)) <= 1 # 2.
Proof.
  unfold round_half_even.
  pose proof (Qfloor_le q) as Hlo. pose proof (Qlt_floor q) as Hhi.
  rewrite inject_Z_plus in Hhi. change (inject_Z 1) with 1 in Hhi.
  apply Qabs_Qle_condition.
  destruct (Qlt_bool (q - inject_Z (Qfloor q)) (1 # 2)) eqn:E1.
  - apply Qlt_bool_iff in E1. split; lra.
  - apply Qlt_bool_false in E1.
    destruct (Qlt_bool (1 # 2) (q - inject_Z (Qfloor q))) eqn:E2.
    + rewrite inject_Z_plus. change (inject_Z 1) with 1. split; lra.
    + apply Qlt_bool_false in E2.
      destruct (Z.even (Qfloor q)).
      * split; lra.
      * rewrite inject_Z_plus. change (inject_Z 1) with 1. split; lra.
Qed.

Lemma round_half_even_inject_Z (z : Z) : round_half_even (inject_Z z) = z.
Proof.
  unfold round_half_even. rewrite Qfloor_Z.
  assert (E : Qlt_bool (inject_Z z - inject_Z z) (1 # 2) = true).
  { apply Qlt_bool_iff. lra. }
  by rewrite E.
Qed.

Lemma round_half_even_nonneg (q : Q) : 0 <= q -> (0 <= round_half_even q)%Z.
Proof.
  intros Hq. pose proof (round_half_even_nearest q) as H.
  apply Qabs_Qle_condition in H as [_ H].
  assert (Hlt : inject_Z (-1) < inject_Z (round_half_even q)).
  { change (inject_Z (-1)) with (-1). lra. }
  rewrite <- Zlt_Qlt in Hlt. lia.
Qed.

Lemma round_half_even_nonpos (q : Q) : q <= 0 -> (round_half_even q <= 0)%Z.
Proof.
  intros Hq. pose proof (round_half_even_nearest q) as H.
  apply Qabs_Qle_condition in H as [H _].
  assert (Hlt : inject_Z (round_half_even q) < inject_Z 1).
  { change (inject_Z 1) with 1. lra. }
  rewrite <- Zlt_Qlt in Hlt. lia.
Qed.

(** The rounding to a double at some known doubles: 1/2 is a double; 1/10
    is not, its double is 3602879701896397 / 2^55; a product is rounded
    (0.1 * 3 gives 0.30000000000000004); half of the least positive double
    is a tie and goes to zero; the least integer that overflows is
    2^1024 - 2^970, below it the result is the largest double. *)
Lemma b64_examples :
  b64 (1 # 2) = Fin (1 # 2)
  /\ b64 (1 # 10) = Fin (3602879701896397 # 36028797018963968)
  /\ fmul (Fin (3602879701896397 # 36028797018963968)) (Fin 3)
     = Fin (1351079888211149 # 4503599627370496)
  /\ b64 (pow2 (- 1075)) = Fin 0
  /\ b64 (inject_Z int_overflow) = PInf
  /\ b64 (inject_Z (- int_overflow)) = NInf
  /\ b64 (inject_Z (int_overflow - 1)) = Fin (inject_Z (2 ^ 1024 - 2 ^ 971)).
Proof. repeat split; vm_compute; reflexivity. Qed.

End NumberFacts.

(** ** Number formatting *)

Section FormatNumber.

Local Open Scope Q_scope.

Lemma fmt_comma_chars (n : N) :
  reverse (list_ascii_of_string (fmt_comma n))
  = commas_rev (reverse (list_ascii_of_string (str_of_N n))).
Proof.
  unfold fmt_comma, comma_group.
  by rewrite list_ascii_of_string_of_list_ascii, reverse_involutive.
Qed.

Lemma str_of_N_no_comma (n : N) :
  Forall not_comma (reverse (list_ascii_of_string (str_of_N n))).
Proof.
  apply Forall_reverse. eapply Forall_impl; [apply str_of_N_digits |].
  apply is_digit_not_comma.
Qed.

Lemma fmt_comma_grouped (n : N) : comma_grouped (fmt_comma n) n.
Proof.
  pose proof (fmt_comma_chars n) as Hc.
  pose proof (str_of_N_no_comma n) as Hd.
  repeat split.
  - unfold strip_commas.
    rewrite <- (reverse_involutive (list_ascii_of_string (fmt_comma n))), Hc.
    rewrite filter_reverse, commas_rev_strip by exact Hd.
    by rewrite reverse_involutive, string_of_list_ascii_of_string.
  - rewrite Hc in H. by apply (commas_rev_lookup _ Hd k c H).
  - rewrite Hc in H. by apply (commas_rev_lookup _ Hd k c H).
  - rewrite <- last_reverse, Hc. by apply commas_rev_last.
  - intros Hin. apply list_elem_of_In, elem_of_reverse in Hin.
    rewrite Hc in Hin. apply list_elem_of_In in Hin.
    apply commas_rev_digits in Hin.
    + destruct Hin as [Hdig | Hcomma]; [| discriminate Hcomma].
      by apply is_digit_not_minus in Hdig.
    + apply Forall_reverse, str_of_N_digits.
Qed.

(** C6. [format_number] first truncates the value toward zero (the
    fractional part is dropped, not rounded); a truncated value that is not
    negative is rendered as its comma-grouped numeral, a negative one as
    the comma-grouped numeral of its magnitude between parentheses, without
    a minus sign; -1234 gives "(1,234)", 1234 gives "1,234", 0 gives "0"
    (and so does -0.5, which truncates to 0). *)
Theorem format_number_truncates_groups_parenthesises :
  (forall q : Q,
     let t := trunc q in
     (inject_Z (Z.abs t) <= Qabs q /\ Qabs q < inject_Z (Z.abs t) + 1)
     /\ (0 <= q -> (0 <= t)%Z) /\ (q <= 0 -> (t <= 0)%Z)
     /\ exists s : string,
          comma_grouped s (Z.to_N (Z.abs t))
          /\ format_number (CNum (Fin q))
             = ret (CStr (if (t <? 0)%Z then "(" ++ s ++ ")" else s)))
  /\ format_number (CNum (Fin (- 1234 # 1))) = ret (CStr "(1,234)")
  /\ format_number (CNum (Fin (1234 # 1))) = ret (CStr "1,234")
  /\ format_number (CNum (Fin 0)) = ret (CStr "0")
  /\ format_number (CNum (Fin (- 12349 # 10))) = ret (CStr "(1,234)")
  /\ format_number (CNum (Fin (12349 # 10))) = ret (CStr "1,234")
  /\ format_number (CNum (Fin (- 1 # 2))) = ret (CStr "0").
Proof.
  split; [| repeat split; reflexivity].
  intros q t. pose proof (trunc_spec q) as (H1 & H2 & H3 & H4).
  repeat split; auto.
  exists (fmt_comma (Z.to_N (Z.abs t))). split; [apply fmt_comma_grouped |].
  unfold format_number. fold t.
  destruct (t <? 0)%Z eqn:E; [reflexivity |].
  apply Z.ltb_ge in E. by rewrite Z.abs_eq.
Qed.

End FormatNumber.

(** ** The KPI table *)

Section KPIFacts.

Import KPI.

Local Open Scope Q_scope.

Lemma get_or_get (info : info_map) k d :
  is_none (get info k) = false -> get_or info k d = get info k.
Proof.
  unfold get, get_or. destruct (info !! k) as [v|]; [reflexivity | discriminate].
Qed.

Context (rt : Runtime).












(** The list under ["Value"] holds the ten cells in the order of the
    metrics, whenever it is built. *)
Lemma Value_cells info vs :
  Value rt info = ret vs ->
  exists v0 v1 v2 v3 v4 v5 v6 v7 v8 v9,
    vs = [v0; v1; v2; v3; v4; v5; v6; v7; v8; v9]
    /\ percent_value info "returnOnEquity" = ret v0
    /\ int_value rt info "debtToEquity" = ret v1
    /\ int_value rt info "currentRatio" = ret v2
    /\ percent_value info "grossMargins" = ret v3
    /\ percent_value info "operatingMargins" = ret v4
    /\ percent_value info "profitMargins" = ret v5
    /\ percent_value info "ebitdaMargins" = ret v6
    /\ int_value rt info "quickRatio" = ret v7
    /\ percent_value info "payoutRatio" = ret v8
    /\ rounded_value info "beta" = ret v9.
Proof.
  unfold Value. intros H.
  destruct (percent_value info "returnOnEquity") as [|v0]; [discriminate H|].
  destruct (int_value rt info "debtToEquity") as [|v1]; [discriminate H|].
  destruct (int_value rt info "currentRatio") as [|v2]; [discriminate H|].
  destruct (percent_value info "grossMargins") as [|v3]; [discriminate H|].
  destruct (percent_value info "operatingMargins") as [|v4]; [discriminate H|].
  destruct (percent_value info "profitMargins") as [|v5]; [discriminate H|].
  destruct (percent_value info "ebitdaMargins") as [|v6]; [discriminate H|].
  destruct (int_value rt info "quickRatio") as [|v7]; [discriminate H|].
  destruct (percent_value info "payoutRatio") as [|v8]; [discriminate H|].
  destruct (rounded_value info "beta") as [|v9]; [discriminate H|].
  simpl in H. inversion H; subst.
  by exists v0, v1, v2, v3, v4, v5, v6, v7, v8, v9.
Qed.


End KPIFacts.

Section KPITheorems.

Import KPI.

Local Open Scope Q_scope.





(** The product is a float product: the double nearest to 0.155 is below
    0.155, its exact hundredfold is below 15.5, but the product is rounded
    to the double 15.5, which is shown as "16". *)
Lemma kpi_ratio_product_is_rounded :
  KPI.percent_value margin_below_half "grossMargins" = ret "16 %"
  /\ times_100 (get margin_below_half "grossMargins") = Fin (31 # 2)
  /\ fmt_0f (mul (Fin (5584463537939415 # 36028797018963968)) (Fin 100)) = "15".
Proof. repeat split; vm_compute; reflexivity. Qed.



End KPITheorems.

(** ** Percentage changes and their rendering *)

Section PercentFacts.

Local Open Scope Q_scope.

Lemma Qlt_bool_inject_Z (a b : Z) :
  Qlt_bool (inject_Z a) (inject_Z b) = (a <? b)%Z.
Proof.
  unfold Qlt_bool, Qle_bool. simpl. rewrite !Z.mul_1_r. symmetry.
  apply Z.ltb_antisym.
Qed.

Lemma Qabs_zero_iff (q : Q) : Qeq_bool (Qabs q) 0 = Qeq_bool q 0.
Proof.
  destruct q as [n d]. unfold Qeq_bool, Qabs. simpl. rewrite !Z.mul_1_r.
  destruct n; reflexivity.
Qed.

Lemma pct_change_finite (cur prev : Q) :
  pct_change (Fin cur) (Fin prev) = Fin (inject_Z (pct_value cur prev)).
Proof.
  unfold pct_change, pct_value, replace0inf, abs, is_zero, sub, neg, add.
  rewrite Qabs_zero_iff.
  destruct (Qeq_bool prev 0) eqn:E.
  - reflexivity.
  - unfold div. rewrite Qabs_zero_iff, E. reflexivity.
Qed.

Lemma fmt_plus_0f_inject_Z (z : Z) :
  fmt_plus_0f (Fin (inject_Z z))
  = (if (z <? 0)%Z then "-" else "+") ++ str_of_N (Z.to_N (Z.abs z)).
Proof.
  unfold fmt_plus_0f.
  change 0 with (inject_Z 0). rewrite Qlt_bool_inject_Z.
  change (Qabs (inject_Z z)) with (inject_Z (Z.abs z)).
  by rewrite round_half_even_inject_Z.
Qed.

(** The sign of the cell follows that of current - previous. *)
Lemma pct_value_sign (cur prev : Q) :
  (prev <= cur -> (0 <= pct_value cur prev)%Z)
  /\ (cur <= prev -> (pct_value cur prev <= 0)%Z).
Proof.
  unfold pct_value.
  destruct (Qeq_bool prev 0) eqn:E; [split; lia |].
  assert (Hprev : ~ prev == 0) by (intros H; by rewrite (Qeq_eq_bool _ _ H) in E).
  assert (Habs : 0 < Qabs prev).
  { pose proof (Qabs_nonneg prev) as H.
    apply Qle_lteq in H as [H | H]; [exact H |].
    exfalso. apply Hprev. symmetry in H.
    assert (Hz : Qabs prev <= 0) by lra.
    apply Qabs_Qle_condition in Hz. lra. }
  split; intros H.
  - apply round_half_even_nonneg.
    apply Qmult_le_0_compat; [| lra].
    apply Qle_shift_div_l; [exact Habs | lra].
  - apply round_half_even_nonpos.
    assert (Hq : (cur - prev) / Qabs prev <= 0).
    { apply Qle_shift_div_r; [exact Habs | lra]. }
    assert (E' : (cur - prev) / Qabs prev * 100
                 == - ((- ((cur - prev) / Qabs prev)) * 100)) by ring.
    rewrite E'.
    assert (0 <= - ((cur - prev) / Qabs prev) * 100)
      by (apply Qmult_le_0_compat; lra).
    lra.
Qed.

Lemma Qeq_bool_inject_Z (z : Z) : Qeq_bool (inject_Z z) 0 = (z =? 0)%Z.
Proof. unfold Qeq_bool. simpl. by rewrite Z.mul_1_r. Qed.

Lemma Qlt_bool_minus (a b : Q) : Qlt_bool (a + - b) 0 = Qlt_bool a b.
Proof.
  destruct (Qlt_bool a b) eqn:E.
  - apply Qlt_bool_iff in E. apply Qlt_bool_iff. lra.
  - apply Qlt_bool_false in E. apply Qlt_bool_false. lra.
Qed.

(** The zero of a cell is the negative one exactly when the cell is zero
    and current is below previous. *)
Lemma pct_negative_zero_finite (cur prev : Q) :
  pct_negative_zero (Fin cur) (Fin prev)
  = (pct_value cur prev =? 0)%Z && Qlt_bool cur prev.
Proof.
  unfold pct_negative_zero, pct_value, replace0inf, abs, is_zero, sub, neg, add.
  rewrite Qabs_zero_iff.
  destruct (Qeq_bool prev 0) eqn:E.
  - cbn [div mul is_nan negb andb round0 lt0].
    by rewrite Qlt_bool_minus.
  - unfold div. rewrite Qabs_zero_iff, E.
    cbn [mul is_nan negb andb round0 lt0].
    by rewrite Qeq_bool_inject_Z, Qlt_bool_minus.
Qed.

(** The rendering of a cell computed from two finite cells: the sign is
    "-" exactly when current is below previous, also when the cell is zero,
    and the colour is that of the value. *)
Lemma pct_span_pct_cell (cur prev : Q) :
  pct_span (pct_cell (Fin cur) (Fin prev))
  = CSpan (pct_text (Qlt_bool cur prev) (Z.to_N (Z.abs (pct_value cur prev))))
          (pct_color (Qlt_bool cur prev) (Z.to_N (Z.abs (pct_value cur prev)))).
Proof.
  unfold pct_cell. rewrite pct_negative_zero_finite, pct_change_finite.
  destruct (pct_value_sign cur prev) as [Hpos Hneg].
  set (z := pct_value cur prev) in *.
  destruct (Z.eqb_spec z 0) as [-> | Hz].
  - cbn [andb]. destruct (Qlt_bool cur prev); reflexivity.
  - cbn [andb]. unfold pct_span. cbn [is_nan].
    rewrite fmt_plus_0f_inject_Z. unfold gt0, lt0.
    change 0 with (inject_Z 0). rewrite !Qlt_bool_inject_Z.
    unfold pct_text, pct_color.
    assert (Hn : (Z.to_N (Z.abs z) =? 0)%N = false) by (apply N.eqb_neq; lia).
    rewrite Hn.
    destruct (Qlt_bool cur prev) eqn:E.
    + apply Qlt_bool_iff in E.
      assert (z < 0)%Z by (assert (z <= 0)%Z by (apply Hneg; lra); lia).
      assert (E1 : (z <? 0)%Z = true) by (apply Z.ltb_lt; lia).
      assert (E2 : (0 <? z)%Z = false) by (apply Z.ltb_ge; lia).
      by rewrite E1, E2.
    + apply Qlt_bool_false in E.
      assert (0 < z)%Z by (assert (0 <= z)%Z by (apply Hpos; lra); lia).
      assert (E1 : (z <? 0)%Z = false) by (apply Z.ltb_ge; lia).
      assert (E2 : (0 <? z)%Z = true) by (apply Z.ltb_lt; lia).
      by rewrite E1, E2.
Qed.

Lemma pct_value_zero_previous (cur prev : Q) :
  prev == 0 -> pct_value cur prev = 0%Z.
Proof. intros H. unfold pct_value. by rewrite (Qeq_eq_bool _ _ H). Qed.

(** 150 against 100 is +50, 50 against 100 is -50, and a previous value of
    zero gives a zero, the negative one for a negative current value. *)
Lemma pct_change_examples :
  pct_span (pct_cell (Fin (150 # 1)) (Fin (100 # 1))) = CSpan "+50 %" "green"
  /\ pct_span (pct_cell (Fin (50 # 1)) (Fin (100 # 1))) = CSpan "-50 %" "red"
  /\ pct_span (pct_cell (Fin (150 # 1)) (Fin 0)) = CSpan "+0 %" "white"
  /\ pct_span (pct_cell (Fin (- 5 # 1)) (Fin 0)) = CSpan "-0 %" "white"
  /\ pct_span (pct_cell (Fin (1023 # 10)) (Fin (1024 # 10))) = CSpan "-0 %" "white".
Proof. repeat split; reflexivity. Qed.

End PercentFacts.

(** ** The statement normaliser in closed form *)

Section NormalizeFacts.

Local Open Scope Q_scope.
Local Open Scope list_scope.

Lemma df_get_app (df extra : DataFrame) l s :
  df_get df l = Some s -> df_get (df ++ extra) l = Some s.
Proof.
  induction df as [|[l' s'] df IH]; [discriminate |].
  simpl. destruct (decide (l = l')); auto.
Qed.

Lemma df_get_skip (pre : DataFrame) l s post :
  l ∉ columns pre -> df_get (pre ++ (l, s) :: post) l = Some s.
Proof.
  induction pre as [|[l' s'] pre IH]; intros Hn; simpl.
  - by rewrite decide_True.
  - unfold columns in Hn. simpl in Hn. apply not_elem_of_cons in Hn as [Hne Hn].
    rewrite decide_False by exact Hne. by apply IH.
Qed.

Lemma df_set_skip (pre : DataFrame) l s s' post :
  l ∉ columns pre ->
  df_set (pre ++ (l, s) :: post) l s' = pre ++ (l, s') :: post.
Proof.
  induction pre as [|[l0 s0] pre IH]; intros Hn; simpl.
  - by rewrite decide_True.
  - unfold columns in Hn. simpl in Hn. apply not_elem_of_cons in Hn as [Hne Hn].
    rewrite decide_False by exact Hne. f_equal. by apply IH.
Qed.

Lemma df_set_fresh (df : DataFrame) l s :
  l ∉ columns df -> df_set df l s = df ++ [(l, s)].
Proof.
  induction df as [|[l0 s0] df IH]; intros Hn; simpl; [reflexivity |].
  unfold columns in Hn. simpl in Hn. apply not_elem_of_cons in Hn as [Hne Hn].
  rewrite decide_False by exact Hne. f_equal. by apply IH.
Qed.

(** Updating, one after the other, a block of columns with distinct labels
    that do not occur to its left. *)
Lemma foldM_df_update (f : series -> result series) (g : series -> series)
    (cols : DataFrame) :
  forall pre post : DataFrame,
    NoDup (columns cols) ->
    (forall l, l ∈ columns cols -> l ∉ columns pre) ->
    (forall c, c ∈ cols -> f c.2 = ret (g c.2)) ->
    foldM (df_update f) (columns cols) (pre ++ cols ++ post)
    = ret (pre ++ map (fun c => (c.1, g c.2)) cols ++ post).
Proof.
  induction cols as [|[l s] cols IH]; intros pre post Hnd Hpre Hf;
    [reflexivity |].
  unfold columns in *. simpl in *.
  apply NoDup_cons in Hnd as [Hl Hnd].
  unfold df_update at 1.
  rewrite df_get_skip by (apply Hpre; left).
  assert (Hfs : f s = ret (g s)) by (apply (Hf (l, s)); left).
  rewrite Hfs. simpl.
  rewrite df_set_skip by (apply Hpre; left).
  replace (pre ++ (l, g s) :: cols ++ post)
    with ((pre ++ [(l, g s)]) ++ cols ++ post) by (by rewrite <- app_assoc).
  rewrite IH; auto.
  - by rewrite <- app_assoc.
  - intros l' Hl'. rewrite map_app. simpl. intros Hin.
    apply elem_of_app in Hin as [Hin | Hin].
    + by apply (Hpre l'); [right |].
    + apply list_elem_of_singleton in Hin. subst. contradiction.
  - intros c Hc. apply Hf. by right.
Qed.

Lemma fillna0_reset_index (raw : RawStatement) :
  df_fillna0 (reset_index raw)
  = index_column raw :: map numbers_column (periods raw).
Proof.
  unfold df_fillna0, reset_index, index_column. simpl. f_equal.
  - f_equal. rewrite map_map. reflexivity.
  - rewrite map_map. apply map_ext. intros [t vs]. unfold numbers_column.
    simpl. f_equal. unfold period_numbers. rewrite map_map. apply map_ext.
    by intros [q|].
Qed.

Lemma columns_numbers (ps : list (Z * list (option Q))) :
  columns (map numbers_column ps) = map (fun p => LPeriod p.1) ps.
Proof. unfold columns. rewrite map_map. reflexivity. Qed.

Lemma period_label_fresh idx (done : list (Z * list (option Q))) t :
  t ∉ map fst done ->
  LPeriod t ∉ columns ((LName "index", idx) :: map numbers_column done).
Proof.
  intros Ht Hin. unfold columns in Hin. simpl in Hin.
  apply elem_of_cons in Hin as [Hin | Hin]; [discriminate Hin |].
  rewrite map_map in Hin. apply list_elem_of_fmap in Hin as [p [Hp Hin]].
  simpl in Hp. inversion Hp; subst. apply Ht. apply list_elem_of_fmap. eauto.
Qed.

Lemma NoDup_period_labels (ps : list (Z * list (option Q))) :
  NoDup (map fst ps) -> NoDup (columns (map numbers_column ps)).
Proof.
  intros H. rewrite columns_numbers.
  replace (map (fun p => LPeriod p.1) ps) with (LPeriod <$> (map fst ps))
    by (by rewrite <- list_fmap_compose).
  apply NoDup_fmap_2; [| exact H]. by intros ? ? [= ->].
Qed.

Lemma zip_with_fl_numbers (a b : list (option Q)) :
  zip_with_fl pct_cell (map (fun o => CNum (Fin (filled o))) a)
                       (map (fun o => CNum (Fin (filled o))) b)
  = zip_with (fun c p => pct_cell (Fin (filled c)) (Fin (filled p))) a b.
Proof.
  revert b. induction a as [|x a IH]; intros [|y b];
    cbn [zip_with_fl map zip_with num_of]; try reflexivity.
  f_equal. apply IH.
Qed.

Lemma pct_series_numbers (c p : Z * list (option Q)) :
  pct_series (period_numbers c) (period_numbers p) = (change_numbers (c, p)).2.
Proof. apply zip_with_fl_numbers. Qed.

Lemma df_get_period idx (done : list (Z * list (option Q))) c rest :
  c.1 ∉ map fst done ->
  df_get ((LName "index", idx) :: map numbers_column (done ++ c :: rest))
         (LPeriod c.1)
  = Some (period_numbers c).
Proof.
  intros Hc. rewrite map_app. cbn [map]. rewrite app_comm_cons.
  apply (df_get_skip ((LName "index", idx) :: map numbers_column done)
                     (LPeriod c.1) (period_numbers c)).
  by apply period_label_fresh.
Qed.

Lemma adjacent_cons {A} (a b : A) l :
  adjacent (a :: b :: l) = (a, b) :: adjacent (b :: l).
Proof. reflexivity. Qed.

(** The loop over [range(1, len(numeric_columns) - 1)], started after
    [done] periods: one change column is appended for each adjacent pair of
    the remaining periods. *)
Lemma pct_loop (idx : series) (rest : list (Z * list (option Q))) :
  forall (done : list (Z * list (option Q))) (extra : DataFrame),
    NoDup (map fst (done ++ rest)) ->
    Forall (fun col => exists t, col.1 = LPct (LPeriod t) /\ t ∈ map fst done)
           extra ->
    let df1 := (LName "index", idx) :: map numbers_column (done ++ rest) in
    foldM (pct_step (columns (map numbers_column (done ++ rest))))
          (seq (length done) (length rest - 1)) (df1 ++ extra)
    = ret (df1 ++ extra ++ map change_numbers (adjacent rest)).
Proof.
  induction rest as [|c rest IH]; intros done extra Hnd Hex df1.
  { simpl. by rewrite !app_nil_r. }
  destruct rest as [|p rest].
  { simpl. by rewrite !app_nil_r. }
  rewrite adjacent_cons.
  replace (length (c :: p :: rest) - 1)%nat with (S (length (p :: rest) - 1))
    by (simpl; lia).
  rewrite <- cons_seq. cbn [foldM].
  assert (Hc : c.1 ∉ map fst done).
  { rewrite map_app in Hnd. apply NoDup_app in Hnd as (_ & Hd & _).
    intros Hin. apply (Hd _ Hin). simpl. left. }
  assert (Hp : p.1 ∉ map fst (done ++ [c])).
  { replace (done ++ c :: p :: rest) with ((done ++ [c]) ++ p :: rest) in Hnd
      by (by rewrite <- app_assoc).
    rewrite map_app in Hnd. apply NoDup_app in Hnd as (_ & Hd & _).
    intros Hin. apply (Hd _ Hin). simpl. left. }
  assert (Hstep :
    pct_step (columns (map numbers_column (done ++ c :: p :: rest)))
             (df1 ++ extra) (length done)
    = ret (df1 ++ extra ++ [change_numbers (c, p)])).
  { assert (N1 : map (fun p => LPeriod p.1) (done ++ c :: p :: rest)
                   !! length done = Some (LPeriod c.1)).
    { rewrite list_lookup_fmap, lookup_app_r by lia.
      by rewrite Nat.sub_diag. }
    assert (N2 : map (fun p => LPeriod p.1) (done ++ c :: p :: rest)
                   !! (length done + 1)%nat = Some (LPeriod p.1)).
    { rewrite list_lookup_fmap, lookup_app_r by lia.
      by replace (length done + 1 - length done)%nat with 1%nat by lia. }
    assert (G1 : df_get (df1 ++ extra) (LPeriod c.1) = Some (period_numbers c)).
    { apply df_get_app. subst df1. by apply df_get_period. }
    assert (G2 : df_get (df1 ++ extra) (LPeriod p.1) = Some (period_numbers p)).
    { apply df_get_app. subst df1.
      replace (done ++ c :: p :: rest) with ((done ++ [c]) ++ p :: rest)
        by (by rewrite <- app_assoc).
      by apply df_get_period. }
    unfold pct_step. rewrite columns_numbers, N1, N2, G1, G2.
    rewrite pct_series_numbers.
    rewrite df_set_fresh; [by rewrite <- app_assoc |].
    unfold columns. rewrite map_app. intros Hin.
    apply elem_of_app in Hin as [Hin | Hin].
    - subst df1. simpl in Hin.
      apply elem_of_cons in Hin as [Hin | Hin]; [discriminate Hin |].
      rewrite map_map in Hin. apply list_elem_of_fmap in Hin as [x [Hx _]].
      discriminate Hx.
    - apply list_elem_of_fmap in Hin as [col [Hcol Hin]].
      rewrite Forall_forall in Hex. destruct (Hex col Hin) as [t [Ht Hin']].
      rewrite Ht in Hcol. inversion Hcol; subst t. contradiction. }
  rewrite Hstep. cbn [bind ret].
  pose proof (IH (done ++ [c]) (extra ++ [change_numbers (c, p)])) as IH'.
  rewrite length_app, Nat.add_1_r in IH'.
  replace ((done ++ [c]) ++ p :: rest) with (done ++ c :: p :: rest) in IH'
    by (by rewrite <- app_assoc).
  cbv zeta in IH'. subst df1.
  rewrite IH'.
  - by rewrite <- app_assoc.
  - exact Hnd.
  - apply Forall_app. split.
    + eapply Forall_impl; [exact Hex |]. intros col [t [Ht Hin]].
      exists t. split; [exact Ht |]. rewrite map_app. apply elem_of_app. by left.
    + constructor; [| constructor]. exists c.1. split; [reflexivity |].
      rewrite map_app. apply elem_of_app. right. simpl. left.
Qed.

Lemma to_numeric_numbers (ps : list (Z * list (option Q))) :
  map (fun c => (c.1, map to_numeric c.2)) (map numbers_column ps)
  = map numbers_column ps.
Proof.
  rewrite map_map. apply map_ext. intros p. unfold numbers_column. simpl.
  f_equal. unfold period_numbers. rewrite map_map. reflexivity.
Qed.

Lemma mapM_format_numbers (vs : list (option Q)) :
  mapM format_number (map (fun o => CNum (Fin (filled o))) vs)
  = ret (map format_cell (map (fun o => CNum (Fin (filled o))) vs)).
Proof.
  induction vs as [|o vs IH]; [reflexivity |].
  cbn [map mapM]. rewrite IH.
  unfold format_cell, format_number.
  destruct (trunc (filled o) <? 0)%Z; reflexivity.
Qed.

Lemma format_numbers_columns (ps : list (Z * list (option Q))) :
  map (fun c => (c.1, map format_cell c.2)) (map numbers_column ps)
  = map period_column ps.
Proof.
  rewrite map_map. apply map_ext. intros p.
  unfold numbers_column, period_column, period_numbers. simpl. f_equal.
  rewrite map_map. apply map_ext. intros o.
  unfold format_cell, format_number, formatted.
  by destruct (trunc (filled o) <? 0)%Z.
Qed.

Lemma color_changes (cps : list ((Z * list (option Q)) * (Z * list (option Q)))) :
  map (fun c => (c.1, map pct_span c.2)) (map change_numbers cps)
  = map change_column cps.
Proof.
  rewrite map_map. apply map_ext. intros [c p].
  unfold change_numbers, change_column. simpl. f_equal.
  generalize (c.2) (p.2). clear.
  induction l as [|x l IH]; intros [|y k]; cbn [zip_with map]; try reflexivity.
  f_equal. apply IH.
Qed.

Lemma filter_percent_columns idx (ps : list (Z * list (option Q))) cps :
  filter (fun l => like_percent l = true)
         (columns ((LName "index", idx) :: map period_column ps
                     ++ map change_numbers cps))
  = columns (map change_numbers cps).
Proof.
  unfold columns. cbn [map fst].
  rewrite filter_cons_False by (simpl; discriminate).
  rewrite map_app, filter_app.
  replace (filter (fun l => like_percent l = true) (map fst (map period_column ps)))
    with (@nil label).
  - simpl. apply filter_all. apply Forall_forall. intros l Hl.
    apply list_elem_of_fmap in Hl as [c [-> Hc]].
    apply list_elem_of_fmap in Hc as [cp [-> _]]. reflexivity.
  - symmetry. induction ps as [|p ps IH]; [reflexivity |].
    cbn [map]. rewrite filter_cons_False by (simpl; discriminate). exact IH.
Qed.

Lemma NoDup_zip_fst {A B C} (f : A -> C) (l : list A) (k : list B) :
  NoDup (map f l) -> NoDup (map (fun x => f x.1) (zip l k)).
Proof.
  revert k. induction l as [|a l IH]; intros k Hnd; [constructor |].
  destruct k as [|b k]; [constructor |].
  cbn [map] in Hnd. apply NoDup_cons in Hnd as [Ha Hnd].
  cbn [zip zip_with map]. apply NoDup_cons. split; [| by apply IH].
  intros Hin. apply Ha.
  apply list_elem_of_fmap in Hin as [[x y] [Hx Hin]]. simpl in Hx.
  rewrite Hx. apply list_elem_of_fmap. exists x. split; [reflexivity |].
  by apply elem_of_zip_l in Hin.
Qed.

Lemma NoDup_change_labels (ps : list (Z * list (option Q))) :
  NoDup (map fst ps) ->
  NoDup (columns (map change_numbers (adjacent (tail ps)))).
Proof.
  intros Hnd. unfold columns. rewrite map_map. simpl.
  apply (NoDup_zip_fst (fun p => LPct (LPeriod p.1))).
  replace (map (fun p : Z * list (option Q) => LPct (LPeriod p.1)) (tail ps))
    with ((fun t => LPct (LPeriod t)) <$> map fst (tail ps))
    by (by rewrite <- list_fmap_compose).
  apply NoDup_fmap_2; [by intros ? ? [= ->] |].
  destruct ps as [|p ps]; [constructor |]. simpl in *.
  by apply NoDup_cons in Hnd as [_ Hnd].
Qed.

(** The normaliser computes the assembled frame with its rows reversed,
    for every statement whose period labels are distinct. *)
Lemma normalize_assembled (raw : RawStatement) :
  NoDup (map fst (periods raw)) ->
  normalize raw = ret (df_reverse (assembled raw)).
Proof.
  intros Hnd. unfold normalize. rewrite fillna0_reset_index.
  set (ps := periods raw) in *.
  set (nums := map numbers_column ps).
  set (idx := index_column raw).
  change (tail (columns (idx :: nums))) with (columns nums).
  (* to_numeric *)
  pose proof (foldM_df_update (fun s => ret (map to_numeric s)) (map to_numeric)
                nums [idx] [] (NoDup_period_labels ps Hnd)) as S2.
  rewrite app_nil_r in S2. cbn [app] in S2.
  rewrite S2; clear S2; cycle 1.
  { intros l Hl Hin. apply list_elem_of_singleton in Hin. subst l.
    unfold nums in Hl. rewrite columns_numbers in Hl.
    apply list_elem_of_fmap in Hl as [? [? _]]. discriminate. }
  { reflexivity. }
  unfold nums at 1. rewrite to_numeric_numbers. fold nums.
  rewrite ?app_nil_r. cbn [bind ret].
  (* the percentage loop *)
  assert (S3 : foldM (pct_step (columns nums))
                 (range 1 (length (columns nums) - 1)) (idx :: nums)
               = ret (idx :: nums ++ map change_numbers (adjacent (tail ps)))).
  { unfold range, columns. rewrite length_map. unfold nums. rewrite length_map.
    destruct ps as [|p0 rest] eqn:Eps; [reflexivity |].
    pose proof (pct_loop (map CStr (line_items raw)) rest [p0] [] Hnd
                  (Forall_nil_2 _)) as L.
    cbv zeta in L. rewrite app_nil_r in L. cbn [app length] in L.
    cbn [length tail].
    replace (S (length rest) - 1 - 1)%nat with (length rest - 1)%nat by lia.
    exact L. }
  rewrite S3; clear S3. cbn [bind ret].
  (* format_number *)
  pose proof (foldM_df_update (mapM format_number) (map format_cell)
                nums [idx] (map change_numbers (adjacent (tail ps)))
                (NoDup_period_labels ps Hnd)) as S4.
  cbn [app] in S4. rewrite S4; clear S4; cycle 1.
  { intros l Hl Hin. apply list_elem_of_singleton in Hin. subst l.
    unfold nums in Hl. rewrite columns_numbers in Hl.
    apply list_elem_of_fmap in Hl as [? [? _]]. discriminate. }
  { intros c Hc. apply list_elem_of_fmap in Hc as [p [-> _]].
    apply mapM_format_numbers. }
  unfold nums. rewrite format_numbers_columns. cbn [bind ret].
  (* the colours *)
  unfold idx, index_column. rewrite filter_percent_columns.
  pose proof (foldM_df_update (fun s => ret (map pct_span s)) (map pct_span)
                (map change_numbers (adjacent (tail ps)))
                ((LName "index", map CStr (line_items raw)) :: map period_column ps)
                [] (NoDup_change_labels ps Hnd)) as S5.
  rewrite !app_nil_r in S5. cbn [app] in S5.
  rewrite S5; clear S5; cycle 1.
  { intros l Hl Hin. unfold columns in Hl, Hin.
    apply list_elem_of_fmap in Hl as [c [-> Hc]].
    apply list_elem_of_fmap in Hc as [cp [-> _]]. simpl in Hin.
    apply elem_of_cons in Hin as [Hin | Hin]; [discriminate Hin |].
    apply list_elem_of_fmap in Hin as [c [Hc Hin]].
    apply list_elem_of_fmap in Hin as [p [-> _]]. discriminate Hc. }
  { reflexivity. }
  rewrite color_changes. reflexivity.
Qed.

Lemma df_get_reverse (df : DataFrame) l :
  df_get (df_reverse df) l = reverse <$> df_get df l.
Proof.
  induction df as [|[l' s] df IH]; [reflexivity |].
  simpl. destruct (decide (l = l')); [reflexivity | exact IH].
Qed.

Lemma df_get_None (df : DataFrame) l : l ∉ columns df -> df_get df l = None.
Proof.
  induction df as [|[l' s] df IH]; intros Hn; [reflexivity |].
  unfold columns in Hn. simpl in *. apply not_elem_of_cons in Hn as [Hne Hn].
  rewrite decide_False by exact Hne. by apply IH.
Qed.

Lemma df_get_app_r (pre post : DataFrame) l :
  l ∉ columns pre -> df_get (pre ++ post) l = df_get post l.
Proof.
  induction pre as [|[l' s] pre IH]; intros Hn; [reflexivity |].
  unfold columns in Hn. simpl in *. apply not_elem_of_cons in Hn as [Hne Hn].
  rewrite decide_False by exact Hne. by apply IH.
Qed.

Lemma columns_reverse (df : DataFrame) : columns (df_reverse df) = columns df.
Proof. unfold columns, df_reverse. rewrite map_map. reflexivity. Qed.

Lemma length_adjacent {A} (l : list A) : length (adjacent l) = (length l - 1)%nat.
Proof. unfold adjacent. rewrite length_zip, length_tl. lia. Qed.

Lemma adjacent_lookup {A} (l : list A) i c p :
  l !! i = Some c -> l !! (i + 1)%nat = Some p -> adjacent l !! i = Some (c, p).
Proof.
  intros Hc Hp. unfold adjacent. apply lookup_zip_Some. split; [exact Hc |].
  rewrite lookup_tail. by rewrite <- Nat.add_1_r.
Qed.

(** The change column of the pair (periods[i], periods[i+1]) in the
    assembled frame: there is none for i = 0. *)
Lemma df_get_change (raw : RawStatement) i c p :
  NoDup (map fst (periods raw)) ->
  periods raw !! i = Some c ->
  periods raw !! (i + 1)%nat = Some p ->
  df_get (assembled raw) (LPct (LPeriod c.1))
  = if (i =? 0)%nat then None else Some (change_column (c, p)).2.
Proof.
  intros Hnd Hc Hp. unfold assembled.
  rewrite app_comm_cons, df_get_app_r; cycle 1.
  { unfold columns. cbn [map fst]. intros Hin.
    apply elem_of_cons in Hin as [Hin | Hin]; [discriminate Hin |].
    rewrite map_map in Hin. apply list_elem_of_fmap in Hin as [? [? _]].
    discriminate. }
  destruct (periods raw) as [|p0 rest]; [discriminate Hc |].
  cbn [tail]. cbn [map] in Hnd. apply NoDup_cons in Hnd as [Hp0 Hnd].
  destruct i as [|j]; cbn [Nat.eqb].
  - simpl in Hc. inversion Hc; subst p0. apply df_get_None.
    unfold columns. rewrite map_map. intros Hin.
    apply list_elem_of_fmap in Hin as [[x y] [Hx Hin]]. simpl in Hx.
    inversion Hx as [Hx']. apply elem_of_zip_l in Hin.
    apply Hp0. rewrite Hx'. apply list_elem_of_fmap. eauto.
  - simpl in Hc, Hp.
    pose proof (adjacent_lookup rest j c p Hc Hp) as Hadj.
    rewrite <- (take_drop_middle _ _ _ Hadj), map_app. cbn [map].
    apply (df_get_skip (map change_column (take j (adjacent rest)))
                       (LPct (LPeriod c.1)) (change_column (c, p)).2).
    unfold columns. rewrite map_map. intros Hin.
    apply list_elem_of_fmap in Hin as [[x y] [Hx Hin]]. simpl in Hx.
    inversion Hx as [Hx'].
    apply elem_of_take in Hin as [j' [Hj' Hlt]].
    apply lookup_zip_Some in Hj' as [Hj' _].
    assert (j = j'); [| lia].
    apply (NoDup_lookup (map fst rest) j j' c.1 Hnd).
    + by rewrite list_lookup_fmap, Hc.
    + by rewrite list_lookup_fmap, Hj', Hx'.
Qed.

Lemma value_columns_assembled (raw : RawStatement) :
  length (value_columns (df_reverse (assembled raw)))
  = (length (periods raw) + (length (periods raw) - 2))%nat.
Proof.
  unfold value_columns. rewrite columns_reverse. unfold assembled, columns.
  cbn [map tail]. rewrite map_app, length_app, !length_map, length_adjacent.
  rewrite length_tl. lia.
Qed.

Lemma percent_columns_assembled (raw : RawStatement) :
  length (filter (fun l => like_percent l = true)
                 (value_columns (df_reverse (assembled raw))))
  = (length (periods raw) - 2)%nat.
Proof.
  unfold value_columns. rewrite columns_reverse. unfold assembled, columns.
  cbn [map tail]. rewrite map_app, filter_app, length_app.
  replace (filter (fun l => like_percent l = true)
                  (map fst (map period_column (periods raw)))) with (@nil label).
  - rewrite filter_all.
    + rewrite !length_map, length_adjacent, length_tl. simpl. lia.
    + apply Forall_forall. intros l Hl.
      apply list_elem_of_fmap in Hl as [c [-> Hc]].
      apply list_elem_of_fmap in Hc as [cp [-> _]]. reflexivity.
  - symmetry. induction (periods raw) as [|p ps IH]; [reflexivity |].
    cbn [map]. rewrite filter_cons_False by (simpl; discriminate). exact IH.
Qed.

End NormalizeFacts.

Section NormalizeTheorems.

Local Open Scope Q_scope.
Local Open Scope list_scope.

(** C1. What the code does for the percentage cells.  For the newest
    pair of periods (i = 0) the loop [range(1, len(numeric_columns) - 1)]
    computes nothing: the frame has no column [f"{current}-%"] for the
    newest period.  For a pair of the periods i and i+1 with 1 <= i the
    column is there; the cell of a line item (the rows are reversed) is a
    coloured span with the sign, a whole number and " %", its sign is "-"
    exactly when current is below previous, and it is a zero when previous
    is zero or missing. *)
Theorem normalize_skips_newest_pair (raw : RawStatement) :
  NoDup (map fst (periods raw)) ->
  exists df,
    normalize raw = ret df
    /\ forall i c p,
         periods raw !! i = Some c ->
         periods raw !! (i + 1)%nat = Some p ->
         if (i =? 0)%nat
         then df_get df (LPct (LPeriod c.1)) = None
         else exists s,
             df_get df (LPct (LPeriod c.1)) = Some (reverse s)
             /\ forall j a b,
                  c.2 !! j = Some a -> p.2 !! j = Some b ->
                  exists n,
                    s !! j
                    = Some (CSpan (pct_text (Qlt_bool (filled a) (filled b)) n)
                                  (pct_color (Qlt_bool (filled a) (filled b)) n))
                    /\ (filled b == 0 -> n = 0%N).
Proof.
  intros Hnd. exists (df_reverse (assembled raw)).
  split; [by apply normalize_assembled |].
  intros i c p Hc Hp.
  rewrite df_get_reverse, (df_get_change raw i c p Hnd Hc Hp).
  destruct (i =? 0)%nat; [reflexivity |].
  eexists. split; [reflexivity |].
  intros j a b Ha Hb. cbn [change_column snd fst].
  exists (Z.to_N (Z.abs (pct_value (filled a) (filled b)))). split.
  - rewrite lookup_zip_with, Ha. cbn [mbind option_bind]. rewrite Hb.
    cbn [mbind option_bind]. f_equal. apply pct_span_pct_cell.
  - intros H0. by rewrite (pct_value_zero_previous _ _ H0).
Qed.

Lemma normalize_skips_newest_pair_witness :
  exists df,
    normalize three_periods = ret df
    /\ forall i c p,
         periods three_periods !! i = Some c ->
         periods three_periods !! (i + 1)%nat = Some p ->
         if (i =? 0)%nat
         then df_get df (LPct (LPeriod c.1)) = None
         else exists s,
             df_get df (LPct (LPeriod c.1)) = Some (reverse s)
             /\ forall j a b,
                  c.2 !! j = Some a -> p.2 !! j = Some b ->
                  exists n,
                    s !! j
                    = Some (CSpan (pct_text (Qlt_bool (filled a) (filled b)) n)
                                  (pct_color (Qlt_bool (filled a) (filled b)) n))
                    /\ (filled b == 0 -> n = 0%N).
Proof.
  apply (normalize_skips_newest_pair three_periods).
  apply (bool_decide_unpack _). vm_compute. reflexivity.
Defined.

(** The two-period statement: no 50 % cell is produced. *)
Lemma normalize_two_periods :
  normalize two_periods
  = ret [ (LName "index", [CStr "Net Income"; CStr "Total Revenue"]);
          (LPeriod 2023, [CStr "50"; CStr "150"]);
          (LPeriod 2022, [CStr "100"; CStr "100"]) ].
Proof. reflexivity. Qed.

(** With three periods the only change column is that of the second
    period against the third. *)
Lemma normalize_three_periods :
  normalize three_periods
  = ret [ (LName "index", [CStr "Net Income"; CStr "Total Revenue"]);
          (LPeriod 2023, [CStr "50"; CStr "150"]);
          (LPeriod 2022, [CStr "100"; CStr "100"]);
          (LPeriod 2021, [CStr "0"; CStr "80"]);
          (LPct (LPeriod 2022), [CSpan "+0 %" "white"; CSpan "+25 %" "green"]) ].
Proof. reflexivity. Qed.




(** C2. What the code does for the shape of the frame: for n periods it
    has n + (n - 2) value columns, of which n - 2 are change columns (none
    when n < 2, and none for n = 2), and every column holds its rows in
    the reverse of the input order. *)
Theorem normalize_value_columns (raw : RawStatement) :
  NoDup (map fst (periods raw)) ->
  let n := length (periods raw) in
  exists df,
    normalize raw = ret df
    /\ length (value_columns df) = (n + (n - 2))%nat
    /\ length (filter (fun l => like_percent l = true) (value_columns df))
       = (n - 2)%nat
    /\ df_get df (LName "index") = Some (reverse (map CStr (line_items raw)))
    /\ forall p, p ∈ periods raw ->
         df_get df (LPeriod p.1)
         = Some (reverse (map (fun o => formatted (filled o)) p.2)).
Proof.
  intros Hnd n. exists (df_reverse (assembled raw)).
  split; [by apply normalize_assembled |].
  split; [apply value_columns_assembled |].
  split; [apply percent_columns_assembled |].
  split.
  - rewrite df_get_reverse. reflexivity.
  - intros p Hp. rewrite df_get_reverse. unfold assembled.
    apply list_elem_of_lookup in Hp as [i Hi].
    rewrite <- (take_drop_middle _ _ _ Hi), map_app. cbn [map].
    rewrite <- app_assoc, app_comm_cons. cbn [app].
    match goal with
    | |- reverse <$> ?X = _ =>
        assert (G : X = Some (map (fun o => formatted (filled o)) p.2));
        [| by rewrite G]
    end.
    apply (df_get_skip
             ((LName "index", map CStr (line_items raw))
                :: map period_column (take i (periods raw)))
             (LPeriod p.1) (map (fun o => formatted (filled o)) p.2)).
    unfold columns. cbn [map fst]. intros Hin.
    apply elem_of_cons in Hin as [Hin | Hin]; [discriminate Hin |].
    rewrite map_map in Hin. apply list_elem_of_fmap in Hin as [x [Hx Hin]].
    simpl in Hx. inversion Hx as [Hx'].
    apply elem_of_take in Hin as [j [Hj Hlt]].
    assert (i = j); [| lia].
    apply (NoDup_lookup (map fst (periods raw)) i j p.1 Hnd).
    + by rewrite list_lookup_fmap, Hi.
    + by rewrite list_lookup_fmap, Hj, Hx'.
Qed.

Lemma normalize_value_columns_witness :
  exists df,
    normalize two_periods = ret df
    /\ length (value_columns df) = 2%nat
    /\ length (filter (fun l => like_percent l = true) (value_columns df))
       = 0%nat
    /\ df_get df (LName "index")
       = Some (reverse (map CStr (line_items two_periods)))
    /\ forall p, p ∈ periods two_periods ->
         df_get df (LPeriod p.1)
         = Some (reverse (map (fun o => formatted (filled o)) p.2)).
Proof.
  apply (normalize_value_columns two_periods).
  apply (bool_decide_unpack _). vm_compute. reflexivity.
Defined.

End NormalizeTheorems.

(** ** The indicator on a finite series *)

Section RSIFacts.

Local Open Scope Q_scope.
Local Open Scope list_scope.

Lemma zip_with_sub_Fin (a b : list Q) :
  zip_with sub (map Fin a) (map Fin b)
  = map Fin (zip_with (fun x y => x + - y) a b).
Proof.
  revert b. induction a as [|x a IH]; intros [|y b]; try reflexivity.
  cbn [map zip_with]. by rewrite IH.
Qed.

Lemma diff_Fin (qs : list Q) :
  diff (map Fin qs)
  = match qs with [] => [] | _ => NaN :: map Fin (deltas qs) end.
Proof.
  destruct qs as [|q qs]; [reflexivity |].
  unfold diff, deltas. cbn [map tail].
  by rewrite <- zip_with_sub_Fin.
Qed.

Lemma gains_Fin (qs : list Q) :
  where_or0 gt0 (diff (map Fin qs)) = map Fin (gains qs).
Proof.
  rewrite diff_Fin. destruct qs as [|q qs]; [reflexivity |].
  unfold where_or0, gains. cbn [map gt0]. f_equal.
  rewrite !map_map. apply map_ext. intros d. simpl.
  by destruct (Qlt_bool 0 d).
Qed.

Lemma losses_Fin (qs : list Q) :
  map neg (where_or0 lt0 (diff (map Fin qs))) = map Fin (losses qs).
Proof.
  rewrite diff_Fin. destruct qs as [|q qs]; [reflexivity |].
  unfold where_or0, losses. cbn [map lt0]. f_equal.
  rewrite !map_map. apply map_ext. intros d. simpl.
  by destruct (Qlt_bool d 0).
Qed.

Lemma length_deltas (qs : list Q) : length (deltas qs) = (length qs - 1)%nat.
Proof. unfold deltas. rewrite length_zip_with, length_tl. lia. Qed.

Lemma length_gains (qs : list Q) : length (gains qs) = length qs.
Proof.
  destruct qs as [|q qs]; [reflexivity |].
  unfold gains. cbn [length]. rewrite length_map, length_deltas. simpl. lia.
Qed.

Lemma length_losses (qs : list Q) : length (losses qs) = length qs.
Proof.
  destruct qs as [|q qs]; [reflexivity |].
  unfold losses. cbn [length]. rewrite length_map, length_deltas. simpl. lia.
Qed.

Lemma sum_Fin (l : list Q) : sum (map Fin l) = Fin (Qsum l).
Proof.
  induction l as [|x l IH]; [reflexivity |].
  unfold sum in *. cbn [map foldr]. by rewrite IH.
Qed.

Lemma filter_not_nan_Fin (l : list Q) :
  filter (fun x => is_finite x = true) (map Fin l) = map Fin l.
Proof.
  apply filter_all. apply Forall_forall. intros x Hx.
  apply list_elem_of_fmap in Hx as [q [-> _]]. reflexivity.
Qed.

Lemma inject_nat_nonzero (n : nat) :
  (0 < n)%nat -> Qeq_bool (inject_Z (Z.of_nat n)) 0 = false.
Proof.
  intros Hn. apply not_true_iff_false. intros H. apply Qeq_bool_eq in H.
  unfold Qeq in H. simpl in H. lia.
Qed.

Lemma window_mean_Fin (w : nat) (l : list Q) :
  window_mean w (map Fin l)
  = if decide (w <= length l /\ 0 < length l)%nat then Fin (Qmean l) else NaN.
Proof.
  unfold window_mean. rewrite filter_not_nan_Fin, length_map, sum_Fin.
  destruct (decide (w <= length l /\ 0 < length l)%nat) as [[_ H]|]; [| reflexivity].
  unfold div. by rewrite inject_nat_nonzero.
Qed.

Lemma window_at_Fin (w : nat) (xs : list Q) (i : nat) :
  window_at w (map Fin xs) i = map Fin (window w xs i).
Proof. unfold window_at, window. by rewrite <- fmap_take, <- fmap_drop. Qed.

Lemma length_window (w : nat) (xs : list Q) (i : nat) :
  (i < length xs)%nat -> length (window w xs i) = Nat.min w (i + 1).
Proof. intros H. unfold window. rewrite length_drop, length_take. lia. Qed.

(** One position of the rolling mean of a finite series. *)
Lemma rolling_mean_Fin (w : nat) (xs : list Q) (i : nat) :
  (i < length xs)%nat ->
  rolling_mean w (map Fin xs) !! i
  = Some (if decide (1 <= w <= i + 1)%nat then Fin (Qmean (window w xs i))
          else NaN).
Proof.
  intros Hi. unfold rolling_mean. rewrite list_lookup_imap.
  destruct (lookup_lt_is_Some_2 (map Fin xs) i) as [x Hx];
    [by rewrite length_map |].
  rewrite Hx. simpl. f_equal.
  rewrite window_at_Fin, window_mean_Fin, length_window by exact Hi.
  destruct (decide (1 <= w <= i + 1)%nat);
    destruct (decide (w <= Nat.min w (i + 1) /\ 0 < Nat.min w (i + 1))%nat);
    try reflexivity; lia.
Qed.

Lemma length_calculate_rsi (data : list fl) (w : nat) :
  length (calculate_rsi data w) = length data.
Proof.
  unfold calculate_rsi, rolling_mean, where_or0.
  rewrite length_map, length_zip_with, !length_imap, !length_map.
  destruct data as [|x data]; [reflexivity |].
  unfold diff. cbn [length]. rewrite length_zip_with. simpl. lia.
Qed.

(** One position of the indicator of a finite series. *)
Lemma calculate_rsi_Fin (qs : list Q) (w i : nat) :
  (i < length qs)%nat ->
  calculate_rsi (map Fin qs) w !! i
  = Some (if decide (1 <= w <= i + 1)%nat
          then rsi_value (Qmean (window w (gains qs) i))
                         (Qmean (window w (losses qs) i))
          else NaN).
Proof.
  intros Hi. unfold calculate_rsi.
  rewrite gains_Fin, losses_Fin, list_lookup_fmap, lookup_zip_with.
  rewrite !rolling_mean_Fin by (by rewrite ?length_gains, ?length_losses).
  simpl. by destruct (decide (1 <= w <= i + 1)%nat).
Qed.

(** *** The value at one position *)

Lemma rsi_value_no_change (g l : Q) :
  g == 0 -> l == 0 -> rsi_value g l = NaN.
Proof.
  intros Hg Hl. unfold rsi_value, div.
  by rewrite (Qeq_eq_bool _ _ Hl), (Qeq_eq_bool _ _ Hg).
Qed.

Lemma rsi_value_no_loss (g l : Q) :
  0 < g -> l == 0 -> has_value (rsi_value g l) 100.
Proof.
  intros Hg Hl. unfold rsi_value, div. rewrite (Qeq_eq_bool _ _ Hl).
  assert (E : Qeq_bool g 0 = false).
  { apply not_true_iff_false. intros H. apply Qeq_bool_eq in H. lra. }
  rewrite E. apply Qlt_bool_iff in Hg. rewrite Hg. simpl. lra.
Qed.

Lemma rsi_value_with_loss (g l : Q) :
  0 <= g -> 0 < l ->
  exists q, rsi_value g l = Fin q /\ (g == 0 -> q == 0).
Proof.
  intros Hg Hl. unfold rsi_value, div.
  assert (E : Qeq_bool l 0 = false).
  { apply not_true_iff_false. intros H. apply Qeq_bool_eq in H. lra. }
  rewrite E. cbn [add].
  assert (Hq : 0 <= g / l).
  { apply Qle_shift_div_l; [exact Hl | lra]. }
  assert (E1 : Qeq_bool (1 + g / l) 0 = false).
  { apply not_true_iff_false. intros H. apply Qeq_bool_eq in H. lra. }
  rewrite E1. eexists. split; [reflexivity |].
  intros Hg0. rewrite Hg0. field. lra.
Qed.

(** *** Sums of values that are not negative *)

Lemma Qsum_nonneg (l : list Q) : Forall (fun x => 0 <= x) l -> 0 <= Qsum l.
Proof.
  induction 1 as [|x l Hx _ IH]; simpl; lra.
Qed.

Lemma Qsum_zero (l : list Q) :
  Forall (fun x => 0 <= x) l -> (Qsum l == 0 <-> Forall (fun x => x == 0) l).
Proof.
  induction 1 as [|x l Hx Hl IH]; simpl.
  - split; [constructor | reflexivity].
  - pose proof (Qsum_nonneg l Hl). split.
    + intros H0. constructor; [lra |]. apply IH. lra.
    + intros HF. inversion_clear HF as [|? ? H1 H2]. apply IH in H2. lra.
Qed.

Lemma Qsum_pos (l : list Q) x :
  Forall (fun x => 0 <= x) l -> x ∈ l -> 0 < x -> 0 < Qsum l.
Proof.
  induction 1 as [|y l Hy Hl IH]; intros Hin Hx.
  - by apply elem_of_nil in Hin.
  - pose proof (Qsum_nonneg l Hl). simpl.
    apply elem_of_cons in Hin as [<- | Hin]; [lra |].
    specialize (IH Hin Hx). lra.
Qed.

Lemma Qmean_sign (l : list Q) :
  (0 < length l)%nat ->
  (0 <= Qsum l -> 0 <= Qmean l)
  /\ (Qsum l == 0 -> Qmean l == 0)
  /\ (0 < Qsum l -> 0 < Qmean l)
  /\ (Qmean l == 0 -> Qsum l == 0).
Proof.
  intros Hn. unfold Qmean.
  assert (Hd : 0 < inject_Z (Z.of_nat (length l))).
  { change 0 with (inject_Z 0). rewrite <- Zlt_Qlt. lia. }
  repeat split; intros H.
  - apply Qle_shift_div_l; [exact Hd | lra].
  - rewrite H. field. lra.
  - apply Qlt_shift_div_l; [exact Hd | lra].
  - assert (E : Qsum l == Qsum l / inject_Z (Z.of_nat (length l))
                          * inject_Z (Z.of_nat (length l))) by (field; lra).
    rewrite E, H. ring.
Qed.

Lemma gains_nonneg (qs : list Q) : Forall (fun x => 0 <= x) (gains qs).
Proof.
  destruct qs as [|q qs]; [constructor |]. unfold gains.
  constructor; [lra |]. apply Forall_forall. intros x Hx.
  apply list_elem_of_fmap in Hx as [d [-> _]].
  destruct (Qlt_bool 0 d) eqn:E; [apply Qlt_bool_iff in E |]; lra.
Qed.

Lemma losses_nonneg (qs : list Q) : Forall (fun x => 0 <= x) (losses qs).
Proof.
  destruct qs as [|q qs]; [constructor |]. unfold losses.
  constructor; [lra |]. apply Forall_forall. intros x Hx.
  apply list_elem_of_fmap in Hx as [d [-> _]].
  destruct (Qlt_bool d 0) eqn:E; [apply Qlt_bool_iff in E |]; lra.
Qed.

Lemma window_Forall (P : Q -> Prop) (w : nat) (xs : list Q) (i : nat) :
  Forall P (window w xs i)
  <-> forall j x, (i + 1 - w <= j <= i)%nat -> xs !! j = Some x -> P x.
Proof.
  unfold window. rewrite Forall_lookup. split.
  - intros H j x Hj Hx.
    apply (H (j - (i + 1 - w))%nat x).
    rewrite lookup_drop, lookup_take_Some.
    replace (i + 1 - w + (j - (i + 1 - w)))%nat with j by lia.
    split; [exact Hx | lia].
  - intros H k x Hk. rewrite lookup_drop in Hk.
    apply lookup_take_Some in Hk as [Hk Hlt].
    apply (H (i + 1 - w + k)%nat x); [lia | exact Hk].
Qed.

Lemma window_sublist (P : Q -> Prop) (w : nat) (xs : list Q) (i : nat) :
  Forall P xs -> Forall P (window w xs i).
Proof. intros H. unfold window. by apply Forall_drop, Forall_take. Qed.

Lemma deltas_lookup (qs : list Q) j a b :
  qs !! j = Some a -> qs !! S j = Some b -> deltas qs !! j = Some (b + - a).
Proof.
  intros Ha Hb. unfold deltas.
  by rewrite lookup_zip_with, lookup_tail, Hb, Ha.
Qed.

Lemma gains_lookup (qs : list Q) j a b :
  qs !! j = Some a -> qs !! S j = Some b ->
  gains qs !! S j = Some (if Qlt_bool 0 (b + - a) then b + - a else 0).
Proof.
  intros Ha Hb. destruct qs as [|q qs]; [discriminate Ha |].
  unfold gains. cbn [lookup list_lookup].
  change ((map (fun d => if Qlt_bool 0 d then d else 0) (deltas (q :: qs))) !! j
          = Some (if Qlt_bool 0 (b + - a) then b + - a else 0)).
  by rewrite list_lookup_fmap, (deltas_lookup _ _ _ _ Ha Hb).
Qed.

Lemma losses_lookup (qs : list Q) j a b :
  qs !! j = Some a -> qs !! S j = Some b ->
  losses qs !! S j = Some (if Qlt_bool (b + - a) 0 then - (b + - a) else - 0).
Proof.
  intros Ha Hb. destruct qs as [|q qs]; [discriminate Ha |].
  unfold losses. cbn [lookup list_lookup].
  change ((map (fun d => if Qlt_bool d 0 then - d else - 0) (deltas (q :: qs))) !! j
          = Some (if Qlt_bool (b + - a) 0 then - (b + - a) else - 0)).
  by rewrite list_lookup_fmap, (deltas_lookup _ _ _ _ Ha Hb).
Qed.

Lemma gains_lookup_0 (qs : list Q) x : gains qs !! 0%nat = Some x -> x = 0.
Proof. destruct qs; [discriminate |]. simpl. by intros [= <-]. Qed.

Lemma losses_lookup_0 (qs : list Q) x : losses qs !! 0%nat = Some x -> x == 0.
Proof. destruct qs; [discriminate |]. simpl. intros [= <-]. reflexivity. Qed.

(** *** Windows without a price change *)

Lemma consecutive_closes (qs : list Q) j :
  (S j < length qs)%nat -> exists a b, qs !! j = Some a /\ qs !! S j = Some b.
Proof.
  intros H.
  destruct (lookup_lt_is_Some_2 qs j) as [a Ha]; [lia |].
  destruct (lookup_lt_is_Some_2 qs (S j)) as [b Hb]; [lia |].
  eauto.
Qed.

Lemma flat_window_sums (qs : list Q) (w i : nat) :
  (Qsum (window w (gains qs) i) == 0 /\ Qsum (window w (losses qs) i) == 0)
  <-> flat_window qs w i.
Proof.
  rewrite !Qsum_zero
    by (apply window_sublist; [apply gains_nonneg || apply losses_nonneg]).
  rewrite !window_Forall. split.
  - intros [Hg Hl] j a b Hj Ha Hb.
    specialize (Hg (S j) _ Hj (gains_lookup qs j a b Ha Hb)).
    specialize (Hl (S j) _ Hj (losses_lookup qs j a b Ha Hb)).
    destruct (Qlt_bool 0 (b + - a)) eqn:E1;
      [apply Qlt_bool_iff in E1; lra | apply Qlt_bool_false in E1].
    destruct (Qlt_bool (b + - a) 0) eqn:E2;
      [apply Qlt_bool_iff in E2; lra | apply Qlt_bool_false in E2].
    lra.
  - intros Hflat. split; intros j x Hj Hx.
    + destruct j as [|j]; [by rewrite (gains_lookup_0 qs x Hx) |].
      destruct (consecutive_closes qs j) as (a & b & Ha & Hb).
      { apply lookup_lt_Some in Hx. by rewrite length_gains in Hx. }
      rewrite (gains_lookup qs j a b Ha Hb) in Hx. inversion Hx as [Hx'].
      pose proof (Hflat j a b Hj Ha Hb) as Hab.
      destruct (Qlt_bool 0 (b + - a)) eqn:E1;
        [apply Qlt_bool_iff in E1; lra | reflexivity].
    + destruct j as [|j]; [by apply (losses_lookup_0 qs) |].
      destruct (consecutive_closes qs j) as (a & b & Ha & Hb).
      { apply lookup_lt_Some in Hx. by rewrite length_losses in Hx. }
      rewrite (losses_lookup qs j a b Ha Hb) in Hx. inversion Hx as [Hx'].
      pose proof (Hflat j a b Hj Ha Hb) as Hab.
      destruct (Qlt_bool (b + - a) 0) eqn:E1;
        [apply Qlt_bool_iff in E1; lra | reflexivity].
Qed.

Lemma window_means_sign (qs : list Q) (w i : nat) :
  (i < length qs)%nat -> (1 <= w <= i + 1)%nat ->
  0 <= Qsum (window w (gains qs) i)
  /\ 0 <= Qsum (window w (losses qs) i)
  /\ (0 < length (window w (gains qs) i))%nat
  /\ (0 < length (window w (losses qs) i))%nat.
Proof.
  intros Hi Hw. repeat split.
  - apply Qsum_nonneg, window_sublist, gains_nonneg.
  - apply Qsum_nonneg, window_sublist, losses_nonneg.
  - rewrite length_window by (by rewrite length_gains). lia.
  - rewrite length_window by (by rewrite length_losses). lia.
Qed.

(** A position with a full window is undefined exactly when the window is
    flat. *)
Lemma calculate_rsi_nan_iff_flat (qs : list Q) (w i : nat) :
  (i < length qs)%nat -> (1 <= w <= i + 1)%nat ->
  calculate_rsi (map Fin qs) w !! i = Some NaN <-> flat_window qs w i.
Proof.
  intros Hi Hw. rewrite calculate_rsi_Fin by exact Hi.
  rewrite decide_True by exact Hw.
  destruct (window_means_sign qs w i Hi Hw) as (Hg & Hl & Ng & Nl).
  destruct (Qmean_sign _ Ng) as (G1 & G2 & G3 & G4).
  destruct (Qmean_sign _ Nl) as (L1 & L2 & L3 & L4).
  rewrite <- flat_window_sums. split.
  - intros H. inversion H as [H'].
    destruct (Qlt_le_dec 0 (Qsum (window w (losses qs) i))) as [Lp | Lz].
    + destruct (rsi_value_with_loss _ _ (G1 Hg) (L3 Lp)) as [q [Hq _]].
      rewrite Hq in H'. discriminate H'.
    + assert (L0 : Qsum (window w (losses qs) i) == 0) by lra.
      destruct (Qlt_le_dec 0 (Qsum (window w (gains qs) i))) as [Gp | Gz].
      * pose proof (rsi_value_no_loss _ _ (G3 Gp) (L2 L0)) as Hv.
        rewrite H' in Hv. contradiction.
      * split; [lra | exact L0].
  - intros [G0 L0]. f_equal. apply rsi_value_no_change; auto.
Qed.

(** Only gains in the window: the oscillator is at 100. *)
Lemma calculate_rsi_only_gains (qs : list Q) (w i : nat) :
  strictly_increasing qs ->
  (i < length qs)%nat -> (1 <= w <= i + 1)%nat -> (2 <= w)%nat ->
  exists x, calculate_rsi (map Fin qs) w !! i = Some x /\ has_value x 100.
Proof.
  intros Hinc Hi Hw Hw2. rewrite calculate_rsi_Fin by exact Hi.
  rewrite decide_True by exact Hw. eexists. split; [reflexivity |].
  destruct (window_means_sign qs w i Hi Hw) as (Hg & Hl & Ng & Nl).
  destruct (Qmean_sign _ Ng) as (G1 & G2 & G3 & G4).
  destruct (Qmean_sign _ Nl) as (L1 & L2 & L3 & L4).
  apply rsi_value_no_loss.
  - apply G3.
    destruct i as [|i]; [lia |].
    destruct (consecutive_closes qs i Hi) as (a & b & Ha & Hb).
    pose proof (Hinc i a b Ha Hb) as Hab.
    apply (Qsum_pos _ (b + - a)).
    + apply window_sublist, gains_nonneg.
    + unfold window. apply (list_elem_of_lookup_2 _ (S i - (S i + 1 - w))%nat).
      rewrite lookup_drop, lookup_take_Some.
      replace (S i + 1 - w + (S i - (S i + 1 - w)))%nat with (S i) by lia.
      split; [| lia]. rewrite (gains_lookup qs i a b Ha Hb).
      assert (E : Qlt_bool 0 (b + - a) = true) by (apply Qlt_bool_iff; lra).
      by rewrite E.
    + lra.
  - apply L2. apply Qsum_zero; [apply window_sublist, losses_nonneg |].
    apply window_Forall. intros j x Hj Hx.
    destruct j as [|j]; [by apply (losses_lookup_0 qs) |].
    destruct (consecutive_closes qs j) as (a & b & Ha & Hb).
    { apply lookup_lt_Some in Hx. by rewrite length_losses in Hx. }
    rewrite (losses_lookup qs j a b Ha Hb) in Hx. inversion Hx as [Hx'].
    pose proof (Hinc j a b Ha Hb) as Hab.
    destruct (Qlt_bool (b + - a) 0) eqn:E1;
      [apply Qlt_bool_iff in E1; lra | reflexivity].
Qed.

(** Only losses in the window: the oscillator is at 0. *)
Lemma calculate_rsi_only_losses (qs : list Q) (w i : nat) :
  strictly_decreasing qs ->
  (i < length qs)%nat -> (1 <= w <= i + 1)%nat -> (2 <= w)%nat ->
  exists x, calculate_rsi (map Fin qs) w !! i = Some x /\ has_value x 0.
Proof.
  intros Hdec Hi Hw Hw2. rewrite calculate_rsi_Fin by exact Hi.
  rewrite decide_True by exact Hw.
  destruct (window_means_sign qs w i Hi Hw) as (Hg & Hl & Ng & Nl).
  destruct (Qmean_sign _ Ng) as (G1 & G2 & G3 & G4).
  destruct (Qmean_sign _ Nl) as (L1 & L2 & L3 & L4).
  assert (Lp : 0 < Qsum (window w (losses qs) i)).
  { destruct i as [|i]; [lia |].
    destruct (consecutive_closes qs i Hi) as (a & b & Ha & Hb).
    pose proof (Hdec i a b Ha Hb) as Hab.
    apply (Qsum_pos _ (- (b + - a))).
    + apply window_sublist, losses_nonneg.
    + unfold window. apply (list_elem_of_lookup_2 _ (S i - (S i + 1 - w))%nat).
      rewrite lookup_drop, lookup_take_Some.
      replace (S i + 1 - w + (S i - (S i + 1 - w)))%nat with (S i) by lia.
      split; [| lia]. rewrite (losses_lookup qs i a b Ha Hb).
      assert (E : Qlt_bool (b + - a) 0 = true) by (apply Qlt_bool_iff; lra).
      by rewrite E.
    + lra. }
  assert (G0 : Qsum (window w (gains qs) i) == 0).
  { apply Qsum_zero; [apply window_sublist, gains_nonneg |].
    apply window_Forall. intros j x Hj Hx.
    destruct j as [|j]; [by rewrite (gains_lookup_0 qs x Hx) |].
    destruct (consecutive_closes qs j) as (a & b & Ha & Hb).
    { apply lookup_lt_Some in Hx. by rewrite length_gains in Hx. }
    rewrite (gains_lookup qs j a b Ha Hb) in Hx. inversion Hx as [Hx'].
    pose proof (Hdec j a b Ha Hb) as Hab.
    destruct (Qlt_bool 0 (b + - a)) eqn:E1;
      [apply Qlt_bool_iff in E1; lra | reflexivity]. }
  destruct (rsi_value_with_loss _ _ (G1 Hg) (L3 Lp)) as [q [Hq Hq0]].
  exists (Fin q). split; [by rewrite Hq |]. simpl. apply Hq0, G2, G0.
Qed.

End RSIFacts.

Section RSITheorems.

Local Open Scope Q_scope.
Local Open Scope list_scope.

(** C4 as the spec states it, exactly the first window-1 positions are
    undefined when the input is long enough, fails on a series without
    price changes: 15 closes of 5 with the window 14 give NaN at the
    position 13 as well. *)
Lemma calculate_rsi_flat_series_undefined :
  ~ (forall (qs : list Q) (w i : nat),
       (1 <= w <= length qs)%nat -> (i < length qs)%nat ->
       (calculate_rsi (map Fin qs) w !! i = Some NaN <-> (i + 1 < w)%nat)).
Proof.
  intros H.
  specialize (H (replicate 15 (5 # 1)) 14%nat 13%nat).
  simpl in H. destruct H as [H _]; [lia | lia |].
  assert (13 + 1 < 14)%nat; [| lia].
  apply H. vm_compute. reflexivity.
Qed.

(** C4, amended. The output has the length of the input; the first
    window-1 positions are undefined; a later position is undefined
    exactly when no two consecutive closes used by its window differ (both
    averages are zero and 0/0 is NaN), and defined otherwise; an empty or
    single-element series and a series shorter than the window give an
    entirely undefined output. *)
Theorem calculate_rsi_undefined_positions (qs : list Q) (w : nat) :
  length (calculate_rsi (map Fin qs) w) = length qs
  /\ (forall i, (i < length qs)%nat -> (i + 1 < w)%nat ->
        calculate_rsi (map Fin qs) w !! i = Some NaN)
  /\ (forall i, (i < length qs)%nat -> (1 <= w <= i + 1)%nat ->
        (calculate_rsi (map Fin qs) w !! i = Some NaN <-> flat_window qs w i))
  /\ ((length qs <= 1)%nat ->
        Forall (fun x => x = NaN) (calculate_rsi (map Fin qs) w))
  /\ ((length qs < w)%nat ->
        Forall (fun x => x = NaN) (calculate_rsi (map Fin qs) w)).
Proof.
  assert (Hshort : forall i, (i < length qs)%nat -> (i + 1 < w)%nat ->
            calculate_rsi (map Fin qs) w !! i = Some NaN).
  { intros i Hi Hw. rewrite calculate_rsi_Fin by exact Hi.
    rewrite decide_False by lia. reflexivity. }
  split; [by rewrite length_calculate_rsi, length_map |].
  split; [exact Hshort |].
  split; [apply calculate_rsi_nan_iff_flat |].
  split.
  - intros Hlen. apply Forall_lookup. intros i x Hx.
    assert (Hi : (i < length qs)%nat).
    { apply lookup_lt_Some in Hx.
      by rewrite length_calculate_rsi, length_map in Hx. }
    assert (i = 0)%nat by lia. subst i.
    destruct (decide (1 <= w <= 0 + 1)%nat) as [Hw | Hw].
    + assert (E : calculate_rsi (map Fin qs) w !! 0%nat = Some NaN).
      { apply calculate_rsi_nan_iff_flat; [exact Hi | exact Hw |].
        intros j a b Hj. lia. }
      rewrite E in Hx. by inversion Hx.
    + rewrite calculate_rsi_Fin in Hx by exact Hi.
      rewrite decide_False in Hx by exact Hw. by inversion Hx.
  - intros Hlen. apply Forall_lookup. intros i x Hx.
    assert (Hi : (i < length qs)%nat).
    { apply lookup_lt_Some in Hx.
      by rewrite length_calculate_rsi, length_map in Hx. }
    rewrite Hshort in Hx by lia. by inversion Hx.
Qed.

(** C5. On a strictly increasing series with at least 14 samples the
    function returns a series (the division by the zero average loss gives
    an infinity, not an exception) in which the positions before 13 are
    undefined and every position from 13 on is defined and equal to 100. *)
Theorem calculate_rsi_saturates_at_100 (qs : list Q) :
  strictly_increasing qs ->
  (14 <= length qs)%nat ->
  length (calculate_rsi (map Fin qs) default_window) = length qs
  /\ forall i x,
       calculate_rsi (map Fin qs) default_window !! i = Some x ->
       ((i < 13)%nat -> x = NaN)
       /\ ((13 <= i)%nat -> has_value x 100)
       /\ (is_nan x = false -> has_value x 100).
Proof.
  intros Hinc Hlen.
  split; [by rewrite length_calculate_rsi, length_map |].
  intros i x Hx.
  assert (Hi : (i < length qs)%nat).
  { apply lookup_lt_Some in Hx.
    by rewrite length_calculate_rsi, length_map in Hx. }
  assert (Hlate : (13 <= i)%nat -> has_value x 100).
  { intros H13.
    destruct (calculate_rsi_only_gains qs default_window i Hinc Hi)
      as [y [Hy Hv]]; [unfold default_window; lia | unfold default_window; lia |].
    rewrite Hy in Hx. by inversion Hx; subst. }
  assert (Hearly : (i < 13)%nat -> x = NaN).
  { intros H13. rewrite calculate_rsi_Fin in Hx by exact Hi.
    rewrite decide_False in Hx by (unfold default_window; lia).
    by inversion Hx. }
  repeat split; auto.
  intros Hdef. destruct (le_lt_dec 13 i) as [H | H]; [auto |].
  rewrite (Hearly H) in Hdef. discriminate Hdef.
Qed.

Lemma rising_closes_increasing : strictly_increasing rising_closes.
Proof.
  intros j a b Ha Hb. unfold rising_closes in *.
  rewrite list_lookup_fmap in Ha, Hb.
  destruct (seq 1 16 !! j) as [n|] eqn:En; [| discriminate Ha].
  destruct (seq 1 16 !! S j) as [m|] eqn:Em; [| discriminate Hb].
  apply lookup_seq in En as [-> _]. apply lookup_seq in Em as [-> _].
  simpl in Ha, Hb. inversion Ha; inversion Hb; subst.
  rewrite <- Zlt_Qlt. lia.
Defined.

Lemma calculate_rsi_saturates_at_100_witness :
  length (calculate_rsi (map Fin rising_closes) default_window)
  = length rising_closes
  /\ forall i x,
       calculate_rsi (map Fin rising_closes) default_window !! i = Some x ->
       ((i < 13)%nat -> x = NaN)
       /\ ((13 <= i)%nat -> has_value x 100)
       /\ (is_nan x = false -> has_value x 100).
Proof.
  apply (calculate_rsi_saturates_at_100 rising_closes).
  - exact rising_closes_increasing.
  - vm_compute. lia.
Defined.

End RSITheorems.

(** ** The watchlists *)

Section WatchlistFacts.

Local Open Scope list_scope.

Lemma fold_left_snoc {A B} (f : A -> B) (l : list A) (acc : list B) :
  fold_left (fun data x => data ++ [f x]) l acc = acc ++ map f l.
Proof.
  revert acc. induction l as [|x l IH]; intros acc; simpl.
  - by rewrite app_nil_r.
  - by rewrite IH, <- app_assoc.
Qed.

Lemma get_stock_data_map (src : Source) (rt : Runtime) (tickers : list string) :
  Cardview.get_stock_data src rt tickers = map (Cardview.stock_row src rt) tickers.
Proof. unfold Cardview.get_stock_data. by rewrite fold_left_snoc. Qed.

Lemma fetch_row_ticker (src : Source) (rt : Runtime) t r :
  Cardview.fetch_row src rt t = inr r ->
  row_get r "Ticker" = Some (VVal (PStr t)) /\ row_has r "Error" = false.
Proof.
  unfold Cardview.fetch_row. intros H.
  destruct (yf_info src t) as [|info0]; [discriminate H |]. cbn [bind] in H.
  destruct (yf_history src t "1m" "1d") as [|h]; [discriminate H |].
  cbn [bind] in H.
  destruct (the_info info0) as [|info]; [discriminate H |]. cbn [bind] in H.
  match type of H with
  | bind ?m _ = _ => destruct m as [|pc]; [discriminate H |]
  end.
  cbn [bind ret] in H. inversion H; subst r. split; reflexivity.
Qed.

(** The card watchlist isolates failures: one row per ticker, in the order
    of the input, an error row exactly for the tickers whose [try] body
    raised. *)
Lemma get_stock_data_isolates (src : Source) (rt : Runtime) (tickers : list string) :
  length (Cardview.get_stock_data src rt tickers) = length tickers
  /\ forall i t,
       tickers !! i = Some t ->
       exists r,
         Cardview.get_stock_data src rt tickers !! i = Some r
         /\ row_get r "Ticker" = Some (VVal (PStr t))
         /\ (forall e, Cardview.fetch_row src rt t = inl e ->
               r = [("Ticker", VVal (PStr t)); ("Error", VVal (PStr e))]%string)
         /\ (row_has r "Error" = true <-> exists e, Cardview.fetch_row src rt t = inl e).
Proof.
  rewrite get_stock_data_map. split; [apply length_map |].
  intros i t Hi. exists (Cardview.stock_row src rt t).
  split; [by rewrite list_lookup_fmap, Hi |].
  unfold Cardview.stock_row.
  destruct (Cardview.fetch_row src rt t) as [e|r] eqn:E.
  - repeat split; try reflexivity.
    + by intros e' [= <-].
    + eauto.
  - destruct (fetch_row_ticker src rt t r E) as [Ht He].
    repeat split; try assumption.
    + discriminate.
    + rewrite He. discriminate.
    + intros [e He']. discriminate He'.
Qed.

Lemma foldM_table_rows_abort (src : Source) (rt : Runtime) (tickers : list string) t e :
  t ∈ tickers ->
  Proto.table_row src rt t = inl e ->
  forall acc, exists e',
    foldM (fun data ticker =>
             let* r := Proto.table_row src rt ticker in ret (data ++ [r]))
          tickers acc = inl e'.
Proof.
  intros Hin Hfail. induction tickers as [|t0 tickers IH]; intros acc.
  - by apply elem_of_nil in Hin.
  - cbn [foldM].
    destruct (Proto.table_row src rt t0) as [e0|r0] eqn:E0.
    + exists e0. reflexivity.
    + apply elem_of_cons in Hin as [-> | Hin].
      * rewrite Hfail in E0. discriminate E0.
      * cbn [bind ret]. apply (IH Hin).
Qed.

Lemma table_row_fetch_failure (src : Source) (rt : Runtime) t e :
  yf_info src t = inl e -> Proto.table_row src rt t = inl e.
Proof. intros H. unfold Proto.table_row. by rewrite H. Qed.

Lemma latest_rsi_last (closes : list fl) x :
  closes <> [] ->
  last (calculate_rsi closes default_window) = Some x ->
  Proto.latest_rsi closes = ret (Some x).
Proof.
  intros Hne Hx. unfold Proto.latest_rsi. rewrite Hx.
  by destruct closes.
Qed.

End WatchlistFacts.

Section WatchlistTheorems.

Local Open Scope list_scope.

(** C3 holds for [get_stock_data] (see [get_stock_data_isolates]) and
    fails for the callback of proto.py, whose loop has no [try]: when the
    fetch or a computation raises for one of the tickers, the callback
    raises and no row is returned for any ticker. *)
Theorem update_table_aborts_on_one_failure (src : Source) (rt : Runtime)
    (n_clicks : option nat) (text : string) (t : string) (e : exn) :
  text <> ""%string ->
  t ∈ map Proto.strip (Proto.split_comma text) ->
  Proto.table_row src rt t = inl e ->
  exists e', Proto.update_table_and_dropdown src rt n_clicks (Some text) = inl e'.
Proof.
  intros Hne Hin Hfail. unfold Proto.update_table_and_dropdown.
  destruct text as [|c text]; [contradiction |].
  unfold Proto.table_rows.
  destruct (foldM_table_rows_abort src rt _ t e Hin Hfail []) as [e' He'].
  exists e'. by rewrite He'.
Qed.

Lemma update_table_aborts_on_one_failure_witness :
  exists e',
    Proto.update_table_and_dropdown one_bad_source sample_runtime None
      (Some "AAA,BAD,CCC"%string) = inl e'.
Proof.
  apply (update_table_aborts_on_one_failure one_bad_source sample_runtime None
           "AAA,BAD,CCC"%string "BAD"%string "HTTPError"%string).
  - discriminate.
  - vm_compute. apply list_elem_of_further, list_elem_of_here.
  - apply table_row_fetch_failure. reflexivity.
Defined.

(** The same input through both watchlists. *)
Lemma one_bad_ticker_in_both_watchlists :
  Proto.update_table_and_dropdown one_bad_source sample_runtime None
    (Some "AAA,BAD,CCC"%string) = inl "HTTPError"%string
  /\ (exists r1 r3,
        Cardview.get_stock_data one_bad_source sample_runtime
          ["AAA"; "BAD"; "CCC"]%string
        = [ r1;
            [("Ticker", VVal (PStr "BAD")); ("Error", VVal (PStr "HTTPError"))]%string;
            r3 ]
        /\ row_get r1 "Ticker" = Some (VVal (PStr "AAA"))
        /\ row_has r1 "Error" = false
        /\ row_get r3 "Ticker" = Some (VVal (PStr "CCC"))
        /\ row_has r3 "Error" = false).
Proof.
  split; [vm_compute; reflexivity |].
  eexists _, _. split; [vm_compute; reflexivity |].
  repeat split; reflexivity.
Qed.

(** C10. When the history is not empty and the latest RSI is exactly 0,
    the row's RSI field is the text "N/A": [round(rsi, 2) if rsi else
    "N/A"] takes the float 0.0 for false. *)
Theorem rsi_zero_is_rendered_NA (src : Source) (rt : Runtime) (ticker : string)
    (history : History) (x : fl) (r : row) :
  yf_history src ticker "1d" "1mo" = ret history ->
  history <> [] ->
  last (calculate_rsi (map b_close history) default_window) = Some x ->
  has_value x 0 ->
  Proto.table_row src rt ticker = ret r ->
  row_get r "RSI" = Some (VVal (PStr "N/A")).
Proof.
  intros Hh Hne Hlast Hzero Hrow.
  assert (Hc : map b_close history <> []) by (by destruct history).
  unfold Proto.table_row in Hrow.
  destruct (yf_info src ticker) as [|info0]; [discriminate Hrow |].
  cbn [bind] in Hrow. rewrite Hh in Hrow. cbn [bind ret] in Hrow.
  rewrite (latest_rsi_last _ x Hc Hlast) in Hrow.
  repeat match type of Hrow with
         | bind ?m _ = _ =>
             destruct m; [discriminate Hrow |]; cbn [bind ret] in Hrow
         end.
  inversion Hrow; subst r. cbn.
  do 2 f_equal. unfold Proto.rsi_field.
  destruct x as [q| | |]; try contradiction. simpl in Hzero.
  unfold truthy, is_zero. by rewrite (Qeq_eq_bool _ _ Hzero).
Qed.

Lemma rsi_zero_is_rendered_NA_witness :
  row_get
    [ ("Ticker", VVal (PStr "AAA")); ("Company Name", VVal (PStr "AAA"));
      ("Current Price", VVal (PFloat (Fin (600 # 100))));
      ("Day Range", VVal (PStr "0 - 0")); ("52W Range", VVal (PStr "0 - 0"));
      ("Close - Open", VVal (PStr "6.0 - 6.0")); ("Beta", VVal (PStr "N/A"));
      ("Trading Volume", VVal (PStr "1,234,567"));
      ("RSI", VVal (PStr "N/A")) ]%string "RSI"
  = Some (VVal (PStr "N/A")).
Proof.
  apply (rsi_zero_is_rendered_NA one_bad_source sample_runtime "AAA"%string
           falling_history (Fin (0 # 196))).
  - reflexivity.
  - discriminate.
  - vm_compute. reflexivity.
  - vm_compute. reflexivity.
  - vm_compute. reflexivity.
Defined.

End WatchlistTheorems.

(** * Further properties of the code *)

(** ** The statement normaliser *)

Section NormalizeMore.

Local Open Scope Q_scope.
Local Open Scope list_scope.

Lemma fst_zip_take {A B} (l : list A) (k : list B) :
  map fst (zip l k) = take (length k) l.
Proof.
  revert k. induction l as [|a l IH]; intros [|b k]; try reflexivity.
  cbn [zip zip_with map length take]. by rewrite <- IH.
Qed.

Lemma columns_assembled (raw : RawStatement) :
  columns (assembled raw)
  = LName "index"
      :: map LPeriod (map fst (periods raw))
      ++ map (fun t => LPct (LPeriod t))
             (take (length (periods raw) - 2) (tail (map fst (periods raw)))).
Proof.
  unfold assembled, columns. cbn [map fst]. f_equal.
  rewrite map_app, !map_map. f_equal.
  unfold adjacent.
  replace (map (fun x => (change_column x).1)
               (zip (tail (periods raw)) (tail (tail (periods raw)))))
    with (map (fun p : Z * list (option Q) => LPct (LPeriod p.1))
              (map fst (zip (tail (periods raw)) (tail (tail (periods raw))))))
    by (by rewrite map_map).
  rewrite fst_zip_take, !length_tl.
  destruct (periods raw) as [|p0 rest]; [reflexivity |].
  cbn [tail map length]. rewrite <- fmap_take, map_map.
  by replace (S (length rest) - 1 - 1)%nat with (S (length rest) - 2)%nat by lia.
Qed.

(** The normaliser does not raise, and it puts the change columns to the
    right of all period columns: the frame is the index, the periods in the
    order of the input, then the change columns of the periods 1 to n-2. *)
Theorem normalize_column_layout (raw : RawStatement) :
  NoDup (map fst (periods raw)) ->
  exists df,
    normalize raw = ret df
    /\ columns df
       = LName "index"
           :: map LPeriod (map fst (periods raw))
           ++ map (fun t => LPct (LPeriod t))
                  (take (length (periods raw) - 2)
                        (tail (map fst (periods raw)))).
Proof.
  intros Hnd. exists (df_reverse (assembled raw)).
  split; [by apply normalize_assembled |].
  by rewrite columns_reverse, columns_assembled.
Qed.

Lemma normalize_column_layout_witness :
  exists df,
    normalize three_periods = ret df
    /\ columns df
       = [ LName "index"; LPeriod 2023; LPeriod 2022; LPeriod 2021;
           LPct (LPeriod 2022) ].
Proof.
  apply (normalize_column_layout three_periods).
  apply (bool_decide_unpack _). vm_compute. reflexivity.
Defined.

Lemma filled_fill (o : option Q) : filled (Some (filled o)) = filled o.
Proof. reflexivity. Qed.

Lemma zip_with_filled {C} (g : option Q -> option Q -> C) (a b : list (option Q)) :
  (forall x y, g (Some (filled x)) (Some (filled y)) = g x y) ->
  zip_with g (map (fun o => Some (filled o)) a) (map (fun o => Some (filled o)) b)
  = zip_with g a b.
Proof.
  intros Hg. revert b. induction a as [|x a IH]; intros [|y b]; try reflexivity.
  cbn [map zip_with]. by rewrite Hg, IH.
Qed.

Lemma assembled_fill_raw (raw : RawStatement) :
  assembled (fill_raw raw) = assembled raw.
Proof.
  unfold assembled, fill_raw. cbn [line_items periods]. f_equal. f_equal.
  - rewrite map_map. apply map_ext. intros p.
    unfold period_column. cbn [fst snd]. f_equal. by rewrite map_map.
  - unfold adjacent.
    set (f := fun p : Z * list (option Q) =>
                (p.1, map (fun o => Some (filled o)) p.2)).
    assert (Ht : forall l : list (Z * list (option Q)), tail (map f l) = map f (tail l))
      by (by intros [|? ?]).
    rewrite !Ht.
    generalize (tail (periods raw)) (tail (tail (periods raw))).
    induction l as [|c l IH]; intros [|p k]; try reflexivity.
    cbn [map zip zip_with]. f_equal; [| apply IH].
    unfold change_column, f. cbn [fst snd]. f_equal.
    by apply zip_with_filled.
Qed.

(** A missing cell is the same as a zero: the frame of a statement and of
    the statement with zeros for its missing cells are equal. *)
Theorem normalize_missing_is_zero (raw : RawStatement) :
  NoDup (map fst (periods raw)) ->
  normalize raw = normalize (fill_raw raw).
Proof.
  intros Hnd. rewrite (normalize_assembled raw Hnd).
  rewrite (normalize_assembled (fill_raw raw)).
  - by rewrite assembled_fill_raw.
  - unfold fill_raw. cbn [periods]. by rewrite map_map.
Qed.

Lemma normalize_missing_is_zero_witness :
  normalize three_periods = normalize (fill_raw three_periods).
Proof.
  apply (normalize_missing_is_zero three_periods).
  apply (bool_decide_unpack _). vm_compute. reflexivity.
Defined.

(** On a rectangular statement every column of the frame, the change
    columns included, has one cell per line item. *)
Theorem normalize_keeps_row_count (raw : RawStatement) :
  NoDup (map fst (periods raw)) ->
  rectangular raw ->
  exists df,
    normalize raw = ret df
    /\ Forall (fun c => length c.2 = length (line_items raw)) df.
Proof.
  intros Hnd Hrect. exists (df_reverse (assembled raw)).
  split; [by apply normalize_assembled |].
  unfold rectangular in Hrect. rewrite Forall_forall in Hrect.
  unfold df_reverse. rewrite Forall_fmap. apply Forall_forall.
  intros c Hc. simpl. rewrite length_reverse.
  unfold assembled in Hc. apply elem_of_cons in Hc as [-> | Hc].
  - cbn [snd]. apply length_map.
  - apply elem_of_app in Hc as [Hc | Hc].
    + apply list_elem_of_fmap in Hc as [p [-> Hp]].
      unfold period_column. cbn [snd]. rewrite length_map. by apply Hrect.
    + apply list_elem_of_fmap in Hc as [[a b] [-> Hab]].
      unfold change_column. cbn [fst snd]. rewrite length_zip_with.
      assert (Ha : a ∈ periods raw).
      { apply elem_of_zip_l in Hab.
        destruct (periods raw); [by apply elem_of_nil in Hab |].
        by apply elem_of_cons; right. }
      assert (Hb : b ∈ periods raw).
      { apply elem_of_zip_r in Hab.
        destruct (periods raw) as [|p0 [|p1 rest]];
          try (by apply elem_of_nil in Hab).
        apply elem_of_cons; right. by apply elem_of_cons; right. }
      rewrite (Hrect a Ha), (Hrect b Hb). lia.
Qed.

Lemma normalize_keeps_row_count_witness :
  exists df,
    normalize three_periods = ret df
    /\ Forall (fun c => length c.2 = length (line_items three_periods)) df.
Proof.
  apply (normalize_keeps_row_count three_periods).
  - apply (bool_decide_unpack _). vm_compute. reflexivity.
  - repeat constructor.
Defined.

(** The change is measured against the magnitude of the previous value, so
    its sign is that of current - previous also when the previous value is
    negative: a rise never shows as a negative percentage nor a fall as a
    positive one, and no change is 0. *)
Theorem pct_change_sign (cur prev : Q) :
  ~ prev == 0 ->
  exists z : Z,
    pct_change (Fin cur) (Fin prev) = Fin (inject_Z z)
    /\ (prev <= cur -> (0 <= z)%Z)
    /\ (cur <= prev -> (z <= 0)%Z).
Proof.
  intros Hprev. exists (pct_value cur prev).
  split; [apply pct_change_finite |].
  unfold pct_value.
  destruct (Qeq_bool prev 0) eqn:E; [apply Qeq_bool_eq in E; contradiction |].
  assert (Habs : 0 < Qabs prev).
  { pose proof (Qabs_nonneg prev) as H.
    apply Qle_lteq in H as [H | H]; [exact H |].
    exfalso. apply Hprev. symmetry in H.
    assert (Hz : Qabs prev <= 0) by lra.
    apply Qabs_Qle_condition in Hz. lra. }
  split; intros H.
  - apply round_half_even_nonneg.
    apply Qmult_le_0_compat; [| lra].
    apply Qle_shift_div_l; [exact Habs | lra].
  - apply round_half_even_nonpos.
    assert (Hq : (cur - prev) / Qabs prev <= 0).
    { apply Qle_shift_div_r; [exact Habs | lra]. }
    assert (E' : (cur - prev) / Qabs prev * 100
                 == - ((- ((cur - prev) / Qabs prev)) * 100)) by ring.
    rewrite E'.
    assert (0 <= - ((cur - prev) / Qabs prev) * 100)
      by (apply Qmult_le_0_compat; lra).
    lra.
Qed.

Lemma pct_change_sign_witness :
  exists z : Z,
    pct_change (Fin (50 # 1)) (Fin (- 100 # 1)) = Fin (inject_Z z)
    /\ (- 100 # 1 <= 50 # 1 -> (0 <= z)%Z)
    /\ (50 # 1 <= - 100 # 1 -> (z <= 0)%Z).
Proof.
  apply (pct_change_sign (50 # 1) (- 100 # 1)).
  intros H. discriminate H.
Defined.

End NormalizeMore.

(** ** The indicator *)

Section RSIMore.

Local Open Scope Q_scope.
Local Open Scope list_scope.

Lemma rsi_value_ratio (g l : Q) :
  0 <= g -> 0 < l ->
  exists q, rsi_value g l = Fin q /\ q == 100 * g / (g + l) /\ 0 <= q < 100.
Proof.
  intros Hg Hl. unfold rsi_value, div.
  assert (E : Qeq_bool l 0 = false).
  { apply not_true_iff_false. intros H. apply Qeq_bool_eq in H. lra. }
  rewrite E. cbn [add].
  assert (Hq : 0 <= g / l) by (apply Qle_shift_div_l; [exact Hl | lra]).
  assert (E1 : Qeq_bool (1 + g / l) 0 = false).
  { apply not_true_iff_false. intros H. apply Qeq_bool_eq in H. lra. }
  rewrite E1. eexists. split; [reflexivity |].
  assert (Hr : 100 + - (100 / (1 + g / l)) == 100 * g / (g + l)).
  { field. split; lra. }
  split; [exact Hr |]. rewrite Hr. split.
  - apply Qle_shift_div_l; lra.
  - apply Qlt_shift_div_r; lra.
Qed.

(** Whatever the closes and the window, every value of the indicator of a
    finite series is undefined or lies in [0, 100]. *)
Theorem calculate_rsi_in_range (qs : list Q) (w : nat) :
  Forall in_rsi_range (calculate_rsi (map Fin qs) w).
Proof.
  apply Forall_lookup. intros i x Hx.
  assert (Hi : (i < length qs)%nat).
  { apply lookup_lt_Some in Hx.
    by rewrite length_calculate_rsi, length_map in Hx. }
  rewrite calculate_rsi_Fin in Hx by exact Hi.
  destruct (decide (1 <= w <= i + 1)%nat) as [Hw | Hw];
    [| inversion Hx; by left].
  inversion Hx as [Hx']. clear Hx.
  destruct (window_means_sign qs w i Hi Hw) as (Hg & Hl & Ng & Nl).
  destruct (Qmean_sign _ Ng) as (G1 & G2 & G3 & G4).
  destruct (Qmean_sign _ Nl) as (L1 & L2 & L3 & L4).
  destruct (Qlt_le_dec 0 (Qsum (window w (losses qs) i))) as [Lp | Lz].
  - destruct (rsi_value_ratio _ _ (G1 Hg) (L3 Lp)) as (q & Hq & _ & Hb).
    right. exists q. split; [exact Hq | lra].
  - assert (L0 : Qsum (window w (losses qs) i) == 0) by lra.
    destruct (Qlt_le_dec 0 (Qsum (window w (gains qs) i))) as [Gp | Gz].
    + pose proof (rsi_value_no_loss _ _ (G3 Gp) (L2 L0)) as Hv.
      destruct (rsi_value _ _) as [q| | |]; try contradiction.
      right. exists q. split; [reflexivity |]. simpl in Hv. lra.
    + left. apply rsi_value_no_change; [apply G2; lra | apply L2, L0].
Qed.

(** In a full window with a loss the averages cancel: the value is
    100 * G / (G + L) for the sums G of the gains and L of the losses of
    the window. *)
Theorem calculate_rsi_is_gain_share (qs : list Q) (w i : nat) :
  (i < length qs)%nat -> (1 <= w <= i + 1)%nat ->
  0 < Qsum (window w (losses qs) i) ->
  exists x,
    calculate_rsi (map Fin qs) w !! i = Some x
    /\ has_value x (100 * Qsum (window w (gains qs) i)
                      / (Qsum (window w (gains qs) i)
                         + Qsum (window w (losses qs) i))).
Proof.
  intros Hi Hw Lp. rewrite calculate_rsi_Fin by exact Hi.
  rewrite decide_True by exact Hw.
  destruct (window_means_sign qs w i Hi Hw) as (Hg & Hl & Ng & Nl).
  destruct (Qmean_sign _ Ng) as (G1 & G2 & G3 & G4).
  destruct (Qmean_sign _ Nl) as (L1 & L2 & L3 & L4).
  destruct (rsi_value_ratio _ _ (G1 Hg) (L3 Lp)) as (q & Hq & Hr & _).
  rewrite Hq. eexists. split; [reflexivity |]. simpl. rewrite Hr.
  unfold Qmean.
  assert (Hn : length (window w (gains qs) i) = length (window w (losses qs) i)).
  { rewrite !length_window by (by rewrite ?length_gains, ?length_losses).
    reflexivity. }
  rewrite Hn.
  assert (Hd : 0 < inject_Z (Z.of_nat (length (window w (losses qs) i)))).
  { change 0 with (inject_Z 0). rewrite <- Zlt_Qlt. lia. }
  field. split; lra.
Qed.

Lemma calculate_rsi_is_gain_share_witness :
  exists x,
    calculate_rsi (map Fin [10 # 1; 12 # 1; 11 # 1; 14 # 1]) 3 !! 3%nat = Some x
    /\ has_value x (100 * Qsum (window 3 (gains [10 # 1; 12 # 1; 11 # 1; 14 # 1]) 3)
                      / (Qsum (window 3 (gains [10 # 1; 12 # 1; 11 # 1; 14 # 1]) 3)
                         + Qsum (window 3 (losses [10 # 1; 12 # 1; 11 # 1; 14 # 1]) 3))).
Proof.
  apply (calculate_rsi_is_gain_share [10 # 1; 12 # 1; 11 # 1; 14 # 1] 3 3).
  - simpl. lia.
  - lia.
  - reflexivity.
Defined.

Lemma falling_closes_decreasing : strictly_decreasing falling_closes.
Proof.
  intros j a b Ha Hb. unfold falling_closes in *.
  rewrite list_lookup_fmap in Ha, Hb.
  destruct (seq 0 15 !! j) as [n|] eqn:En; [| discriminate Ha].
  destruct (seq 0 15 !! S j) as [m|] eqn:Em; [| discriminate Hb].
  apply lookup_seq in En as [-> _]. apply lookup_seq in Em as [-> _].
  simpl in Ha, Hb. inversion Ha; inversion Hb; subst.
  rewrite <- Zlt_Qlt. lia.
Defined.

Lemma calculate_rsi_only_losses_witness :
  exists x,
    calculate_rsi (map Fin falling_closes) 14 !! 14%nat = Some x
    /\ has_value x 0.
Proof.
  apply (calculate_rsi_only_losses falling_closes 14 14).
  - exact falling_closes_decreasing.
  - vm_compute. lia.
  - lia.
  - lia.
Defined.

(** A position without a full window is undefined for every series, the
    values NaN and the infinities included. *)
Lemma calculate_rsi_short_window (data : list fl) (w i : nat) :
  (i < length data)%nat -> (i + 1 < w)%nat ->
  calculate_rsi data w !! i = Some NaN.
Proof.
  intros Hi Hw.
  assert (Hroll : forall s : list fl, (i < length s)%nat ->
            rolling_mean w s !! i = Some NaN).
  { intros s Hs. unfold rolling_mean. rewrite list_lookup_imap.
    destruct (lookup_lt_is_Some_2 s i Hs) as [y Hy]. rewrite Hy. simpl.
    f_equal. unfold window_mean.
    rewrite decide_False; [reflexivity |].
    intros [Hle _].
    pose proof (length_filter (fun x => is_finite x = true) (window_at w s i)) as Hf.
    unfold window_at in Hf, Hle. rewrite length_drop, length_take in Hf. lia. }
  assert (Hd : length (diff data) = length data).
  { destruct data as [|x data]; [reflexivity |].
    unfold diff. cbn [length]. rewrite length_zip_with. simpl. lia. }
  unfold calculate_rsi.
  rewrite list_lookup_fmap, lookup_zip_with.
  rewrite !Hroll by (unfold where_or0; rewrite ?length_map; lia).
  reflexivity.
Qed.

End RSIMore.

(** ** The input text of the watchlists *)

Section TextInput.

Local Open Scope list_scope.

Lemma split_comma_cons (s : string) :
  exists x rest, Proto.split_comma s = x :: rest.
Proof.
  destruct s as [|c s]; simpl; [eauto |].
  destruct (Ascii.eqb c ","); [eauto |].
  destruct (Proto.split_comma s); eauto.
Qed.

Lemma join_comma_cons (x : string) (y : string) (rest : list string) :
  join_comma (x :: y :: rest) = (x ++ "," ++ join_comma (y :: rest))%string.
Proof. reflexivity. Qed.

Lemma join_comma_push (c : ascii) (x : string) (rest : list string) :
  join_comma (String c x :: rest) = String c (join_comma (x :: rest)).
Proof. destruct rest; reflexivity. Qed.

(** Splitting at the commas loses nothing: joining the pieces with commas
    gives the text back; there is one piece more than there are commas (so
    at least one, and blank entries are kept); no piece holds a comma. *)
Theorem split_comma_round_trip (s : string) :
  join_comma (Proto.split_comma s) = s
  /\ length (Proto.split_comma s) = S (count_commas s)
  /\ Forall (fun piece => has_comma piece = false) (Proto.split_comma s).
Proof.
  induction s as [|c s (IH1 & IH2 & IH3)]; [repeat split; repeat constructor |].
  destruct (split_comma_cons s) as (x & rest & E).
  cbn [Proto.split_comma count_commas has_comma].
  rewrite E in *. destruct (Ascii.eqb c ",") eqn:Ec.
  - apply Ascii.eqb_eq in Ec. subst c. repeat split.
    + rewrite join_comma_cons, IH1. reflexivity.
    + cbn [length Nat.add] in *. lia.
    + constructor; [reflexivity | exact IH3].
  - repeat split.
    + by rewrite join_comma_push, IH1.
    + cbn [length Nat.add] in *. lia.
    + inversion_clear IH3 as [|? ? Hx Hrest]. constructor; [| exact Hrest].
      cbn [has_comma]. by rewrite Ec, Hx.
Qed.

(** *** strip *)

Lemma drop_prefix_Some (w l r : list ascii) :
  Proto.drop_prefix w l = Some r <-> l = w ++ r.
Proof.
  revert l. induction w as [|a w IH]; intros l; cbn [Proto.drop_prefix app].
  - split; [by intros [= ->] | by intros ->].
  - destruct l as [|b l]; [split; discriminate |].
    destruct (Ascii.eqb a b) eqn:E.
    + apply Ascii.eqb_eq in E. subst b. rewrite IH.
      split; [by intros -> | by intros [= ->]].
    + apply Ascii.eqb_neq in E. split; [discriminate |].
      intros [= -> _]. contradiction.
Qed.

Lemma first_match_Some (ws : list (list ascii)) (l r : list ascii) :
  Proto.first_match ws l = Some r -> exists w, w ∈ ws /\ l = w ++ r.
Proof.
  induction ws as [|w ws IH]; cbn [Proto.first_match]; [discriminate |].
  destruct (Proto.drop_prefix w l) as [r'|] eqn:E.
  - intros [= ->]. exists w. split; [by left | by apply drop_prefix_Some].
  - intros H. destruct (IH H) as (w' & Hw' & Hl). exists w'. split; [by right | exact Hl].
Qed.

Lemma first_match_None (ws : list (list ascii)) (l : list ascii) :
  Proto.first_match ws l = None <-> forall w r, w ∈ ws -> l <> w ++ r.
Proof.
  induction ws as [|w ws IH]; cbn [Proto.first_match].
  - split; [| reflexivity]. intros _ w r Hw. by apply elem_of_nil in Hw.
  - destruct (Proto.drop_prefix w l) as [r'|] eqn:E.
    + split; [discriminate |]. intros H. exfalso.
      apply drop_prefix_Some in E. apply (H w r'); [by left | exact E].
    + rewrite IH. split.
      * intros H w' r Hw'. apply elem_of_cons in Hw' as [-> | Hw'].
        -- intros Hl. apply drop_prefix_Some in Hl. congruence.
        -- by apply H.
      * intros H w' r Hw'. apply H. by right.
Qed.

(** The loop removes a run of the characters of [ws] and stops at a text
    that starts with none of them. *)
Lemma lstrip_with_spec (ws : list (list ascii)) :
  Forall (fun w => w <> []) ws ->
  forall n l,
    (length l <= n)%nat ->
    exists pre,
      l = concat pre ++ Proto.lstrip_with ws n l
      /\ Forall (fun w => w ∈ ws) pre
      /\ Proto.first_match ws (Proto.lstrip_with ws n l) = None.
Proof.
  intros Hne. rewrite Forall_forall in Hne.
  induction n as [|n IH]; intros l Hl.
  - destruct l as [|a l]; [| simpl in Hl; lia].
    exists []. repeat split; [constructor |].
    apply first_match_None. intros w r Hw E.
    symmetry in E. apply app_eq_nil in E as [-> _]. by apply (Hne [] Hw).
  - cbn [Proto.lstrip_with].
    destruct (Proto.first_match ws l) as [r|] eqn:E.
    + destruct (first_match_Some ws l r E) as (w & Hw & ->).
      assert (Hw0 : w <> []) by (by apply Hne).
      destruct (IH r) as (pre & Hr & Hpre & Hnone).
      { rewrite length_app in Hl. destruct w; [contradiction | simpl in Hl; lia]. }
      exists (w :: pre). split; [| split].
      * cbn [concat]. rewrite <- app_assoc. by rewrite <- Hr.
      * by constructor.
      * exact Hnone.
    + exists []. by repeat split.
Qed.

Lemma lstrip_with_id (ws : list (list ascii)) (n : nat) (l : list ascii) :
  Proto.first_match ws l = None -> Proto.lstrip_with ws n l = l.
Proof. intros H. destruct n; cbn [Proto.lstrip_with]; [reflexivity | by rewrite H]. Qed.

Lemma spaces_nonempty : Forall (fun w : list ascii => w <> []) Proto.spaces.
Proof. apply (bool_decide_unpack _). vm_compute. reflexivity. Qed.

Lemma reversed_spaces_nonempty :
  Forall (fun w : list ascii => w <> []) (map reverse Proto.spaces).
Proof. apply (bool_decide_unpack _). vm_compute. reflexivity. Qed.

Lemma reverse_concat {A} (ls : list (list A)) :
  reverse (concat ls) = concat (reverse (map reverse ls)).
Proof.
  induction ls as [|x ls IH]; [reflexivity |].
  cbn [concat map]. rewrite reverse_app, reverse_cons, concat_app, IH.
  cbn [concat]. by rewrite app_nil_r.
Qed.

(** The characters of the stripped text. *)
Lemma strip_chars (s : string) :
  list_ascii_of_string (Proto.strip s)
  = Proto.rstrip_chars (Proto.lstrip_chars (list_ascii_of_string s)).
Proof. unfold Proto.strip. by rewrite list_ascii_of_string_of_list_ascii. Qed.

Lemma strip_chars_spec (l : list ascii) :
  let core := Proto.rstrip_chars (Proto.lstrip_chars l) in
  (exists pre post, l = pre ++ core ++ post /\ white pre /\ white post)
  /\ Proto.first_match Proto.spaces core = None
  /\ Proto.first_match (map reverse Proto.spaces) (reverse core) = None.
Proof.
  intros core. subst core. unfold Proto.rstrip_chars, Proto.lstrip_chars.
  destruct (lstrip_with_spec Proto.spaces spaces_nonempty (length l) l (le_n _))
    as (pre & Hl & Hpre & Ht).
  set (t := Proto.lstrip_with Proto.spaces (length l) l) in *.
  destruct (lstrip_with_spec (map reverse Proto.spaces) reversed_spaces_nonempty
              (length t) (reverse t))
    as (post & Hr & Hpost & Hu).
  { by rewrite length_reverse. }
  set (u := Proto.lstrip_with (map reverse Proto.spaces) (length t) (reverse t)) in *.
  assert (Et : t = reverse u ++ concat (reverse (map reverse post))).
  { rewrite <- (reverse_involutive t), Hr, reverse_app. by rewrite reverse_concat. }
  split; [| split].
  - exists (concat pre), (concat (reverse (map reverse post))).
    split; [by rewrite <- Et |]. split.
    + by exists pre.
    + eexists. split; [| reflexivity].
      apply Forall_reverse, Forall_fmap. eapply Forall_impl; [exact Hpost |].
      intros w Hw. cbn. apply list_elem_of_fmap in Hw as (w0 & -> & Hw0).
      by rewrite reverse_involutive.
  - apply first_match_None. intros w r Hw E.
    apply first_match_None with (w := w) (r := r ++ concat (reverse (map reverse post)))
      in Ht; [| exact Hw].
    apply Ht. rewrite Et, E. by rewrite <- app_assoc.
  - by rewrite reverse_involutive.
Qed.

(** [strip] removes white space at the two ends and nothing else: the text
    is the stripped text between two runs of white-space characters, the
    stripped text neither starts nor ends with a white-space character,
    and stripping twice is stripping once. *)
Theorem strip_removes_outer_space (s : string) :
  (exists pre post,
     list_ascii_of_string s = pre ++ list_ascii_of_string (Proto.strip s) ++ post
     /\ white pre /\ white post)
  /\ ~ starts_with_space (list_ascii_of_string (Proto.strip s))
  /\ ~ ends_with_space (list_ascii_of_string (Proto.strip s))
  /\ Proto.strip (Proto.strip s) = Proto.strip s.
Proof.
  rewrite strip_chars.
  destruct (strip_chars_spec (list_ascii_of_string s)) as (Hsplit & Hhead & Hlast).
  set (core := Proto.rstrip_chars (Proto.lstrip_chars (list_ascii_of_string s))) in *.
  split; [exact Hsplit |]. split; [| split].
  - intros (w & r & Hw & E).
    by apply (proj1 (first_match_None _ _) Hhead w r Hw).
  - intros (w & r & Hw & E).
    apply (proj1 (first_match_None _ _) Hlast (reverse w) (reverse r)).
    + apply list_elem_of_fmap. by exists w.
    + by rewrite E, reverse_app.
  - unfold Proto.strip at 1. rewrite strip_chars. fold core.
    unfold Proto.strip. fold core. f_equal.
    unfold Proto.lstrip_chars. rewrite (lstrip_with_id _ _ _ Hhead).
    unfold Proto.rstrip_chars. rewrite (lstrip_with_id _ _ _ Hlast).
    apply reverse_involutive.
Qed.

(** Non-breaking spaces (U+00A0) around a ticker are stripped with the
    blanks. *)
Lemma strip_non_breaking_space :
  Proto.strip (String (ascii_of_nat 194) (String (ascii_of_nat 160)
                 (" AAA " ++ String (ascii_of_nat 194)
                                    (String (ascii_of_nat 160) ""))))
  = "AAA"%string.
Proof. vm_compute. reflexivity. Qed.

End TextInput.

(** ** The RSI table and the charts of proto.py *)

Section ProtoMore.

Local Open Scope list_scope.

Lemma foldM_snoc {A B} (f : A -> result B) (l : list A) (rs acc : list B) :
  Forall2 (fun t r => f t = inr r) l rs ->
  foldM (fun data t => let* r := f t in ret (data ++ [r])) l acc
  = ret (acc ++ rs).
Proof.
  intros H. revert acc. induction H as [|t r l rs Ht _ IH]; intros acc.
  - by rewrite app_nil_r.
  - cbn [foldM]. rewrite Ht. cbn [bind ret]. rewrite IH.
    by rewrite <- app_assoc.
Qed.

Lemma all_succeed {A B} (f : A -> result B) (l : list A) :
  (forall t, t ∈ l -> exists r, f t = inr r) ->
  exists rs, Forall2 (fun t r => f t = inr r) l rs.
Proof.
  induction l as [|t l IH]; intros H; [by exists [] |].
  destruct (H t) as [r Hr]; [left |].
  destruct IH as [rs Hrs]; [intros t' Ht'; apply H; by right |].
  exists (r :: rs). by constructor.
Qed.

Lemma table_row_shape (src : Source) (rt : Runtime) (t : string) (r : row) :
  Proto.table_row src rt t = inr r ->
  map fst r = Proto.table_columns
  /\ row_get r "Ticker" = Some (VVal (PStr t)).
Proof.
  unfold Proto.table_row. intros H.
  repeat match type of H with
         | bind ?m _ = _ =>
             destruct m; [discriminate H |]; cbn [bind ret] in H
         end.
  inversion H; subst r. split; reflexivity.
Qed.

(** When the row of every ticker can be built, the callback returns one
    row per ticker in the order of the input, each with exactly the nine
    declared columns as its keys and its ticker under "Ticker", together
    with the nine column descriptions and one dropdown option per
    ticker. *)
Theorem update_table_rows_match_columns (src : Source) (rt : Runtime)
    (n_clicks : option nat) (text : string) :
  text <> ""%string ->
  (forall t, t ∈ tickers_of text -> exists r, Proto.table_row src rt t = inr r) ->
  exists data,
    Proto.update_table_and_dropdown src rt n_clicks (Some text)
    = ret (data, map (fun c => (c, c)) Proto.table_columns,
           map (fun t => (t, t)) (tickers_of text))
    /\ Forall2 (fun t r =>
                  Proto.table_row src rt t = inr r
                  /\ map fst r = Proto.table_columns
                  /\ row_get r "Ticker" = Some (VVal (PStr t)))
               (tickers_of text) data.
Proof.
  intros Hne Hall.
  destruct (all_succeed _ _ Hall) as [data Hdata].
  exists data. split.
  - unfold Proto.update_table_and_dropdown.
    destruct text as [|c text]; [contradiction |].
    unfold Proto.table_rows. fold (tickers_of (String c text)).
    by rewrite (foldM_snoc _ _ data [] Hdata).
  - eapply Forall2_impl; [exact Hdata |].
    intros t r Hr. split; [exact Hr |]. by apply (table_row_shape src rt).
Qed.

Lemma update_table_rows_match_columns_witness :
  exists data,
    Proto.update_table_and_dropdown short_source sample_runtime None
      (Some " AAA ,MSFT"%string)
    = ret (data, map (fun c => (c, c)) Proto.table_columns,
           map (fun t => (t, t)) (tickers_of " AAA ,MSFT"))
    /\ Forall2 (fun t r =>
                  Proto.table_row short_source sample_runtime t = inr r
                  /\ map fst r = Proto.table_columns
                  /\ row_get r "Ticker" = Some (VVal (PStr t)))
               (tickers_of " AAA ,MSFT") data.
Proof.
  apply (update_table_rows_match_columns short_source sample_runtime None
           " AAA ,MSFT"%string).
  - discriminate.
  - intros t _. eexists. vm_compute. reflexivity.
Defined.

Lemma last_calculate_rsi_short (closes : list fl) :
  closes <> [] -> (length closes < 14)%nat ->
  last (calculate_rsi closes default_window) = Some NaN.
Proof.
  intros Hne Hlen. rewrite last_lookup, length_calculate_rsi.
  apply calculate_rsi_short_window; unfold default_window;
    destruct closes; [contradiction | simpl; lia | contradiction | simpl in *; lia].
Qed.

(** With a history of fewer than 14 samples the RSI field of the row is
    the float NaN, not the text "N/A": NaN is not falsy. *)
Theorem short_history_rsi_is_nan (src : Source) (rt : Runtime) (ticker : string)
    (history : History) (r : row) :
  yf_history src ticker "1d" "1mo" = ret history ->
  history <> [] ->
  (length history < 14)%nat ->
  Proto.table_row src rt ticker = ret r ->
  row_get r "RSI" = Some (VVal (PFloat NaN)).
Proof.
  intros Hh Hne Hlen Hrow.
  assert (Hc : map b_close history <> []) by (by destruct history).
  assert (Hlast : last (calculate_rsi (map b_close history) default_window)
                  = Some NaN).
  { apply last_calculate_rsi_short; [exact Hc | by rewrite length_map]. }
  unfold Proto.table_row in Hrow.
  destruct (yf_info src ticker) as [|info0]; [discriminate Hrow |].
  cbn [bind] in Hrow. rewrite Hh in Hrow. cbn [bind ret] in Hrow.
  rewrite (latest_rsi_last _ NaN Hc Hlast) in Hrow.
  repeat match type of Hrow with
         | bind ?m _ = _ =>
             destruct m; [discriminate Hrow |]; cbn [bind ret] in Hrow
         end.
  inversion Hrow; subst r. reflexivity.
Qed.

Lemma short_history_rsi_is_nan_witness :
  row_get
    [ ("Ticker", VVal (PStr "AAA")); ("Company Name", VVal (PStr "AAA"));
      ("Current Price", VVal (PFloat (Fin (600 # 100))));
      ("Day Range", VVal (PStr "0 - 0")); ("52W Range", VVal (PStr "0 - 0"));
      ("Close - Open", VVal (PStr "23.0 - 23.0")); ("Beta", VVal (PStr "N/A"));
      ("Trading Volume", VVal (PStr "1,234,567"));
      ("RSI", VVal (PFloat NaN)) ]%string "RSI"
  = Some (VVal (PFloat NaN)).
Proof.
  apply (short_history_rsi_is_nan short_source sample_runtime "AAA"%string
           short_history).
  - reflexivity.
  - discriminate.
  - vm_compute. lia.
  - vm_compute. reflexivity.
Defined.

(** Whenever the charts are built, every trace of the two figures has one
    value per timestamp (the RSI trace included), the indicator figure is
    the single RSI trace, and the price figure ends with the volume
    bars. *)
Theorem update_charts_traces_aligned (src : Source)
    (ticker interval duration chart : option string)
    (fig_main fig_indicator : Charts.figure) :
  Charts.update_charts src ticker interval duration chart
  = ret (fig_main, fig_indicator) ->
  Forall trace_aligned (Charts.fig_traces fig_main)
  /\ Forall trace_aligned (Charts.fig_traces fig_indicator)
  /\ (length (Charts.fig_traces fig_indicator) <= 1)%nat
  /\ (Charts.fig_traces fig_main = []
      \/ exists x y colors,
           last (Charts.fig_traces fig_main) = Some (Charts.Bar x y colors)).
Proof.
  unfold Charts.update_charts. intros H.
  assert (Hempty : ret (Charts.empty_figure, Charts.empty_figure)
                   = ret (fig_main, fig_indicator) ->
                   Forall trace_aligned (Charts.fig_traces fig_main)
                   /\ Forall trace_aligned (Charts.fig_traces fig_indicator)
                   /\ (length (Charts.fig_traces fig_indicator) <= 1)%nat
                   /\ (Charts.fig_traces fig_main = []
                       \/ exists x y colors,
                            last (Charts.fig_traces fig_main)
                            = Some (Charts.Bar x y colors))).
  { intros E. inversion E; subst. simpl. repeat split; auto. }
  destruct ticker as [t|]; [| by apply Hempty].
  destruct interval as [i|]; [| by apply Hempty].
  destruct duration as [d|]; [| by apply Hempty].
  destruct chart as [c|]; [| by apply Hempty].
  destruct (Charts.missing (Some t) || Charts.missing (Some i)
            || Charts.missing (Some d) || Charts.missing (Some c));
    [by apply Hempty |].
  destruct (yf_history src t i d) as [e|history]; [discriminate H |].
  cbn [bind ret] in H. inversion H; subst. clear H Hempty. cbn [Charts.fig_traces].
  split; [| split; [| split]].
  - apply Forall_app. split.
    + destruct (String.eqb c "line"); [| destruct (String.eqb c "candlestick")];
        repeat constructor; simpl; by rewrite !length_map.
    + repeat constructor; simpl; by rewrite !length_map.
  - repeat constructor. simpl. by rewrite length_calculate_rsi, !length_map.
  - simpl. lia.
  - right. rewrite last_snoc. eauto.
Qed.

Lemma update_charts_traces_aligned_witness :
  Forall trace_aligned (Charts.fig_traces short_main_figure)
  /\ Forall trace_aligned (Charts.fig_traces short_indicator_figure)
  /\ (length (Charts.fig_traces short_indicator_figure) <= 1)%nat
  /\ (Charts.fig_traces short_main_figure = []
      \/ exists x y colors,
           last (Charts.fig_traces short_main_figure)
           = Some (Charts.Bar x y colors)).
Proof.
  apply (update_charts_traces_aligned short_source
           (Some "AAA"%string) (Some "1d"%string) (Some "1mo"%string)
           (Some "line"%string) short_main_figure short_indicator_figure).
  vm_compute. reflexivity.
Defined.

End ProtoMore.

(** ** The card watchlist *)

Section CardsMore.

Local Open Scope list_scope.

Lemma mapM_Forall2 {A B} (f : A -> result B) (l : list A) (l' : list B) :
  mapM f l = inr l' -> Forall2 (fun x y => f x = inr y) l l'.
Proof.
  revert l'. induction l as [|x l IH]; intros l' H.
  - inversion H. constructor.
  - cbn [mapM] in H. destruct (f x) as [|y] eqn:E; [discriminate H |].
    cbn [bind] in H. destruct (mapM f l) as [|ys]; [discriminate H |].
    cbn [bind ret] in H. inversion H; subst. constructor; auto.
Qed.

Lemma mapM_fails {A B} (f : A -> result B) (l : list A) x e :
  x ∈ l -> f x = inl e -> exists e', mapM f l = inl e'.
Proof.
  intros Hin Hx. induction l as [|y l IH]; [by apply elem_of_nil in Hin |].
  cbn [mapM]. destruct (f y) as [e0|y'] eqn:E; [by exists e0 |].
  apply elem_of_cons in Hin as [-> | Hin]; [congruence |].
  destruct (IH Hin) as [e' He']. exists e'. by rewrite He'.
Qed.

(** What the [try] body of [get_stock_data] builds from the attribute
    map. *)
Lemma fetch_row_fields (src : Source) (rt : Runtime) t info r :
  yf_info src t = ret (Some info) ->
  Cardview.fetch_row src rt t = inr r ->
  exists change,
    row_get r "Price Change" = Some (VVal change)
    /\ (change = PStr "N/A"
        \/ exists a b, py_float rt (get info "currentPrice") = inr a
                       /\ py_float rt (get info "previousClose") = inr b
                       /\ change = PFloat (sub a b))
    /\ (is_none (get info "currentPrice") = true
        \/ is_none (get info "previousClose") = true <-> change = PStr "N/A")
    /\ row_get r "Current Price"
       = Some (VVal (if py_truthy (get info "currentPrice")
                     then get info "currentPrice" else PStr "N/A"))
    /\ row_get r "Volume Traded" = Some (VVal (get_or info "volume" (PStr "N/A")))
    /\ row_get r "Market Cap" = Some (VVal (get_or info "marketCap" (PStr "N/A")))
    /\ row_has r "Error" = false
    /\ map fst r
       = [ "Ticker"; "Current Price"; "Price Change"; "Close"; "Open";
           "Day Range"; "52W Range"; "Volume Traded"; "Market Cap"; "Beta";
           "Analyst Range"; "Close Prices"; "Dates" ]%string.
Proof.
  intros Hinfo H. unfold Cardview.fetch_row in H. rewrite Hinfo in H.
  cbn [bind ret] in H.
  destruct (yf_history src t "1m" "1d") as [|h]; [discriminate H |].
  cbn [bind ret the_info] in H.
  destruct (is_none (get info "currentPrice")) eqn:E1;
    destruct (is_none (get info "previousClose")) eqn:E2;
    cbn [negb andb bind ret] in H.
  1-3: inversion H; subst r; exists (PStr "N/A");
       repeat split; auto; try (intros _; auto).
  destruct (py_float rt (get info "currentPrice")) as [|a] eqn:Ea;
    [discriminate H |]. cbn [bind ret] in H.
  destruct (py_float rt (get info "previousClose")) as [|b] eqn:Eb;
    [discriminate H |]. cbn [bind ret] in H.
  inversion H; subst r. exists (PFloat (sub a b)).
  repeat split; auto.
  - right. eauto.
  - intros [? | ?]; discriminate.
  - discriminate.
Qed.

(** The field "Price Change" is the text "N/A" exactly when the current
    price or the previous close is absent, and the difference of the two
    otherwise (never an imputed zero); a current price of 0 is shown as
    "N/A" although the change is still computed from it. *)
Theorem price_change_only_when_both_present (src : Source) (rt : Runtime)
    (t : string) (info : info_map) (r : row) :
  yf_info src t = ret (Some info) ->
  Cardview.fetch_row src rt t = inr r ->
  (absent info "currentPrice" \/ absent info "previousClose" ->
     row_get r "Price Change" = Some (VVal (PStr "N/A")))
  /\ (forall a b,
        get info "currentPrice" = PFloat a ->
        get info "previousClose" = PFloat b ->
        row_get r "Price Change" = Some (VVal (PFloat (sub a b))))
  /\ (py_truthy (get info "currentPrice") = false ->
        row_get r "Current Price" = Some (VVal (PStr "N/A"))).
Proof.
  intros Hinfo Hrow.
  destruct (fetch_row_fields src rt t info r Hinfo Hrow)
    as (change & Hc & Hcases & Hna & Hcur & _).
  repeat split.
  - intros Habs. rewrite Hc. do 2 f_equal. apply Hna.
    unfold absent in Habs. destruct Habs as [-> | ->]; auto.
  - intros a b Ha Hb. rewrite Hc. do 2 f_equal.
    destruct Hcases as [-> | (a' & b' & Ha' & Hb' & ->)].
    + assert (Hn : is_none (get info "currentPrice") = true
                   \/ is_none (get info "previousClose") = true)
        by (by apply Hna).
      rewrite Ha, Hb in Hn. destruct Hn; discriminate.
    + rewrite Ha in Ha'. rewrite Hb in Hb'. simpl in Ha', Hb'.
      by inversion Ha'; inversion Hb'; subst.
  - intros Hf. by rewrite Hcur, Hf.
Qed.

Lemma price_change_only_when_both_present_witness :
  (absent zero_price_info "currentPrice"
   \/ absent zero_price_info "previousClose" ->
     row_get (Cardview.stock_row zero_price_source sample_runtime "AAA") "Price Change"
     = Some (VVal (PStr "N/A")))
  /\ (forall a b,
        get zero_price_info "currentPrice"
        = PFloat a ->
        get zero_price_info "previousClose"
        = PFloat b ->
        row_get (Cardview.stock_row zero_price_source sample_runtime "AAA") "Price Change"
        = Some (VVal (PFloat (sub a b))))
  /\ (py_truthy (get zero_price_info
                     "currentPrice") = false ->
        row_get (Cardview.stock_row zero_price_source sample_runtime "AAA") "Current Price"
        = Some (VVal (PStr "N/A"))).
Proof.
  apply (price_change_only_when_both_present zero_price_source sample_runtime
           "AAA"%string).
  - reflexivity.
  - vm_compute. reflexivity.
Defined.

Lemma stock_element_kind (rt : Runtime) (list_str : rowval -> string)
    (stock : row) (el : Cards.element) :
  Cards.stock_element rt list_str stock = inr el ->
  if row_has stock "Error"
  then exists text, el = Cards.ErrorDiv text
  else exists c, el = Cards.Card c /\ Cards.stock_card rt list_str stock = inr c.
Proof.
  unfold Cards.stock_element. intros H.
  destruct (row_has stock "Error").
  - repeat match type of H with
           | bind ?m _ = _ =>
               destruct m; [discriminate H |]; cbn [bind ret] in H
           end.
    inversion H. eauto.
  - destruct (Cards.stock_card rt list_str stock) as [|c]; [discriminate H |].
    inversion H. eauto.
Qed.

(** When [create_stock_cards] returns, it returns one element per row in
    the order of the rows: a red message for a row with the key "Error", a
    card for any other row. *)
Theorem create_stock_cards_one_per_row (rt : Runtime)
    (list_str : rowval -> string) (data : list row)
    (cards : list Cards.element) :
  Cards.create_stock_cards rt list_str data = inr cards ->
  Forall2 (fun stock el =>
             if row_has stock "Error"
             then exists text, el = Cards.ErrorDiv text
             else exists c, el = Cards.Card c
                            /\ Cards.stock_card rt list_str stock = inr c)
          data cards.
Proof.
  intros H. apply mapM_Forall2 in H.
  eapply Forall2_impl; [exact H |].
  intros stock el. apply stock_element_kind.
Qed.

Lemma create_stock_cards_one_per_row_witness :
  Forall2 (fun stock el =>
             if row_has stock "Error"
             then exists text, el = Cards.ErrorDiv text
             else exists c, el = Cards.Card c
                            /\ Cards.stock_card sample_runtime sample_list_str stock
                               = inr c)
          (Cardview.get_stock_data complete_source sample_runtime
             ["AAA"; "BAD"; "CCC"]%string)
          (cards_or_nil
             (Cards.create_stock_cards sample_runtime sample_list_str
                (Cardview.get_stock_data complete_source sample_runtime
                   ["AAA"; "BAD"; "CCC"]%string))).
Proof.
  apply (create_stock_cards_one_per_row sample_runtime sample_list_str).
  vm_compute. reflexivity.
Defined.

Lemma stock_card_needs_numbers (rt : Runtime) (list_str : rowval -> string)
    (stock : row) (volume cap : pyval) :
  row_get stock "Volume Traded" = Some (VVal volume) ->
  row_get stock "Market Cap" = Some (VVal cap) ->
  not_a_number volume \/ not_a_number cap ->
  exists e, Cards.stock_card rt list_str stock = inl e.
Proof.
  intros Hv Hc Hnot. unfold Cards.stock_card, Cards.item.
  rewrite Hv, Hc.
  repeat match goal with
         | |- exists e, bind ?m _ = inl e =>
             let E := fresh "E" in
             destruct m eqn:E; [eexists; reflexivity |]; cbn [bind ret]
         end.
  exfalso. unfold Cards.rowval_comma in *.
  destruct Hnot as [Hn | Hn].
  - destruct volume; try contradiction; simpl in *; discriminate.
  - destruct cap; try contradiction; simpl in *; discriminate.
Qed.

(** A fetched ticker whose attribute map lacks a numeric volume or market
    capitalisation makes [create_stock_cards] raise on the [,] format, and
    the callback then shows one message for the whole list: no card is
    shown for any ticker. *)
Theorem update_cards_collapses_without_volume (src : Source) (rt : Runtime)
    (upper : string -> string) (list_str : rowval -> string)
    (n_clicks n_intervals : nat) (text t : string) (info : info_map) (r : row) :
  text <> ""%string ->
  t ∈ map (fun x => upper (Proto.strip x)) (Proto.split_comma text) ->
  yf_info src t = ret (Some info) ->
  Cardview.fetch_row src rt t = inr r ->
  not_a_number (get_or info "volume" (PStr "N/A"))
  \/ not_a_number (get_or info "marketCap" (PStr "N/A")) ->
  exists e,
    Cards.update_cards src rt upper list_str n_clicks n_intervals (Some text)
    = [Cards.ErrorDiv ("Error: " ++ e)%string].
Proof.
  intros Hne Hin Hinfo Hrow Hnot.
  destruct (fetch_row_fields src rt t info r Hinfo Hrow)
    as (change & _ & _ & _ & _ & Hv & Hc & Herr & _).
  destruct (stock_card_needs_numbers rt list_str r _ _ Hv Hc Hnot) as [e0 He0].
  assert (Hel : Cards.stock_element rt list_str r = inl e0).
  { unfold Cards.stock_element. by rewrite Herr, He0. }
  assert (Hr : r ∈ Cardview.get_stock_data src rt
                     (map (fun x => upper (Proto.strip x)) (Proto.split_comma text))).
  { rewrite get_stock_data_map. apply list_elem_of_fmap. exists t.
    split; [| exact Hin]. unfold Cardview.stock_row. by rewrite Hrow. }
  destruct (mapM_fails _ _ r e0 Hr Hel) as [e He].
  exists e. unfold Cards.update_cards.
  destruct text as [|c text]; [contradiction |].
  unfold Cards.create_stock_cards. by rewrite He.
Qed.

Lemma update_cards_collapses_without_volume_witness :
  exists e,
    Cards.update_cards no_volume_source sample_runtime sample_upper
      sample_list_str 1 0 (Some "AAA,MSFT"%string)
    = [Cards.ErrorDiv ("Error: " ++ e)%string].
Proof.
  apply (update_cards_collapses_without_volume no_volume_source sample_runtime
           sample_upper sample_list_str 1 0 "AAA,MSFT"%string "MSFT"%string
           {[ "currentPrice" := PFloat (Fin (6 # 1));
              "previousClose" := PFloat (Fin (8 # 1)) ]}
           (Cardview.stock_row no_volume_source sample_runtime "MSFT")).
  - discriminate.
  - vm_compute. apply list_elem_of_further, list_elem_of_here.
  - reflexivity.
  - vm_compute. reflexivity.
  - left. vm_compute. exact I.
Defined.

End CardsMore.

(** ** The page of Stock_Research_Analysis.py *)

Section DashboardMore.

Local Open Scope list_scope.

(** [generate_stock_info] raises only when the market capitalisation is a
    non-empty text; otherwise it gives the ten rows in their fixed order,
    with "N/A" for a market capitalisation that is absent or zero. *)
Theorem generate_stock_info_market_cap (rt : Runtime) (info : info_map) :
  (forall s, get info "marketCap" = PStr s -> s <> ""%string ->
     Dashboard.generate_stock_info rt info = inl "ValueError"%string)
  /\ ((forall s, get info "marketCap" = PStr s -> s = ""%string) ->
      exists rows,
        Dashboard.generate_stock_info rt info = ret (Dashboard.InfoTable rows)
        /\ map fst rows
           = [ "Name"; "Symbol"; "Sector"; "Industry"; "Market Cap";
               "52 Week High"; "52 Week Low"; "Dividend Yield"; "PE Ratio";
               "EPS" ]%string
        /\ (py_truthy (get info "marketCap") = false ->
              rows !! 4%nat = Some ("Market Cap"%string, PStr "N/A")))
  /\ (forall k label,
        (k, label) ∈ [ ("longName", "Name"); ("symbol", "Symbol");
                       ("sector", "Sector"); ("industry", "Industry") ]%string ->
        info !! k = None ->
        forall rows,
          Dashboard.generate_stock_info rt info = ret (Dashboard.InfoTable rows) ->
          (label, PStr "N/A") ∈ rows).
Proof.
  split; [| split].
  - intros s Hs Hne. unfold Dashboard.generate_stock_info.
    rewrite Hs. cbn [py_truthy].
    assert (E : String.eqb s "" = false) by (by apply String.eqb_neq).
    rewrite E. cbn [negb].
    rewrite get_or_get by (by rewrite Hs). by rewrite Hs.
  - intros Hs. unfold Dashboard.generate_stock_info.
    destruct (py_truthy (get info "marketCap")) eqn:Et.
    + rewrite get_or_get by (by destruct (get info "marketCap")).
      destruct (get info "marketCap") as [|z|x|s] eqn:E.
      * discriminate Et.
      * eexists. cbn [py_fmt_comma bind ret]. repeat split. discriminate.
      * eexists. cbn [py_fmt_comma bind ret]. repeat split. discriminate.
      * rewrite (Hs s eq_refl) in Et. discriminate Et.
    + eexists. cbn [bind ret]. repeat split.
  - intros k label Hin Hk rows H. unfold Dashboard.generate_stock_info in H.
    match type of H with
    | bind ?m _ = _ => destruct m; [discriminate H |]; cbn [bind ret] in H
    end.
    inversion H; subst rows. clear H.
    unfold get_or.
    repeat (apply elem_of_cons in Hin as [Hin | Hin];
            [inversion Hin; subst; rewrite Hk;
             repeat (first [apply list_elem_of_here | apply list_elem_of_further]) |]).
    by apply elem_of_nil in Hin.
Qed.

Lemma percent_value_text (info : info_map) k s :
  get info k = PStr s -> KPI.percent_value info k = inl "ValueError"%string.
Proof.
  intros H. unfold KPI.percent_value. rewrite H. cbn [is_none].
  rewrite get_or_get by (by rewrite H). by rewrite H.
Qed.

Lemma rounded_value_text (info : info_map) k s :
  get info k = PStr s -> KPI.rounded_value info k = inl "ValueError"%string.
Proof.
  intros H. unfold KPI.rounded_value. rewrite H. cbn [is_none].
  rewrite get_or_get by (by rewrite H). by rewrite H.
Qed.

Lemma kpi_df_text_fails (rt : Runtime) (info : info_map) k s :
  k ∈ float_formatted_keys ->
  get info k = PStr s ->
  exists e, KPI.kpi_df rt info = inl e.
Proof.
  intros Hk Hs.
  pose proof (percent_value_text info k s Hs) as Hp.
  pose proof (rounded_value_text info k s Hs) as Hr.
  unfold KPI.kpi_df.
  destruct (KPI.Value rt info) as [e|vs] eqn:EV; [by exists e |].
  exfalso.
  destruct (Value_cells rt info vs EV)
    as (v0 & v1 & v2 & v3 & v4 & v5 & v6 & v7 & v8 & v9 & _
        & E0 & E1 & E2 & E3 & E4 & E5 & E6 & E7 & E8 & E9).
  unfold float_formatted_keys in Hk. unfold ret in *.
  repeat (apply elem_of_cons in Hk as [-> | Hk]; [congruence |]).
  by apply elem_of_nil in Hk.
Qed.

Lemma update_output_fetch_failure (src : Source) (rt : Runtime)
    (upper : string -> string) n (c : ascii) (t : string) p e :
  Research.fetch_body src rt (upper (String c t)) = inl e ->
  Dashboard.update_output src rt upper n (Some (String c t)) p
  = ret (Dashboard.Message ("Error fetching data: " ++ e)%string
                           "text-danger text-center").
Proof.
  intros H. unfold Dashboard.update_output, Research.fetch_financials.
  rewrite H. unfold Dashboard.dict_truthy.
  rewrite bool_decide_eq_false_2 by apply map_non_empty_singleton.
  cbn [negb]. by rewrite lookup_singleton_eq.
Qed.

(** One text where a ratio (or the beta) is expected hides everything: the
    KPI formatting raises, the statements that were already normalised are
    dropped with it, and the page is a single error message. *)
Theorem text_ratio_hides_the_statements (src : Source) (rt : Runtime)
    (upper : string -> string) (n_clicks : option nat) (ticker : string)
    (period : option cadence) (info : info_map) (k s : string) :
  ticker <> ""%string ->
  yf_info src (upper ticker) = ret (Some info) ->
  k ∈ float_formatted_keys ->
  get info k = PStr s ->
  exists e,
    Research.fetch_financials src rt (upper ticker)
    = (None, {[ "error"%string := PStr e ]}, None)
    /\ Dashboard.update_output src rt upper n_clicks (Some ticker) period
       = ret (Dashboard.Message ("Error fetching data: " ++ e)%string
                                "text-danger text-center").
Proof.
  intros Hne Hinfo Hk Hs.
  destruct ticker as [|c t]; [contradiction |].
  assert (Hbody : exists e, Research.fetch_body src rt (upper (String c t)) = inl e).
  { unfold Research.fetch_body.
    destruct (mapM _ Research.statements) as [e|raws]; [by exists e |].
    cbn [bind].
    destruct (mapM _ raws) as [e|fin]; [by exists e |].
    cbn [bind]. rewrite Hinfo. cbn [bind ret].
    destruct (kpi_df_text_fails rt info k s Hk Hs) as [e He].
    exists e. by rewrite He. }
  destruct Hbody as [e He]. exists e. split.
  - unfold Research.fetch_financials. by rewrite He.
  - by apply update_output_fetch_failure.
Qed.

Lemma text_ratio_hides_the_statements_witness :
  exists e,
    Research.fetch_financials text_ratio_source sample_runtime (sample_upper "MSFT")
    = (None, {[ "error"%string := PStr e ]}, None)
    /\ Dashboard.update_output text_ratio_source sample_runtime sample_upper
         (Some 1%nat) (Some "MSFT"%string) (Some Annual)
       = ret (Dashboard.Message ("Error fetching data: " ++ e)%string
                                "text-danger text-center").
Proof.
  apply (text_ratio_hides_the_statements text_ratio_source sample_runtime
           sample_upper (Some 1%nat) "MSFT"%string (Some Annual)
           text_ratio_info "grossMargins"%string "n/a"%string).
  - discriminate.
  - reflexivity.
  - apply list_elem_of_further, list_elem_of_here.
  - vm_compute. reflexivity.
Defined.

Lemma fetch_body_statement (src : Source) (rt : Runtime) (T : string)
    fin info kpi :
  Research.fetch_body src rt T = inr (fin, info, kpi) ->
  forall c k, exists raw df,
    yf_statement src T c k = inr raw
    /\ normalize_statement raw = inr df
    /\ Dashboard.statement_of fin c k = inr df.
Proof.
  unfold Research.fetch_body, Research.statements. intros H.
  cbn [mapM fst snd] in H.
  repeat match type of H with
         | context [yf_statement src T ?c ?k] =>
             let E := fresh "Y" in
             destruct (yf_statement src T c k) as [?|?] eqn:E;
             [discriminate H |]; cbn [bind ret mapM fst snd] in H
         end.
  repeat match type of H with
         | context [normalize_statement ?r] =>
             let E := fresh "N" in
             destruct (normalize_statement r) as [?|?] eqn:E;
             [discriminate H |]; cbn [bind ret mapM fst snd] in H
         end.
  destruct (yf_info src T); [discriminate H |]. cbn [bind ret] in H.
  match type of H with
  | bind ?m _ = _ => destruct m; [discriminate H |]; cbn [bind ret] in H
  end.
  inversion H; subst. clear H.
  intros c k. destruct c, k; eexists _, _;
    (split; [eassumption | split; [eassumption | reflexivity]]).
Qed.

(** On a page that is not an error message, the tab of each statement
    shows the frame the normaliser made of what the source returned for
    the chosen cadence; for a statement the source does not have ([None])
    the tab is the message "No data available for this section.", while
    the other tabs are still there. *)
Theorem statement_tab_shows_the_frame (src : Source) (rt : Runtime)
    (upper : string -> string) (n_clicks : option nat) (ticker : string)
    (period : cadence) (page : Dashboard.view) (k : statement_kind) :
  Dashboard.update_output src rt upper n_clicks (Some ticker) (Some period)
  = ret page ->
  ~ is_message page ->
  exists raw df,
    yf_statement src (upper ticker) period k = ret raw
    /\ normalize_statement raw = ret df
    /\ statement_tab page k = Some (Dashboard.generate_financial_table df)
    /\ (raw = None -> statement_tab page k = Some Dashboard.no_data).
Proof.
  intros H Hmsg. unfold Dashboard.update_output in H.
  destruct ticker as [|a t]; [inversion H; subst; by destruct Hmsg |].
  unfold Research.fetch_financials in H.
  destruct (Research.fetch_body src rt (upper (String a t)))
    as [e | [[fin info] kpi]] eqn:EB.
  - match type of H with
    | match ?m with _ => _ end = _ => destruct m
    end.
    + inversion H; subst. by destruct Hmsg.
    + destruct (Dashboard.generate_stock_info rt _); discriminate H.
  - match type of H with
    | match ?m with _ => _ end = _ => destruct m
    end.
    + inversion H; subst. by destruct Hmsg.
    + destruct (Dashboard.generate_stock_info rt info) as [|infoview];
        [discriminate H |].
      cbn [bind ret] in H. unfold Dashboard.generate_tabs in H.
      cbn [bind ret] in H.
      destruct (fetch_body_statement src rt _ fin info kpi EB period ProfitAndLoss)
        as (r1 & d1 & Y1 & N1 & S1).
      destruct (fetch_body_statement src rt _ fin info kpi EB period BalanceSheet)
        as (r2 & d2 & Y2 & N2 & S2).
      destruct (fetch_body_statement src rt _ fin info kpi EB period CashFlow)
        as (r3 & d3 & Y3 & N3 & S3).
      rewrite S1, S2, S3 in H. cbn [bind ret] in H.
      inversion H; subst page. clear H.
      destruct k; [exists r1, d1 | exists r2, d2 | exists r3, d3];
        (split; [assumption |]); (split; [assumption |]);
        (split; [reflexivity |]); intros ->;
        match goal with
        | N : normalize_statement None = inr _ |- _ => inversion N; subst
        end; reflexivity.
Qed.

Lemma statement_tab_shows_the_frame_witness :
  exists raw df,
    yf_statement complete_source (sample_upper "MSFT") Annual BalanceSheet = ret raw
    /\ normalize_statement raw = ret df
    /\ statement_tab
         (page_of (Dashboard.update_output complete_source sample_runtime
                     sample_upper (Some 1%nat) (Some "MSFT"%string) (Some Annual)))
         BalanceSheet
       = Some (Dashboard.generate_financial_table df)
    /\ (raw = None ->
        statement_tab
          (page_of (Dashboard.update_output complete_source sample_runtime
                      sample_upper (Some 1%nat) (Some "MSFT"%string) (Some Annual)))
          BalanceSheet
        = Some Dashboard.no_data).
Proof.
  apply (statement_tab_shows_the_frame complete_source sample_runtime
           sample_upper (Some 1%nat) "MSFT"%string Annual).
  - vm_compute. reflexivity.
  - vm_compute. intros H. exact H.
Defined.

End DashboardMore.
